(** * Perfection detection and selection engine (horary_engine/perfection_core.py)

    A shallow embedding of the timing kernel, the event detector, the
    de-duplication / de-confliction / sorting pipeline and the chooser, and
    the properties of them that the specification states.

    Conventions of the embedding.
    - Python floats are exact rationals ([Q]); [float('inf')] is the extra
      point [PInf] of [Qinf].  Rounding error, NaN and signed zero of IEEE
      arithmetic are outside the model (the one place where a negative zero
      becomes visible, the rendered [event_key], is modelled explicitly).
    - A dictionary is a [gmap]; an attribute read with [getattr(o, a, d)] or
      tested with [hasattr] is an [option] field, [None] standing for
      "attribute absent".  Where the code tells an absent attribute from one
      that holds [None] ([solar_condition]), the field has both states.
    - [chart.planets[p]] raises [KeyError] on a missing body; functions that
      can raise live in the [result] monad.
    - [print] calls are dropped, except the one whose format specification
      can raise (in [find_perfections]). *)

From Stdlib Require Import ZArith QArith Qround Qabs Lqa Lia Sorted.
From stdpp Require Import base decidable countable finite gmap list strings pretty.

Local Open Scope Z_scope.

(** ** Python numerics on rationals *)

Module PyNum.

Definition Qltb (x y : Q) : bool := negb (Qle_bool y x).
Definition Qleb (x y : Q) : bool := Qle_bool x y.
Definition Qgtb (x y : Q) : bool := Qltb y x.
Definition Qgeb (x y : Q) : bool := Qle_bool y x.

(** [x // y] on floats: the floor of the quotient. *)
Definition floordiv (x y : Q) : Q := inject_Z (Qfloor (x / y)).

(** [x % m] on floats, for a positive modulus: the result lies in [0, m). *)
Definition pymod (x m : Q) : Q := (x - inject_Z (Qfloor (x / m)) * m)%Q.

(** [int(x)]: truncation toward zero. *)
Definition py_int (x : Q) : Z := Z.quot (Qnum x) (Zpos (Qden x)).

(** Round to the nearest integer, ties to even. *)
Definition round_half_even (x : Q) : Z :=
  let f := Qfloor x in
  let r := (x - inject_Z f)%Q in
  if Qltb r (1 # 2) then f
  else if Qltb (1 # 2) r then f + 1
  else if Z.even f then f else f + 1.

(** [round(x, 4)], as the number of ten-thousandths. *)
Definition round4 (x : Q) : Z := round_half_even (x * 10000)%Q.

(** Truthiness of an optional float: [None] and [0.0] are falsy. *)
Definition truthy (o : option Q) : bool :=
  match o with
  | Some x => negb (Qeq_bool x 0)
  | None => false
  end.

(** Floats extended with [float('inf')]. *)
Inductive Qinf := Fin (q : Q) | PInf.

Definition Qinf_ltb (a b : Qinf) : bool :=
  match a, b with
  | Fin x, Fin y => Qltb x y
  | Fin _, PInf => true
  | PInf, _ => false
  end.

Definition Qinf_eqb (a b : Qinf) : bool :=
  match a, b with
  | Fin x, Fin y => Qeq_bool x y
  | PInf, PInf => true
  | _, _ => false
  end.

(** [x or float('inf')]. *)
Definition or_inf (o : option Q) : Qinf :=
  match o with
  | Some x => if Qeq_bool x 0 then PInf else Fin x
  | None => PInf
  end.

(** [x or 0]. *)
Definition or_zero (o : option Q) : Q :=
  match o with
  | Some x => x
  | None => 0%Q
  end.

(** [min(l, key=f)]: the first element whose key is minimal. *)
Fixpoint min_by {A K : Type} (ltb : K -> K -> bool) (f : A -> K)
    (best : A) (l : list A) : A :=
  match l with
  | [] => best
  | x :: l' => min_by ltb f (if ltb (f x) (f best) then x else best) l'
  end.

Definition py_min {A K : Type} (ltb : K -> K -> bool) (f : A -> K)
    (l : list A) : option A :=
  match l with
  | [] => None
  | x :: l' => Some (min_by ltb f x l')
  end.

End PyNum.
Import PyNum.

(** Global tolerance for time comparisons (days). *)
Definition EPS : Q := 1 # 1000.

(** ** Data model *)

Inductive Planet := SUN | MOON | MERCURY | VENUS | MARS | JUPITER | SATURN.

Inductive Aspect := CONJUNCTION | SEXTILE | SQUARE | TRINE | OPPOSITION.

Inductive EventType :=
  | DIRECT | DIRECT_PENALIZED | HOUSE_PLACEMENT | TRANSLATION | COLLECTION
  | PROHIBITION | ABSCISSION | REFRANATION | FRUSTRATION | COMBUSTION_VETO.

#[global] Instance Planet_eq_dec : EqDecision Planet.
Proof. solve_decision. Defined.
#[global] Instance Aspect_eq_dec : EqDecision Aspect.
Proof. solve_decision. Defined.
#[global] Instance EventType_eq_dec : EqDecision EventType.
Proof. solve_decision. Defined.

#[global, refine] Instance Planet_finite : Finite Planet :=
  {| enum := [SUN; MOON; MERCURY; VENUS; MARS; JUPITER; SATURN] |}.
Proof.
  - by apply (bool_decide_unpack _).
  - intros []; by apply (bool_decide_unpack _).
Defined.

#[global, refine] Instance Aspect_finite : Finite Aspect :=
  {| enum := [CONJUNCTION; SEXTILE; SQUARE; TRINE; OPPOSITION] |}.
Proof.
  - by apply (bool_decide_unpack _).
  - intros []; by apply (bool_decide_unpack _).
Defined.

#[global, refine] Instance EventType_finite : Finite EventType :=
  {| enum := [DIRECT; DIRECT_PENALIZED; HOUSE_PLACEMENT; TRANSLATION;
              COLLECTION; PROHIBITION; ABSCISSION; REFRANATION; FRUSTRATION;
              COMBUSTION_VETO] |}.
Proof.
  - by apply (bool_decide_unpack _).
  - intros []; by apply (bool_decide_unpack _).
Defined.

(** Modelled from the spec: the [Aspect] enumeration lives in [models.py],
    which is not part of the sources; each aspect kind carries its target
    separation in degrees (conjunction 0, sextile 60, square 90, trine 120,
    opposition 180). *)
Definition degrees (a : Aspect) : Q :=
  match a with
  | CONJUNCTION => 0
  | SEXTILE => 60
  | SQUARE => 90
  | TRINE => 120
  | OPPOSITION => 180
  end%Q.

(** The five geometries, in the order every loop of the module visits them. *)
Definition all_aspects : list Aspect :=
  [CONJUNCTION; SEXTILE; SQUARE; TRINE; OPPOSITION].

(** The seven classical bodies, in the order of the third-body loops. *)
Definition classical : list Planet :=
  [SUN; MOON; MERCURY; VENUS; MARS; JUPITER; SATURN].

Inductive SolarCondition := COMBUSTION | CAZIMI | UNDER_BEAMS | FREE.

#[global] Instance SolarCondition_eq_dec : EqDecision SolarCondition.
Proof. solve_decision. Defined.

(** A position snapshot.  Every attribute the module reads through
    [getattr]/[hasattr] is optional.  [solar_condition] is tested with
    [hasattr] and then dereferenced: [None] is the absent attribute,
    [Some None] the attribute that holds [None], [Some (Some c)] a
    solar-condition object whose [condition] is [c]. *)
Record PlanetPosition := {
  longitude : option Q;
  daily_motion : option Q;
  speed : option Q;
  house : option Z;
  solar_condition : option (option SolarCondition)
}.

(** The chart: the body table and what [chart.get("significators", {})]
    yields ([None] when the chart offers no such lookup, which the caller
    swallows as [AttributeError]). *)
Record HoraryChart := {
  planets : gmap Planet PlanetPosition;
  significators : option (gmap string Z)
}.

(** A reception summary, as the external classifier returns it. *)
Record Reception := {
  rec_type : option string;
  rec_mutual : option string;
  rec_one_way : list string
}.

(** The dictionaries returned by the aspect searches. *)
Inductive LegKind := Applying | Separating | NextApplication.

Record Leg := {
  leg_aspect : Aspect;
  leg_timing : Q;
  leg_kind : LegKind;
  leg_target : Planet
}.

Inductive MetaValue :=
  | MPlanet (p : Planet)
  | MLeg (l : Leg)
  | MNum (q : Q)
  | MStr (s : string).

Record PerfectionEvent := {
  event_type : EventType;
  primary_pair : Planet * Planet;
  mediator : option Planet;
  aspect : option Aspect;
  reception_data : option Reception;
  exact_in_days : option Q;
  favorable : bool;
  confidence : option Z;
  reason : string;
  challenges : list string;
  quality_tags : list string;
  metadata : gmap string MetaValue
}.

(** The rendered [event_key].  The Python key is the string
    [type:querent:quesited:mediator:aspect:timing]; its components are kept
    apart here.  [round(x, 4)] is counted in ten-thousandths, and a negative
    timing that rounds to zero prints as [-0.0], which the flag records. *)
Record EventKey := {
  key_type : EventType;
  key_querent : Planet;
  key_quesited : Planet;
  key_mediator : option Planet;
  key_aspect : option Aspect;
  key_timing : Z;
  key_negzero : bool
}.

#[global] Instance EventKey_eq_dec : EqDecision EventKey.
Proof. solve_decision. Defined.

#[global] Program Instance EventKey_countable : Countable EventKey :=
  inj_countable'
    (fun k => (key_type k, key_querent k, key_quesited k, key_mediator k,
               key_aspect k, key_timing k, key_negzero k))
    (fun '(ty, q, e, m, a, t, z) =>
       {| key_type := ty; key_querent := q; key_quesited := e;
          key_mediator := m; key_aspect := a; key_timing := t;
          key_negzero := z |}) _.
Next Obligation. by intros []. Qed.

Definition event_key (e : PerfectionEvent) : EventKey :=
  let mediator_key := mediator e in
  let aspect_key := aspect e in
  let timing_key :=
    if truthy (exact_in_days e)
    then (round4 (or_zero (exact_in_days e)),
          Qltb (or_zero (exact_in_days e)) 0
            && (round4 (or_zero (exact_in_days e)) =? 0))
    else (0, false) in
  {| key_type := event_type e;
     key_querent := fst (primary_pair e);
     key_quesited := snd (primary_pair e);
     key_mediator := mediator_key;
     key_aspect := aspect_key;
     key_timing := fst timing_key;
     key_negzero := snd timing_key |}.

(** ** Configuration and external collaborators *)

(** The knobs the module reads from [cfg()].  A knob read with
    [getattr(..., default)] is optional; the others are required. *)
Record ConfidencePerfection := {
  same_ruler : option Z;
  direct_basic : Z;
  hard_square_penalty : option Z;
  hard_opposition_penalty : option Z;
  translation_of_light : Z;
  collection_of_light : Z
}.

Record ConfidenceReception := {
  mutual_rulership_bonus : option Z;
  mutual_exaltation_bonus : option Z
}.

Record ConfidenceDenial := {
  abscission : option Z;
  frustration : option Z;
  refranation : Z
}.

Record Confidence := {
  conf_perfection : ConfidencePerfection;
  conf_reception : ConfidenceReception;
  conf_denial : ConfidenceDenial
}.

Record PerfectionCfg := {
  allow_out_of_sign : option bool;
  require_in_sign : option bool
}.

(** [max_separation_deg] and [max_application_deg] are the degree limits of
    the configuration; the tests set them on [config.translation]. *)
Record TranslationCfg := {
  require_speed_advantage : option bool;
  max_separation_deg : option Q;
  max_application_deg : option Q
}.

Record Config := {
  allow_out_of_sign_hits : option bool;
  cfg_perfection : option PerfectionCfg;
  cfg_confidence : Confidence;
  cfg_translation : TranslationCfg;
  translation_max_lookback_days : option Q
}.

(** What the module imports from files that are not part of the sources:
    the configuration, [calculation.helpers.days_to_sign_exit], the
    reception classifier of [reception.py], and the [value] /
    [display_name] renderings of the [models.py] enumerations.  The text of
    a prohibition reason ([_format_prohibition_reason]: projected houses,
    reception phrase, one-decimal day counts) is kept abstract as well; it
    reads the chart through [.get] and [getattr] only. *)
Record Externals := {
  config : Config;
  days_to_sign_exit : Q -> Q -> option Q;
  calculate_comprehensive_reception :
    HoraryChart -> Planet -> Planet -> Reception;
  planet_value : Planet -> string;
  display_name : Aspect -> string;
  format_prohibition_reason :
    HoraryChart -> Planet -> Planet -> Aspect -> Q -> option Q -> string
}.

(** ** Exceptions *)

Inductive exn :=
  | KeyError (p : Planet)
  | AttributeError
  | ValueError.

Inductive result (A : Type) :=
  | Ok (a : A)
  | Raise (e : exn).
Arguments Ok {A} a.
Arguments Raise {A} e.

#[global] Instance result_ret : MRet result := fun A a => Ok a.
#[global] Instance result_bind : MBind result :=
  fun A B f m => match m with Ok a => f a | Raise e => Raise e end.

(** [chart.planets[p]]. *)
Definition subscript (chart : HoraryChart) (p : Planet) : result PlanetPosition :=
  match planets chart !! p with
  | Some pos => Ok pos
  | None => Raise (KeyError p)
  end.

(** ** TimingKernel *)

Record Route := {
  route_aspect : Aspect;
  route_timing : Q;
  route_applier : Planet;
  route_receiver : Planet
}.

Module TimingKernel.
Section kernel.
Context (X : Externals).

Definition _get_daily_motion (planet_pos : option PlanetPosition) : Q :=
  match planet_pos with
  | None => 0
  | Some pos =>
      match daily_motion pos with
      | Some d => d
      | None =>
          match speed pos with
          | Some s => s
          | None => 0
          end
      end
  end%Q.

Definition _norm180 (x : Q) : Q := (pymod (x + 180) 360 - 180)%Q.

(** The candidate target separations of an aspect geometry: the first
    one, and the mirrored one if any. *)
Definition targets (target : Q) : Q * list Q :=
  if Qeq_bool target 0 then (0%Q, [])
  else if Qeq_bool target 180 then (180%Q, [(- (180))%Q])
  else (target, [(- target)%Q]).

Definition enforce_sign_guard : bool :=
  let cfg_obj := config X in
  let allow_cross_top := default false (allow_out_of_sign_hits cfg_obj) in
  let perfection_cfg :=
    default {| allow_out_of_sign := None; require_in_sign := None |}
            (cfg_perfection cfg_obj) in
  let allow_cross_perf := default false (allow_out_of_sign perfection_cfg) in
  let require := default true (require_in_sign perfection_cfg) in
  negb allow_cross_top && negb allow_cross_perf && require.

(** The forward root: [-delta / v_rel], advanced by whole synodic periods
    when it is not in the future. *)
Definition forward_time (delta v_rel : Q) : Q :=
  let t := (- delta / v_rel)%Q in
  if Qleb t 0 then
    let period := (360 / Qabs v_rel)%Q in
    let k := py_int (floordiv (- t) period + 1)%Q in
    (t + inject_Z k * period)%Q
  else t.

Definition blocked_by_sign_exit (t : Q) (days : option Q) : bool :=
  match days with
  | Some d => Qgtb t d
  | None => false
  end.

(** The signed offset from exactness: the separation now, measured
    against the nearest of the equivalent targets of the aspect. *)
Definition delta_to_exact (lon_a lon_b : Q) (aspect : Aspect) : Q :=
  let target := degrees aspect in
  let sep_now := (pymod (lon_b - lon_a + 180) 360 - 180)%Q in
  let '(t0, ts) := targets target in
  min_by Qltb Qabs (_norm180 (sep_now - t0))
         (map (fun t => _norm180 (sep_now - t)) ts).

Definition relative_rate (pos_a pos_b : PlanetPosition) : Q :=
  (_get_daily_motion (Some pos_b) - _get_daily_motion (Some pos_a))%Q.

Definition when_exact_in_days (planet_a planet_b : Planet) (aspect : Aspect)
    (chart : HoraryChart) : option Q :=
  match planets chart !! planet_a, planets chart !! planet_b with
  | Some pos_a, Some pos_b =>
      let lon_a := default 0%Q (longitude pos_a) in
      let lon_b := default 0%Q (longitude pos_b) in
      let delta := delta_to_exact lon_a lon_b aspect in
      let v_rel := relative_rate pos_a pos_b in
      if Qltb (Qabs v_rel) (1 # 1000000) then
        if Qltb (Qabs delta) (1 # 1000) then Some 0%Q else None
      else
        let t := forward_time delta v_rel in
        if enforce_sign_guard then
          let days_a := days_to_sign_exit X lon_a (default 0%Q (speed pos_a)) in
          let days_b := days_to_sign_exit X lon_b (default 0%Q (speed pos_b)) in
          if blocked_by_sign_exit t days_a || blocked_by_sign_exit t days_b
          then None
          else Some t
        else Some t
  | _, _ => None
  end.

Definition _current_direct_route (chart : HoraryChart)
    (querent quesited : Planet) (window_days : Z) : option Route :=
  fold_left
    (fun best aspect =>
       match when_exact_in_days querent quesited aspect chart with
       | None => best
       | Some t =>
           if Qgtb t (inject_Z window_days) then best
           else
             let qa := planets chart !! querent in
             let qe := planets chart !! quesited in
             let sp_q := Qabs (_get_daily_motion qa) in
             let sp_e := Qabs (_get_daily_motion qe) in
             let '(applier, receiver) :=
               if Qgeb sp_q sp_e then (querent, quesited)
               else (quesited, querent) in
             let cand := {| route_aspect := aspect; route_timing := t;
                            route_applier := applier;
                            route_receiver := receiver |} in
             match best with
             | None => Some cand
             | Some b =>
                 if Qltb (route_timing cand) (route_timing b)
                 then Some cand else best
             end
       end)
    all_aspects None.

End kernel.
End TimingKernel.

(** ** EventDetector *)

Definition positive_types : list EventType :=
  [DIRECT; DIRECT_PENALIZED; TRANSLATION; COLLECTION].

Definition is_positive (e : PerfectionEvent) : bool :=
  bool_decide (event_type e ∈ positive_types).

(** The first element of a loop that yields something ([break] on a hit). *)
Fixpoint find_first {A B : Type} (f : A -> option B) (l : list A) : option B :=
  match l with
  | [] => None
  | x :: l' =>
      match f x with
      | Some b => Some b
      | None => find_first f l'
      end
  end.

(** [max(a, b)] and [min(a, b)] of two floats. *)
Definition py_max2 (a b : Q) : Q := if Qltb a b then b else a.
Definition py_min2 (a b : Q) : Q := if Qltb b a then b else a.
Definition Zmax2 (a b : Z) : Z := if (a <? b)%Z then b else a.
Definition Zmin2 (a b : Z) : Z := if (b <? a)%Z then b else a.

(** [l.remove(x)]: drop the first occurrence. *)
Fixpoint remove_first (x : string) (l : list string) : list string :=
  match l with
  | [] => []
  | y :: l' => if String.eqb x y then l' else y :: remove_first x l'
  end.

Definition str_in (x : string) (l : list string) : bool :=
  existsb (String.eqb x) l.

Definition identity_reception : Reception :=
  {| rec_type := Some "identity"%string;
     rec_mutual := Some "identity"%string;
     rec_one_way := [] |}.

(** Truthiness of [rec.get('mutual')] and of [rec.get('one_way')]. *)
Definition mutual_truthy (r : Reception) : bool :=
  match rec_mutual r with
  | Some s => negb (String.eqb s "")
  | None => false
  end.

Definition one_way_truthy (r : Reception) : bool :=
  match rec_one_way r with
  | [] => false
  | _ :: _ => true
  end.

Module EventDetector.
Section detector.
Context (X : Externals).

Definition _get_daily_motion (planet_pos : option PlanetPosition) : Q :=
  match planet_pos with
  | None => 0
  | Some pos =>
      match daily_motion pos with
      | Some d => d
      | None =>
          match speed pos with
          | Some s => s
          | None => 0
          end
      end
  end%Q.

Definition _current_direct_route (chart : HoraryChart)
    (querent quesited : Planet) (window_days : Z) : option Route :=
  TimingKernel._current_direct_route X chart querent quesited window_days.

(** The reception of an ordered pair, as a lookup answers it.  The memo
    table ([reception_cache]) is keyed by the pair alone and lives as long
    as the detector: [calculate_comprehensive_reception X chart p1 p2]
    stands for what the table holds for the pair after the lookup, which on
    a detector that has seen another chart may be that chart's reception.
    Nothing proved below depends on the reception of a particular chart. *)
Definition _get_cached_reception (chart : HoraryChart)
    (planet1 planet2 : Planet) : Reception :=
  if decide (planet1 = planet2) then identity_reception
  else calculate_comprehensive_reception X chart planet1 planet2.

Definition _find_applying_aspect (chart : HoraryChart)
    (planet1 planet2 : Planet) (window_days : Z) : option Leg :=
  fold_left
    (fun best aspect =>
       match TimingKernel.when_exact_in_days X planet1 planet2 aspect chart with
       | Some timing =>
           if truthy (Some timing) && Qltb 0 timing
              && Qleb timing (inject_Z window_days)
           then
             match best with
             | Some b =>
                 if Qltb timing (leg_timing b)
                 then Some {| leg_aspect := aspect; leg_timing := timing;
                              leg_kind := Applying; leg_target := planet2 |}
                 else best
             | None =>
                 Some {| leg_aspect := aspect; leg_timing := timing;
                         leg_kind := Applying; leg_target := planet2 |}
             end
           else best
       | None => best
       end)
    all_aspects None.

Definition _find_separating_aspect (chart : HoraryChart)
    (planet1 planet2 : Planet) (window_days : Z) : option Leg :=
  match planets chart !! planet1, planets chart !! planet2 with
  | Some pos1, Some pos2 =>
      let delta :=
        pymod (default 0%Q (longitude pos2) - default 0%Q (longitude pos1)) 360 in
      let v_rel :=
        (_get_daily_motion (Some pos2) - _get_daily_motion (Some pos1))%Q in
      if Qltb (Qabs v_rel) (1 # 1000000) then None
      else
        fold_left
          (fun best aspect =>
             let A := degrees aspect in
             let '(t0, ts) := TimingKernel.targets A in
             fold_left
               (fun best target =>
                  let dt :=
                    if Qgtb v_rel 0
                    then (pymod (delta - target) 360 / v_rel)%Q
                    else (pymod (target - delta) 360 / (- v_rel))%Q in
                  if Qltb 0 dt && Qleb dt (inject_Z window_days) then
                    let cand := {| leg_aspect := aspect;
                                   leg_timing := (- dt)%Q;
                                   leg_kind := Separating;
                                   leg_target := planet2 |} in
                    match best with
                    | None => Some cand
                    | Some b =>
                        if Qltb dt (- leg_timing b)%Q then Some cand else best
                    end
                  else best)
               (t0 :: ts) best)
          all_aspects None
  | _, _ => None
  end.

Definition _find_earliest_application (chart : HoraryChart)
    (planet : Planet) (window_days : Z) (exclude : gset Planet) : option Leg :=
  fold_left
    (fun best other =>
       if decide (other = planet) then best
       else if decide (other ∈ exclude) then best
       else
         match _find_applying_aspect chart planet other window_days with
         | Some cand =>
             let next := {| leg_aspect := leg_aspect cand;
                            leg_timing := leg_timing cand;
                            leg_kind := NextApplication;
                            leg_target := other |} in
             match best with
             | None => Some next
             | Some b =>
                 if Qltb (leg_timing cand) (leg_timing b)
                 then Some next else best
             end
         | None => best
         end)
    classical None.

Definition _is_combustion_conjunction (chart : HoraryChart)
    (planet1 planet2 : Planet) : result bool :=
  if negb (bool_decide (SUN = planet1) || bool_decide (SUN = planet2))
  then Ok false
  else
    let other_planet := if decide (planet1 = SUN) then planet2 else planet1 in
    other_pos ← subscript chart other_planet;
    match solar_condition other_pos with
    | None => Ok false
    | Some None => Raise AttributeError
    | Some (Some c) => Ok (bool_decide (c = COMBUSTION))
    end.

Definition cadent (pos : PlanetPosition) : bool :=
  match house pos with
  | Some h => bool_decide (h ∈ [3; 6; 9; 12])
  | None => false
  end.

Definition _assess_direct_aspect_quality (aspect : Aspect)
    (reception_data : Reception) (chart : HoraryChart)
    (querent quesited : Planet)
    : result (bool * list string * list string) :=
  let hard := bool_decide (aspect ∈ [SQUARE; OPPOSITION]) in
  let challenges := if hard then ["hard_aspect"%string] else [] in
  let quality_tags :=
    if hard then ["with difficulty"%string] else ["easier"%string] in
  querent_pos ← subscript chart querent;
  quesited_pos ← subscript chart quesited;
  let challenges :=
    if cadent querent_pos then challenges ++ ["cadent_querent"%string]
    else challenges in
  let challenges :=
    if cadent quesited_pos then challenges ++ ["cadent_quesited"%string]
    else challenges in
  let mutual := default "none"%string (rec_mutual reception_data) in
  let strong :=
    str_in mutual ["mutual_rulership"; "mutual_exaltation"]%string in
  if String.eqb mutual "identity" then Ok (true, [], ["identity/union"%string])
  else
    let '(challenges, quality_tags) :=
      if strong then
        if str_in "hard_aspect" challenges
        then (remove_first "hard_aspect" challenges, ["easier"%string])
        else (challenges, quality_tags)
      else if String.eqb mutual "mixed_reception"
      then (challenges, quality_tags ++ ["mitigated by reception"%string])
      else (challenges, quality_tags) in
    let favorable := (length challenges =? 0)%nat || strong in
    Ok (favorable, challenges, quality_tags).

Definition _calculate_direct_confidence (aspect : Aspect)
    (reception_data : Reception) (challenges : list string) : Z :=
  let cp := conf_perfection (cfg_confidence (config X)) in
  let cr := conf_reception (cfg_confidence (config X)) in
  let base_confidence := direct_basic cp in
  let base_confidence :=
    if str_in "hard_aspect" challenges then
      let penalty :=
        if decide (aspect = SQUARE)
        then default 15 (hard_square_penalty cp)
        else default 20 (hard_opposition_penalty cp) in
      Zmax2 (base_confidence - penalty) 10
    else base_confidence in
  let mutual := default "none"%string (rec_mutual reception_data) in
  if String.eqb mutual "mutual_rulership"
  then Zmin2 (base_confidence + default 15 (mutual_rulership_bonus cr)) 100
  else if String.eqb mutual "mutual_exaltation"
  then Zmin2 (base_confidence + default 10 (mutual_exaltation_bonus cr)) 100
  else base_confidence.

Definition _detect_direct_events (chart : HoraryChart)
    (querent quesited : Planet) (window_days : Z)
    : result (list PerfectionEvent) :=
  let candidates :=
    fold_left
      (fun candidates aspect =>
         match TimingKernel.when_exact_in_days X querent quesited aspect chart with
         | None => candidates
         | Some timing =>
             if Qgtb timing (inject_Z window_days) then candidates
             else candidates ++ [(aspect, timing)]
         end)
      all_aspects [] in
  match py_min Qltb snd candidates with
  | None => Ok []
  | Some (aspect, timing) =>
      let reception_data := _get_cached_reception chart querent quesited in
      combust ←
        (if decide (aspect = CONJUNCTION)
         then _is_combustion_conjunction chart querent quesited
         else Ok false);
      if (combust : bool) then
        let other :=
          if decide (querent = SUN) then Some quesited
          else if decide (quesited = SUN) then Some querent else None in
        let reason :=
          match other with
          | None => "Combustion at conjunction prevents perfection"%string
          | Some o =>
              format_prohibition_reason X chart SUN o aspect timing (Some timing)
          end in
        Ok [ {| event_type := COMBUSTION_VETO;
                primary_pair := (querent, quesited);
                mediator := Some SUN;
                aspect := Some aspect;
                reception_data := None;
                exact_in_days := Some timing;
                favorable := false;
                confidence := None;
                reason := reason;
                challenges := ["combustion"%string];
                quality_tags := [];
                metadata := ∅ |} ]
      else
        '(favorable, challenges, quality_tags) ←
          _assess_direct_aspect_quality aspect reception_data chart
                                        querent quesited;
        let event_type :=
          match challenges with [] => DIRECT | _ :: _ => DIRECT_PENALIZED end in
        let confidence :=
          _calculate_direct_confidence aspect reception_data challenges in
        Ok [ {| event_type := event_type;
                primary_pair := (querent, quesited);
                mediator := None;
                aspect := Some aspect;
                reception_data := Some reception_data;
                exact_in_days := Some timing;
                favorable := favorable;
                confidence := Some confidence;
                reason := (display_name X aspect ++ " between significators")%string;
                challenges := challenges;
                quality_tags := quality_tags;
                metadata := ∅ |} ]
  end.

Definition abscission_confidence : Z :=
  default 70 (abscission (conf_denial (cfg_confidence (config X)))).

(** One turn of the translator loop: the events it appends. *)
Definition translation_step (chart : HoraryChart)
    (querent quesited : Planet) (window_days : Z) (translator : Planet)
    : list PerfectionEvent :=
  if bool_decide (translator = querent) || bool_decide (translator = quesited)
  then []
  else
    let sep_event := _find_separating_aspect chart translator querent window_days in
    let app_event := _find_applying_aspect chart translator quesited window_days in
    let '(sep_event, app_event) :=
      match sep_event, app_event with
      | Some _, Some _ => (sep_event, app_event)
      | _, _ =>
          (_find_separating_aspect chart translator quesited window_days,
           _find_applying_aspect chart translator querent window_days)
      end in
    match sep_event, app_event with
    | Some sep, Some app =>
        if Qltb (leg_timing sep) (leg_timing app) then
          let tr_pos := planets chart !! translator in
          let q_pos := planets chart !! querent in
          let qe_pos := planets chart !! quesited in
          let tr_sp := Qabs (_get_daily_motion tr_pos) in
          let q_sp := Qabs (_get_daily_motion q_pos) in
          let qe_sp := Qabs (_get_daily_motion qe_pos) in
          if default true (require_speed_advantage (cfg_translation (config X)))
             && negb (Qgtb tr_sp q_sp && Qgtb tr_sp qe_sp)
          then []
          else
            let max_lookback :=
              default 7%Q (translation_max_lookback_days (config X)) in
            if Qgtb (- leg_timing sep) max_lookback then []
            else
              let receiver := leg_target app in
              let earliest_next :=
                _find_earliest_application chart translator window_days
                                           {[ leg_target sep ]} in
              match earliest_next with
              | None => []
              | Some nxt =>
                  if negb (bool_decide (leg_target nxt = receiver))
                     || Qgtb (Qabs (leg_timing nxt - leg_timing app)) EPS
                  then []
                  else
                    let t_complete := leg_timing app in
                    let abscission_found :=
                      find_first
                        (fun other =>
                           if bool_decide (other = translator)
                              || bool_decide (other = querent)
                              || bool_decide (other = quesited)
                           then None
                           else
                             match _find_applying_aspect chart other receiver
                                                         window_days with
                             | Some other_app =>
                                 if Qltb 0 (leg_timing other_app)
                                    && Qltb (leg_timing other_app) t_complete
                                 then Some (other, other_app) else None
                             | None => None
                             end)
                        classical in
                    match abscission_found with
                    | Some (other, other_app) =>
                        [ {| event_type := ABSCISSION;
                             primary_pair := (querent, quesited);
                             mediator := Some other;
                             aspect := Some (leg_aspect other_app);
                             reception_data := None;
                             exact_in_days := Some (leg_timing other_app);
                             favorable := false;
                             confidence := Some abscission_confidence;
                             reason :=
                               ("Abscission: " ++ planet_value X other
                                ++ " perfects with " ++ planet_value X receiver
                                ++ " before translation by "
                                ++ planet_value X translator ++ " completes")%string;
                             challenges := [];
                             quality_tags := [];
                             metadata :=
                               {[ "receiver"%string := MPlanet receiver;
                                  "interceptor"%string := MPlanet other;
                                  "abscises_translator"%string := MPlanet translator ]}
                          |} ]
                    | None =>
                        let reception_data :=
                          _get_cached_reception chart querent quesited in
                        let recept_sep :=
                          _get_cached_reception chart translator (leg_target sep) in
                        let recept_app :=
                          _get_cached_reception chart translator (leg_target app) in
                        let hard_second_leg :=
                          bool_decide (leg_aspect app ∈ [SQUARE; OPPOSITION]) in
                        let anti_sep :=
                          bool_decide
                            (rec_type recept_sep
                             = Some "detriment_or_fall_against_translator"%string) in
                        let hostile :=
                          hard_second_leg && negb (mutual_truthy recept_app)
                          && negb (one_way_truthy recept_app) in
                        let favorable := negb hostile in
                        let challenges :=
                          (if hostile then ["hard_second_leg_no_reception"%string]
                           else [])
                          ++ (if anti_sep then ["anti_reception_first_leg"%string]
                              else []) in
                        let quality_tags :=
                          "translation"%string
                          :: (if hostile then ["hostile"%string] else []) in
                        let confidence :=
                          translation_of_light
                            (conf_perfection (cfg_confidence (config X))) in
                        let confidence :=
                          if favorable then confidence
                          else Zmax2 (confidence - 20) 20 in
                        [ {| event_type := TRANSLATION;
                             primary_pair := (querent, quesited);
                             mediator := Some translator;
                             aspect := None;
                             reception_data := Some reception_data;
                             exact_in_days := Some (leg_timing app);
                             favorable := favorable;
                             confidence := Some confidence;
                             reason :=
                               ("Translation by " ++ planet_value X translator)%string;
                             challenges := challenges;
                             quality_tags := quality_tags;
                             metadata :=
                               {[ "separation"%string := MLeg sep;
                                  "application"%string := MLeg app ]}
                          |} ]
                    end
              end
        else []
    | _, _ => []
    end.

Definition _detect_translation_events (chart : HoraryChart)
    (querent quesited : Planet) (window_days : Z) : list PerfectionEvent :=
  if decide (querent = quesited) then []
  else
    fold_left
      (fun events translator =>
         events ++ translation_step chart querent quesited window_days translator)
      [MOON; MERCURY; VENUS; MARS; JUPITER; SATURN] [].

Definition _is_valid_collector (chart : HoraryChart)
    (collector sig1 sig2 : Planet) : result bool :=
  collector_pos ← subscript chart collector;
  sig1_pos ← subscript chart sig1;
  sig2_pos ← subscript chart sig2;
  let collector_speed := Qabs (_get_daily_motion (Some collector_pos)) in
  let sig1_speed := Qabs (_get_daily_motion (Some sig1_pos)) in
  let sig2_speed := Qabs (_get_daily_motion (Some sig2_pos)) in
  Ok (Qltb collector_speed (py_min2 sig1_speed sig2_speed)).

(** One turn of the collector loop: the events it appends. *)
Definition collection_step (chart : HoraryChart)
    (querent quesited : Planet) (window_days : Z) (collector : Planet)
    : result (list PerfectionEvent) :=
  if bool_decide (collector = querent) || bool_decide (collector = quesited)
  then Ok []
  else
    valid ← _is_valid_collector chart collector querent quesited;
    if negb valid then Ok []
    else
      let querent_app := _find_applying_aspect chart querent collector window_days in
      let quesited_app := _find_applying_aspect chart quesited collector window_days in
      match querent_app, quesited_app with
      | Some qa, Some qe =>
          let collection_time := py_max2 (leg_timing qa) (leg_timing qe) in
          let abscission_found :=
            find_first
              (fun other =>
                 if bool_decide (other = collector)
                    || bool_decide (other = querent)
                    || bool_decide (other = quesited)
                 then None
                 else
                   match _find_applying_aspect chart other collector
                                               window_days with
                   | Some other_app =>
                       if Qltb 0 (leg_timing other_app)
                          && Qltb (leg_timing other_app) (collection_time - EPS)
                       then Some (other, other_app) else None
                   | None => None
                   end)
              classical in
          match abscission_found with
          | Some (other, other_app) =>
              Ok [ {| event_type := ABSCISSION;
                      primary_pair := (querent, quesited);
                      mediator := Some other;
                      aspect := Some (leg_aspect other_app);
                      reception_data := None;
                      exact_in_days := Some (leg_timing other_app);
                      favorable := false;
                      confidence := Some abscission_confidence;
                      reason :=
                        ("Abscission: " ++ planet_value X other
                         ++ " perfects with " ++ planet_value X collector
                         ++ " before collection completes")%string;
                      challenges := [];
                      quality_tags := [];
                      metadata :=
                        {[ "collector"%string := MPlanet collector;
                           "interceptor"%string := MPlanet other ]} |} ]
          | None =>
              let qa_next :=
                _find_earliest_application chart querent window_days ∅ in
              let qe_next :=
                _find_earliest_application chart quesited window_days ∅ in
              match qa_next, qe_next with
              | Some qan, Some qen =>
                  if bool_decide (leg_target qan = collector)
                     && bool_decide (leg_target qen = collector)
                  then
                    let reception_data :=
                      _get_cached_reception chart querent quesited in
                    let rec_q := _get_cached_reception chart collector querent in
                    let rec_e := _get_cached_reception chart collector quesited in
                    let both_received :=
                      one_way_truthy rec_q && one_way_truthy rec_e in
                    let favorable := both_received in
                    let confidence :=
                      collection_of_light
                        (conf_perfection (cfg_confidence (config X))) in
                    let confidence :=
                      if favorable then confidence
                      else Zmax2 (confidence - 15) 25 in
                    let challenges :=
                      if favorable then []
                      else ["weak_reception_to_collector"%string] in
                    Ok [ {| event_type := COLLECTION;
                            primary_pair := (querent, quesited);
                            mediator := Some collector;
                            aspect := None;
                            reception_data := Some reception_data;
                            exact_in_days := Some collection_time;
                            favorable := favorable;
                            confidence := Some confidence;
                            reason :=
                              ("Collection by " ++ planet_value X collector)%string;
                            challenges := challenges;
                            quality_tags := [];
                            metadata :=
                              {[ "querent_application"%string := MLeg qa;
                                 "quesited_application"%string := MLeg qe ]}
                         |} ]
                  else Ok []
              | _, _ => Ok []
              end
          end
      | _, _ => Ok []
      end.

Definition _detect_collection_events (chart : HoraryChart)
    (querent quesited : Planet) (window_days : Z)
    : result (list PerfectionEvent) :=
  if decide (querent = quesited) then Ok []
  else
    fold_left
      (fun acc collector =>
         events ← acc;
         new ← collection_step chart querent quesited window_days collector;
         Ok (events ++ new))
      classical (Ok []).

Definition _detect_prohibition_events (chart : HoraryChart)
    (querent quesited : Planet) (window_days : Z)
    (earliest_positive_time : option Q) : list PerfectionEvent :=
  let app_q_to_e := _find_applying_aspect chart querent quesited window_days in
  let app_e_to_q := _find_applying_aspect chart quesited querent window_days in
  let route :=
    match app_q_to_e, app_e_to_q with
    | None, None => None
    | Some q, None => Some (querent, quesited, leg_timing q)
    | Some q, Some e =>
        if Qleb (leg_timing q) (leg_timing e)
        then Some (querent, quesited, leg_timing q)
        else Some (quesited, querent, leg_timing e)
    | None, Some e => Some (quesited, querent, leg_timing e)
    end in
  match route with
  | None => []
  | Some (applier, receiver, t_direct) =>
      let threshold :=
        match earliest_positive_time with
        | Some ept => if Qltb ept t_direct then ept else t_direct
        | None => t_direct
        end in
      fold_left
        (fun events p =>
           if bool_decide (p = querent) || bool_decide (p = quesited) then events
           else
             match _find_applying_aspect chart p receiver window_days with
             | None => events
             | Some app =>
                 if negb (Qltb 0 (leg_timing app)
                          && Qltb (leg_timing app) (threshold - EPS))
                 then events
                 else if Qleb (Qabs (_get_daily_motion (planets chart !! p)))
                              (Qabs (_get_daily_motion (planets chart !! receiver)))
                 then events
                 else
                   let nxt :=
                     _find_earliest_application chart p window_days {[ receiver ]} in
                   let chained :=
                     match nxt with
                     | Some n =>
                         Qleb (Qabs (leg_timing n - leg_timing app)) EPS
                         && bool_decide (leg_target n = applier)
                     | None => false
                     end in
                   if chained then events
                   else
                     events ++
                     [ {| event_type := PROHIBITION;
                          primary_pair := (querent, quesited);
                          mediator := Some p;
                          aspect := Some (leg_aspect app);
                          reception_data := None;
                          exact_in_days := Some (leg_timing app);
                          favorable := false;
                          confidence := None;
                          reason :=
                            format_prohibition_reason X chart p receiver
                              (leg_aspect app) (leg_timing app) (Some t_direct);
                          challenges := [];
                          quality_tags := [];
                          metadata :=
                            {[ "target"%string := MPlanet receiver;
                               "preempts_in_days"%string := MNum threshold ]} |} ]
             end)
        classical []
  end.

Definition _will_station_before (chart : HoraryChart) (planet : Planet)
    (days : Q) : bool :=
  match planets chart !! planet with
  | None => false
  | Some pos =>
      let current_speed := _get_daily_motion (Some pos) in
      if Qleb current_speed 0 then false
      else if negb (bool_decide
                      (planet ∈ [MERCURY; VENUS; MARS; JUPITER; SATURN]))
      then false
      else if Qltb (Qabs current_speed) (1 # 10) then true
      else false
  end.

Definition refranation_event (querent quesited refraning : Planet)
    (aspect : Aspect) (timing : Q) : PerfectionEvent :=
  {| event_type := REFRANATION;
     primary_pair := (querent, quesited);
     mediator := None;
     aspect := Some aspect;
     reception_data := None;
     exact_in_days := Some timing;
     favorable := false;
     confidence := Some (refranation (conf_denial (cfg_confidence (config X))));
     reason :=
       ("Refranation: " ++ planet_value X refraning
        ++ " turns retrograde before " ++ display_name X aspect)%string;
     challenges := [];
     quality_tags := [];
     metadata := {[ "refraning_planet"%string := MPlanet refraning ]} |}.

Definition _detect_abscission_events (chart : HoraryChart)
    (querent quesited : Planet) (window_days : Z) : list PerfectionEvent :=
  match _current_direct_route chart querent quesited window_days with
  | None => []
  | Some route =>
      let applier := route_applier route in
      let receiver := route_receiver route in
      let t_direct := route_timing route in
      fold_left
        (fun events p =>
           if bool_decide (p = querent) || bool_decide (p = quesited) then events
           else
             match _find_applying_aspect chart p applier window_days with
             | None => events
             | Some app =>
                 if negb (Qltb 0 (leg_timing app)
                          && Qltb (leg_timing app) (t_direct - EPS))
                 then events
                 else if Qleb (Qabs (_get_daily_motion (planets chart !! p)))
                              (Qabs (_get_daily_motion (planets chart !! applier)))
                 then events
                 else
                   let nxt :=
                     _find_earliest_application chart p window_days {[ applier ]} in
                   let chained :=
                     match nxt with
                     | Some n =>
                         Qleb (Qabs (leg_timing n - leg_timing app)) EPS
                         && bool_decide (leg_target n = receiver)
                     | None => false
                     end in
                   if chained then events
                   else
                     events ++
                     [ {| event_type := ABSCISSION;
                          primary_pair := (querent, quesited);
                          mediator := Some p;
                          aspect := Some (leg_aspect app);
                          reception_data := None;
                          exact_in_days := Some (leg_timing app);
                          favorable := false;
                          confidence := Some abscission_confidence;
                          reason :=
                            ("Abscission: " ++ planet_value X p
                             ++ " takes light from " ++ planet_value X applier
                             ++ " before it reaches "
                             ++ planet_value X receiver)%string;
                          challenges := [];
                          quality_tags := [];
                          metadata :=
                            {[ "applier"%string := MPlanet applier;
                               "receiver"%string := MPlanet receiver;
                               "interceptor"%string := MPlanet p ]} |} ]
             end)
        classical []
  end.

Definition _detect_frustration_events (chart : HoraryChart)
    (querent quesited : Planet) (window_days : Z) : list PerfectionEvent :=
  match _current_direct_route chart querent quesited window_days with
  | None => []
  | Some route =>
      let applier := route_applier route in
      let receiver := route_receiver route in
      let t_direct := route_timing route in
      match _find_earliest_application chart applier window_days ∅ with
      | None => []
      | Some nxt =>
          if bool_decide (leg_target nxt = receiver)
             || Qgeb (leg_timing nxt) (t_direct - EPS)
          then []
          else
            let chain :=
              _find_applying_aspect chart (leg_target nxt) receiver window_days in
            let chained :=
              match chain with
              | Some c =>
                  Qltb 0 (leg_timing c)
                  && Qleb (leg_timing c) (leg_timing nxt + EPS)
              | None => false
              end in
            if chained then []
            else
              [ {| event_type := FRUSTRATION;
                   primary_pair := (querent, quesited);
                   mediator := Some (leg_target nxt);
                   aspect := Some (leg_aspect nxt);
                   reception_data := None;
                   exact_in_days := Some (leg_timing nxt);
                   favorable := false;
                   confidence :=
                     Some (default 65
                             (frustration (conf_denial (cfg_confidence (config X)))));
                   reason :=
                     ("Frustration: applier " ++ planet_value X applier
                      ++ " perfects with " ++ planet_value X (leg_target nxt)
                      ++ " before reaching " ++ planet_value X receiver)%string;
                   challenges := [];
                   quality_tags := [];
                   metadata :=
                     {[ "applier"%string := MPlanet applier;
                        "receiver"%string := MPlanet receiver ]} |} ]
      end
  end.

Definition _detect_denial_events (chart : HoraryChart)
    (querent quesited : Planet) (window_days : Z)
    : result (list PerfectionEvent) :=
  events ←
    fold_left
      (fun acc aspect =>
         events ← acc;
         match TimingKernel.when_exact_in_days X querent quesited aspect chart with
         | Some timing =>
             if truthy (Some timing) then
               querent_pos ← subscript chart querent;
               quesited_pos ← subscript chart quesited;
               let events :=
                 if Qgtb (_get_daily_motion (Some querent_pos)) 0
                    && _will_station_before chart querent timing
                 then events ++ [refranation_event querent quesited querent
                                                   aspect timing]
                 else events in
               let events :=
                 if Qgtb (_get_daily_motion (Some quesited_pos)) 0
                    && _will_station_before chart quesited timing
                 then events ++ [refranation_event querent quesited quesited
                                                   aspect timing]
                 else events in
               Ok events
             else Ok events
         | None => Ok events
         end)
      all_aspects (Ok []);
  Ok (events
        ++ _detect_abscission_events chart querent quesited window_days
        ++ _detect_frustration_events chart querent quesited window_days).

Definition house_placement_event (querent quesited : Planet)
    (reason : string) (placement_type : string) : PerfectionEvent :=
  {| event_type := HOUSE_PLACEMENT;
     primary_pair := (querent, quesited);
     mediator := None;
     aspect := None;
     reception_data := None;
     exact_in_days := Some 0%Q;
     favorable := true;
     confidence := Some 75;
     reason := reason;
     challenges := [];
     quality_tags := [];
     metadata := {[ "placement_type"%string := MStr placement_type ]} |}.

Definition in_house (pos : option PlanetPosition) (h : Z) : bool :=
  match pos with
  | Some p => bool_decide (house p = Some h)
  | None => false
  end.

Definition _detect_house_placement_events (chart : HoraryChart)
    (querent quesited : Planet) : list PerfectionEvent :=
  match significators chart with
  | None => []
  | Some sigs =>
      if decide (sigs = ∅) then []
      else
        let querent_house := default 1 (sigs !! "querent_house"%string) in
        let quesited_house := default 7 (sigs !! "quesited_house"%string) in
        (if in_house (planets chart !! querent) quesited_house
         then [house_placement_event querent quesited
                 (planet_value X querent ++ " placed in " ++ pretty quesited_house
                  ++ "th house (quesited's house)")%string
                 "querent_in_quesited_house"]
         else [])
        ++
        (if in_house (planets chart !! quesited) querent_house
         then [house_placement_event querent quesited
                 (planet_value X quesited ++ " placed in " ++ pretty querent_house
                  ++ "st house (querent's house)")%string
                 "quesited_in_querent_house"]
         else [])
  end.

(** The [else] branch of the de-duplication loop: the first stored event
    with the same key is overwritten when the newcomer carries more
    metadata. *)
Definition replace_duplicate (event : PerfectionEvent)
    (unique_events : list PerfectionEvent) : list PerfectionEvent :=
  match list_find (fun existing => event_key existing = event_key event)
                  unique_events with
  | Some (i, existing) =>
      if (size (metadata existing) <? size (metadata event))%nat
      then <[ i := event ]> unique_events
      else unique_events
  | None => unique_events
  end.

Definition dedup_step (st : gset EventKey * list PerfectionEvent)
    (event : PerfectionEvent) : gset EventKey * list PerfectionEvent :=
  let '(seen_keys, unique_events) := st in
  if decide (event_key event ∈ seen_keys)
  then (seen_keys, replace_duplicate event unique_events)
  else ({[ event_key event ]} ∪ seen_keys, unique_events ++ [event]).

Definition _deduplicate_events (events : list PerfectionEvent)
    : list PerfectionEvent :=
  snd (fold_left dedup_step events (∅, [])).

Definition is_blocking (e : PerfectionEvent) : bool :=
  bool_decide (event_type e ∈ [PROHIBITION; ABSCISSION; REFRANATION; FRUSTRATION]).

Definition _deconflict_same_time (events : list PerfectionEvent) (eps : Q)
    : list PerfectionEvent :=
  let positives :=
    List.filter
      (fun e => is_positive e
                && match exact_in_days e with Some _ => true | None => false end)
      events in
  let coincides_with_positive (e : PerfectionEvent) : bool :=
    match exact_in_days e with
    | None => false
    | Some t =>
        existsb (fun p => Qleb (Qabs (or_zero (exact_in_days p) - t)) eps)
                positives
    end in
  List.filter (fun e => negb (is_blocking e && coincides_with_positive e))
              events.

Definition type_priority (t : EventType) : Z :=
  match t with
  | DIRECT => 0
  | DIRECT_PENALIZED => 1
  | TRANSLATION => 2
  | COLLECTION => 3
  | PROHIBITION => 4
  | COMBUSTION_VETO => 5
  | HOUSE_PLACEMENT => 6
  | REFRANATION => 7
  | FRUSTRATION => 8
  | ABSCISSION => 9
  end.

Definition sort_key (event : PerfectionEvent) : Qinf * Z * nat :=
  let timing := or_inf (exact_in_days event) in
  let challenge_count := length (challenges event) in
  (timing, type_priority (event_type event), challenge_count).

(** Python's ordering of the key tuples. *)
Definition sort_key_ltb (a b : Qinf * Z * nat) : bool :=
  let '(t1, p1, c1) := a in
  let '(t2, p2, c2) := b in
  Qinf_ltb t1 t2
  || (Qinf_eqb t1 t2 && ((p1 <? p2) || ((p1 =? p2) && (c1 <? c2)%nat))).

(** [sorted(events, key=sort_key)] is stable: an event is placed before
    the first event whose key is not smaller than its own. *)
Fixpoint insert_by_key (x : PerfectionEvent) (l : list PerfectionEvent)
    : list PerfectionEvent :=
  match l with
  | [] => [x]
  | y :: l' =>
      if sort_key_ltb (sort_key y) (sort_key x)
      then y :: insert_by_key x l'
      else x :: y :: l'
  end.

Definition _sort_events_by_priority (events : list PerfectionEvent)
    : list PerfectionEvent :=
  foldr insert_by_key [] events.

Definition identity_event (querent quesited : Planet) : PerfectionEvent :=
  {| event_type := DIRECT;
     primary_pair := (querent, quesited);
     mediator := None;
     aspect := Some CONJUNCTION;
     reception_data := None;
     exact_in_days := Some 0%Q;
     favorable := true;
     confidence :=
       Some (default 80 (same_ruler (conf_perfection (cfg_confidence (config X)))));
     reason :=
       "Same planet rules both significators — unity of matter & querent";
     challenges := [];
     quality_tags := [];
     metadata := ∅ |}.

Definition detect_all_events (chart : HoraryChart)
    (querent quesited : Planet) (window_days : Z)
    : result (list PerfectionEvent) :=
  if decide (querent = quesited) then
    let events := _detect_house_placement_events chart querent quesited in
    let events := events ++ [identity_event querent quesited] in
    Ok (_sort_events_by_priority (_deduplicate_events events))
  else
    direct_events ← _detect_direct_events chart querent quesited window_days;
    let events := direct_events in
    let house_events := _detect_house_placement_events chart querent quesited in
    let events := events ++ house_events in
    let translation_events :=
      _detect_translation_events chart querent quesited window_days in
    let events := events ++ translation_events in
    collection_events ←
      _detect_collection_events chart querent quesited window_days;
    let events := events ++ collection_events in
    let earliest_positive_time :=
      py_min Qltb id
        (omap (fun e => if is_positive e then exact_in_days e else None) events) in
    let events :=
      events ++ _detect_prohibition_events chart querent quesited window_days
                                           earliest_positive_time in
    denial_events ← _detect_denial_events chart querent quesited window_days;
    let events := events ++ denial_events in
    let events := _deduplicate_events events in
    let events := _deconflict_same_time events EPS in
    let events := _sort_events_by_priority events in
    Ok events.

End detector.
End EventDetector.

(** ** PerfectionChooser *)

Module PerfectionChooser.

(** The key [(e.exact_in_days is None, e.exact_in_days or float('inf'))]
    and Python's ordering of such pairs. *)
Definition earliest_key (e : PerfectionEvent) : bool * Qinf :=
  (match exact_in_days e with None => true | Some _ => false end,
   or_inf (exact_in_days e)).

Definition earliest_key_ltb (a b : bool * Qinf) : bool :=
  let '(n1, t1) := a in
  let '(n2, t2) := b in
  (negb n1 && n2) || (Bool.eqb n1 n2 && Qinf_ltb t1 t2).

Definition earliest (l : list PerfectionEvent) : option PerfectionEvent :=
  py_min earliest_key_ltb earliest_key l.

Definition is_prohibition (e : PerfectionEvent) : bool :=
  bool_decide (event_type e = PROHIBITION).

Definition is_denial (e : PerfectionEvent) : bool :=
  bool_decide (event_type e ∈ [REFRANATION; FRUSTRATION; ABSCISSION]).

Definition select_primary_perfection (events : list PerfectionEvent)
    : option PerfectionEvent :=
  match events with
  | [] => None
  | _ :: _ =>
      let positives := List.filter is_positive events in
      let prohibitions := List.filter is_prohibition events in
      let denials := List.filter is_denial events in
      let earliest_pos := earliest positives in
      let earliest_proh := earliest prohibitions in
      let earliest_den := earliest denials in
      let preempts :=
        match earliest_proh with
        | None => false
        | Some proh =>
            match earliest_pos with
            | None => true
            | Some pos =>
                Qinf_ltb (or_inf (exact_in_days proh))
                         (or_inf (exact_in_days pos))
            end
        end in
      if preempts then earliest_proh
      else
        match earliest_pos with
        | Some _ => earliest_pos
        | None =>
            match earliest_den with
            | Some _ => earliest_den
            | None => earliest events
            end
        end
  end.

End PerfectionChooser.

(** Equality of events as the dataclass [__eq__] decides it: field by field,
    floats compared by value. *)
Module EventEq.

Definition optQ_eqb (a b : option Q) : bool :=
  match a, b with
  | Some x, Some y => Qeq_bool x y
  | None, None => true
  | _, _ => false
  end.

#[global] Instance LegKind_eq_dec : EqDecision LegKind.
Proof. solve_decision. Defined.
#[global] Instance Reception_eq_dec : EqDecision Reception.
Proof. solve_decision. Defined.

Definition leg_eqb (a b : Leg) : bool :=
  bool_decide (leg_aspect a = leg_aspect b)
  && Qeq_bool (leg_timing a) (leg_timing b)
  && bool_decide (leg_kind a = leg_kind b)
  && bool_decide (leg_target a = leg_target b).

Definition meta_eqb (a b : MetaValue) : bool :=
  match a, b with
  | MPlanet p, MPlanet q => bool_decide (p = q)
  | MLeg l, MLeg m => leg_eqb l m
  | MNum x, MNum y => Qeq_bool x y
  | MStr s, MStr t => String.eqb s t
  | _, _ => false
  end.

Fixpoint entries_eqb (a b : list (string * MetaValue)) : bool :=
  match a, b with
  | [], [] => true
  | (k, v) :: a', (k', v') :: b' =>
      String.eqb k k' && meta_eqb v v' && entries_eqb a' b'
  | _, _ => false
  end.

Definition event_eqb (a b : PerfectionEvent) : bool :=
  bool_decide (event_type a = event_type b)
  && bool_decide (primary_pair a = primary_pair b)
  && bool_decide (mediator a = mediator b)
  && bool_decide (aspect a = aspect b)
  && bool_decide (reception_data a = reception_data b)
  && optQ_eqb (exact_in_days a) (exact_in_days b)
  && Bool.eqb (favorable a) (favorable b)
  && bool_decide (confidence a = confidence b)
  && String.eqb (reason a) (reason b)
  && bool_decide (challenges a = challenges b)
  && bool_decide (quality_tags a = quality_tags b)
  && entries_eqb (map_to_list (metadata a)) (map_to_list (metadata b)).

End EventEq.

Module PerfectionChooserSecondary.

Definition select_secondary_perfection (events : list PerfectionEvent)
    (primary : PerfectionEvent) : option PerfectionEvent :=
  let remaining :=
    List.filter (fun e => negb (EventEq.event_eqb e primary)) events in
  let gap (event : PerfectionEvent) : Q :=
    Qabs (or_zero (exact_in_days event) - or_zero (exact_in_days primary)) in
  find_first
    (fun event =>
       if Qleb (gap event) EPS then None
       else if negb (bool_decide (event_type event = event_type primary))
               || Qgtb (gap event) 3
       then Some event
       else None)
    remaining.

End PerfectionChooserSecondary.

(** ** PerfectionCoreAPI *)

Record Perfections := {
  events : list PerfectionEvent;
  primary : option PerfectionEvent;
  secondary : option PerfectionEvent
}.

Module PerfectionCoreAPI.
Section api.
Context (X : Externals).

(** The position line of the debug output: [getattr(pos, 'longitude',
    'N/A')] and [getattr(pos, 'speed', 'N/A')] are rendered with a float
    format, which raises [ValueError] on the string ['N/A']; the line is
    printed only when the chart places both bodies. *)
Definition position_line (pos : PlanetPosition) : result unit :=
  match longitude pos, speed pos with
  | Some _, Some _ => Ok ()
  | _, _ => Raise ValueError
  end.

Definition print_positions (chart : HoraryChart) (querent quesited : Planet)
    : result unit :=
  match planets chart !! querent, planets chart !! quesited with
  | Some q_pos, Some qe_pos =>
      _ ← position_line q_pos;
      position_line qe_pos
  | _, _ => Ok ()
  end.

(** The batch precomputation of receptions only fills the memo table and
    swallows its own failures; the payload below keeps the events and the
    two selections, of which the rendered dictionaries are projections. *)
Definition find_perfections (chart : HoraryChart)
    (querent quesited : Planet) (window_days : Z) : result Perfections :=
  _ ← print_positions chart querent quesited;
  all_events ← EventDetector.detect_all_events X chart querent quesited window_days;
  let primary := PerfectionChooser.select_primary_perfection all_events in
  let secondary :=
    match primary with
    | Some p =>
        PerfectionChooserSecondary.select_secondary_perfection all_events p
    | None => None
    end in
  Ok {| events := all_events; primary := primary; secondary := secondary |}.

End api.
End PerfectionCoreAPI.

(** The events a detection step hands back; none when it raises. *)
Definition produced (r : result (list PerfectionEvent)) : list PerfectionEvent :=
  match r with
  | Ok l => l
  | Raise _ => []
  end.

(** ** Worked inputs *)

Module Sample.

(** Modelled from the spec: [calculation/helpers.py] is not part of the
    sources.  The days until a body leaves its current 30-degree sign at
    its present rate; a body at rest never leaves. *)
Definition days_to_sign_exit_model (lon spd : Q) : option Q :=
  let within := pymod lon 30 in
  if Qeq_bool spd 0 then None
  else if Qltb 0 spd then Some ((30 - within) / spd)%Q
  else Some (within / (- spd))%Q.

Definition sample_config : Config :=
  {| allow_out_of_sign_hits := None;
     cfg_perfection := None;
     cfg_confidence :=
       {| conf_perfection :=
            {| same_ruler := None; direct_basic := 80;
               hard_square_penalty := None; hard_opposition_penalty := None;
               translation_of_light := 75; collection_of_light := 70 |};
          conf_reception :=
            {| mutual_rulership_bonus := None;
               mutual_exaltation_bonus := None |};
          conf_denial :=
            {| abscission := None; frustration := None; refranation := 70 |} |};
     cfg_translation :=
       {| require_speed_advantage := None;
          max_separation_deg := Some 10%Q;
          max_application_deg := Some 15%Q |};
     translation_max_lookback_days := None |}.

Definition no_reception : Reception :=
  {| rec_type := Some "none"%string;
     rec_mutual := Some "none"%string;
     rec_one_way := [] |}.

Definition value_of (p : Planet) : string :=
  match p with
  | SUN => "Sun" | MOON => "Moon" | MERCURY => "Mercury" | VENUS => "Venus"
  | MARS => "Mars" | JUPITER => "Jupiter" | SATURN => "Saturn"
  end.

Definition name_of (a : Aspect) : string :=
  match a with
  | CONJUNCTION => "Conjunction" | SEXTILE => "Sextile" | SQUARE => "Square"
  | TRINE => "Trine" | OPPOSITION => "Opposition"
  end.

Definition sample_externals : Externals :=
  {| config := sample_config;
     days_to_sign_exit := days_to_sign_exit_model;
     calculate_comprehensive_reception := fun _ _ _ => no_reception;
     planet_value := value_of;
     display_name := name_of;
     format_prohibition_reason := fun _ _ _ _ _ _ => "Prohibition"%string |}.

(** A position with a longitude and a daily motion (also stored as
    [speed], as the chart builder does). *)
Definition at_pos (lon rate : Q) (h : Z) : PlanetPosition :=
  {| longitude := Some lon; daily_motion := Some rate; speed := Some rate;
     house := Some h; solar_condition := None |}.

(** A bare event of a given family and timing. *)
Definition bare (ty : EventType) (t : option Q) : PerfectionEvent :=
  {| event_type := ty;
     primary_pair := (MERCURY, VENUS);
     mediator := None;
     aspect := None;
     reception_data := None;
     exact_in_days := t;
     favorable := true;
     confidence := None;
     reason := "";
     challenges := [];
     quality_tags := [];
     metadata := ∅ |}.

(** The same event with one metadata entry. *)
Definition tagged (ty : EventType) (t : option Q) : PerfectionEvent :=
  {| event_type := ty;
     primary_pair := (MERCURY, VENUS);
     mediator := None;
     aspect := None;
     reception_data := None;
     exact_in_days := t;
     favorable := true;
     confidence := None;
     reason := "";
     challenges := [];
     quality_tags := [];
     metadata := {[ "placement_type"%string := MStr "querent_in_quesited_house" ]} |}.

(** Sun and Moon only: the Moon reaches the Sun in two days, the Sun
    leaves its sign in one. *)
Definition chart_sign_exit : HoraryChart :=
  {| planets := {[ SUN := at_pos 29 1 1; MOON := at_pos 5 13 1 ]};
     significators := None |}.

(** Sun and Moon only: the Moon reaches the Sun in five twelfths of a day. *)
Definition chart_new_moon : HoraryChart :=
  {| planets := {[ SUN := at_pos 10 1 1; MOON := at_pos 5 13 1 ]};
     significators := None |}.

(** The Moon has left the conjunction of Mars by [arc] degrees, at a
    relative rate of eleven degrees a day, and applies to Jupiter. *)
Definition chart_translation (arc : Q) : HoraryChart :=
  {| planets := {[ MOON := at_pos (100 + arc) 12 4;
                   MARS := at_pos 100 1 4;
                   JUPITER := at_pos 115 (1 # 10) 4 ]};
     significators := None |}.

(** Mercury left the conjunction of Saturn [lon - 100] days ago (their
    relative rate is one degree a day) and applies to Jupiter. *)
Definition chart_lookback (lon : Q) : HoraryChart :=
  {| planets := {[ MERCURY := at_pos lon (11 # 10) 4;
                   SATURN := at_pos 100 (1 # 10) 4;
                   JUPITER := at_pos 110 (2 # 10) 4 ]};
     significators := None |}.

(** A full chart in which Mercury and Venus both apply to the slower
    Jupiter, and Venus sits in the querent's house. *)
Definition chart_collection : HoraryChart :=
  {| planets := {[ SUN := at_pos 170 1 6; MOON := at_pos 260 13 9;
                   MERCURY := at_pos 10 (3 # 2) 1; VENUS := at_pos 12 (6 # 5) 1;
                   MARS := at_pos 200 (3 # 5) 7; JUPITER := at_pos 15 (1 # 10) 1;
                   SATURN := at_pos 300 (1 # 20) 11 ]};
     significators :=
       Some {[ "querent_house"%string := 1; "quesited_house"%string := 7 ]} |}.

(** A chart without the Sun; the six other bodies are in place. *)
Definition chart_no_sun : HoraryChart :=
  {| planets := {[ MOON := at_pos 5 13 1; MERCURY := at_pos 40 1 2;
                   VENUS := at_pos 70 1 3; MARS := at_pos 100 (1 # 2) 4;
                   JUPITER := at_pos 200 (1 # 10) 7;
                   SATURN := at_pos 300 (1 # 20) 10 ]};
     significators := None |}.

(** The events the detector finds in [chart_collection],
    [chart_lookback 104] and [chart_translation 11]. *)
Definition collection_event : PerfectionEvent :=
  default (bare COLLECTION None)
    (head (produced (EventDetector._detect_collection_events
                       sample_externals chart_collection MERCURY VENUS 30))).

Definition lookback_event : PerfectionEvent :=
  default (bare TRANSLATION None)
    (head (EventDetector._detect_translation_events
             sample_externals (chart_lookback 104) SATURN JUPITER 30)).

End Sample.

(** ** Positions with one rate attribute, or with two that differ *)

(** A position that carries [daily_motion] and no [speed], as
    [SimpleNamespace(daily_motion=1.0)] in the tests of the repository. *)
Definition motion_only (lon rate : Q) : PlanetPosition :=
  {| longitude := Some lon; daily_motion := Some rate; speed := None;
     house := None; solar_condition := None |}.

(** A position whose [speed] differs from its [daily_motion], as
    [DummyPos(daily_motion=1.2, speed=2.3)] in the tests. *)
Definition two_rates (lon rate spd : Q) : PlanetPosition :=
  {| longitude := Some lon; daily_motion := Some rate; speed := Some spd;
     house := None; solar_condition := None |}.

(** The geometry of [Sample.chart_sign_exit]: the Moon reaches the Sun in
    two days, the Sun leaves its sign in one. *)
Definition chart_motion_only : HoraryChart :=
  {| planets := {[ SUN := motion_only 29 1; MOON := motion_only 5 13 ]};
     significators := None |}.

Definition chart_two_rates : HoraryChart :=
  {| planets := {[ SUN := two_rates 29 1 (1 # 10);
                   MOON := two_rates 5 13 1 ]};
     significators := None |}.

(** ** Vocabulary of the statements *)

(** The events of a list that carry a given key, resp. a given family. *)
Definition with_key (k : EventKey) (l : list PerfectionEvent)
    : list PerfectionEvent :=
  List.filter (fun e => bool_decide (event_key e = k)) l.

Definition of_type (ty : EventType) (l : list PerfectionEvent)
    : list PerfectionEvent :=
  List.filter (fun e => bool_decide (event_type e = ty)) l.

(** Of two duplicates, the one with more metadata entries; the earlier one
    on a tie. *)
Definition richer (cur e : PerfectionEvent) : PerfectionEvent :=
  if (size (metadata cur) <? size (metadata e))%nat then e else cur.

(** The absolute angular rate of a body of the chart. *)
Definition abs_rate (chart : HoraryChart) (p : Planet) : Q :=
  Qabs (EventDetector._get_daily_motion (planets chart !! p)).

(** The arc a separating leg has opened since it was exact: its look-back
    time at the relative rate of the two bodies.  This is the quantity a
    degree limit on the separation leg would bound. *)
Definition separation_degrees (chart : HoraryChart) (planet1 planet2 : Planet)
    (leg : Leg) : Q :=
  (- leg_timing leg
   * Qabs (EventDetector._get_daily_motion (planets chart !! planet2)
           - EventDetector._get_daily_motion (planets chart !! planet1)))%Q.

(** The look-back bound of the translation rule, in days. *)
Definition max_lookback (X : Externals) : Q :=
  default 7%Q (translation_max_lookback_days (config X)).

(** The same collaborators with other degree limits configured. *)
Definition with_degree_limits (X : Externals) (sep_deg app_deg : option Q)
    : Externals :=
  {| config :=
       {| allow_out_of_sign_hits := allow_out_of_sign_hits (config X);
          cfg_perfection := cfg_perfection (config X);
          cfg_confidence := cfg_confidence (config X);
          cfg_translation :=
            {| require_speed_advantage :=
                 require_speed_advantage (cfg_translation (config X));
               max_separation_deg := sep_deg;
               max_application_deg := app_deg |};
          translation_max_lookback_days :=
            translation_max_lookback_days (config X) |};
     days_to_sign_exit := days_to_sign_exit X;
     calculate_comprehensive_reception := calculate_comprehensive_reception X;
     planet_value := planet_value X;
     display_name := display_name X;
     format_prohibition_reason := format_prohibition_reason X |}.

(** The loop invariant: [seen_keys] holds exactly the keys of the stored
    events, and no key is stored twice. *)
Definition dedup_inv (st : gset EventKey * list PerfectionEvent) : Prop :=
  forall k, (k ∈ st.1 <-> with_key k st.2 <> [])
            /\ (length (with_key k st.2) <= 1)%nat.

(** What the slot of key [k] holds after one more event. *)
Definition merge_slot (k : EventKey) (slot : option PerfectionEvent)
    (e : PerfectionEvent) : option PerfectionEvent :=
  if decide (event_key e = k) then
    match slot with
    | None => Some e
    | Some cur => Some (richer cur e)
    end
  else slot.

(** The longitude of a body [t] days on, at its present daily motion. *)
Definition lon_at (pos : PlanetPosition) (t : Q) : Q :=
  (default 0%Q (longitude pos)
   + TimingKernel._get_daily_motion (Some pos) * t)%Q.

(** An aspect that completes, strictly in the future, within the window. *)
Definition applies_within (X : Externals) (chart : HoraryChart)
    (planet1 planet2 : Planet) (window_days : Z) (asp : Aspect) (t : Q) : Prop :=
  TimingKernel.when_exact_in_days X planet1 planet2 asp chart = Some t
  /\ (0 < t)%Q /\ (t <= inject_Z window_days)%Q.

(** What the loop of [_find_applying_aspect] holds in [best] after the
    aspects [seen]. *)
Definition applying_best (X : Externals) (chart : HoraryChart)
    (planet1 planet2 : Planet) (window_days : Z) (seen : list Aspect)
    (best : option Leg) : Prop :=
  match best with
  | Some leg =>
      applies_within X chart planet1 planet2 window_days
        (leg_aspect leg) (leg_timing leg)
      /\ leg_target leg = planet2 /\ leg_kind leg = Applying
      /\ leg_aspect leg ∈ seen
      /\ forall asp t,
           asp ∈ seen ->
           applies_within X chart planet1 planet2 window_days asp t ->
           (leg_timing leg <= t)%Q
  | None =>
      forall asp t,
        asp ∈ seen ->
        ~ applies_within X chart planet1 planet2 window_days asp t
  end.

(** The shape shared by the "keep the earliest" loops: an element yields a
    candidate or nothing, and a candidate replaces the best so far when it
    is strictly earlier. *)
Definition earliest_step {A C B : Type} (cand : A -> option C) (time : C -> Q)
    (mk : A -> C -> B) (btime : B -> Q) (best : option B) (a : A) : option B :=
  match cand a with
  | Some c =>
      match best with
      | None => Some (mk a c)
      | Some b => if Qltb (time c) (btime b) then Some (mk a c) else best
      end
  | None => best
  end.

(** [x] may stand before [y] in a sorted list: the key of [y] is not
    strictly smaller than the key of [x]. *)
Definition key_not_after (x y : PerfectionEvent) : Prop :=
  EventDetector.sort_key_ltb (EventDetector.sort_key y)
                             (EventDetector.sort_key x) = false.

(** The order of Python on the sort keys, as propositions. *)
Definition Qinf_lt (a b : Qinf) : Prop :=
  match a, b with
  | Fin x, Fin y => (x < y)%Q
  | Fin _, PInf => True
  | PInf, _ => False
  end.

Definition Qinf_eq (a b : Qinf) : Prop :=
  match a, b with
  | Fin x, Fin y => (x == y)%Q
  | PInf, PInf => True
  | _, _ => False
  end.

Definition key_lt (a b : Qinf * Z * nat) : Prop :=
  let '(t1, p1, c1) := a in
  let '(t2, p2, c2) := b in
  Qinf_lt t1 t2
  \/ (Qinf_eq t1 t2 /\ (p1 < p2 \/ (p1 = p2 /\ (c1 < c2)%nat))).

(** The timing of an event on the extended line: absent means never. *)
Definition timing_inf (e : PerfectionEvent) : Qinf :=
  match exact_in_days e with
  | Some t => Fin t
  | None => PInf
  end.

(** An event whose timing, when present, is not zero. *)
Definition nonzero_timing (e : PerfectionEvent) : Prop :=
  forall t, exact_in_days e = Some t -> ~ (t == 0)%Q.

(** A chart that places all seven classical bodies, each with a longitude
    and a speed, none with a [solar_condition] that holds [None]. *)
Definition complete_chart (chart : HoraryChart) : Prop :=
  forall p : Planet,
    exists pos,
      planets chart !! p = Some pos
      /\ is_Some (longitude pos) /\ is_Some (speed pos)
      /\ solar_condition pos <> Some None.

(** The families that deny or block, and the families that rest on a third
    body. *)
Definition is_adverse (e : PerfectionEvent) : bool :=
  bool_decide (event_type e ∈ [PROHIBITION; ABSCISSION; REFRANATION;
                               FRUSTRATION; COMBUSTION_VETO]).

Definition is_third_body (e : PerfectionEvent) : bool :=
  bool_decide (event_type e ∈ [TRANSLATION; COLLECTION; PROHIBITION;
                               ABSCISSION; FRUSTRATION]).

(** What every event of a detection for the pair [(querent, quesited)]
    satisfies. *)
Definition well_formed (querent quesited : Planet) (e : PerfectionEvent)
    : Prop :=
  primary_pair e = (querent, quesited)
  /\ (exists t, exact_in_days e = Some t /\ (0 <= t)%Q)
  /\ (is_adverse e = true -> favorable e = false)
  /\ (is_third_body e = true ->
      exists m, mediator e = Some m /\ m <> querent /\ m <> quesited).

(** Mars applies to a square of Saturn in 7.3 days; Venus reaches her
    trine of Saturn in 1.7 days. *)
Definition chart_prohibition : HoraryChart :=
  {| planets :=
       {[ SUN := Sample.at_pos 150 1 6; MOON := Sample.at_pos 20 13 12;
          MERCURY := Sample.at_pos 140 (3 # 2) 1;
          VENUS := Sample.at_pos 72 (6 # 5) 1;
          MARS := Sample.at_pos 100 (3 # 5) 7;
          JUPITER := Sample.at_pos 250 (1 # 10) 1;
          SATURN := Sample.at_pos 194 (1 # 20) 11 ]};
     significators := None |}.

(** The Sun is one of the two bodies and the other one is combust. *)
Definition combust_by_sun (chart : HoraryChart) (querent quesited : Planet)
    : Prop :=
  (querent = SUN \/ quesited = SUN)
  /\ exists pos,
       planets chart !! (if decide (querent = SUN) then quesited else querent)
       = Some pos
       /\ solar_condition pos = Some (Some COMBUSTION).

(** * Properties *)

(** ** Comparisons and rounding on rationals *)

Lemma Qltb_lt (x y : Q) : Qltb x y = true <-> (x < y)%Q.
Proof.
  unfold Qltb. rewrite negb_true_iff. split.
  - intros H. apply Qnot_le_lt. intros Hle. apply Qle_bool_iff in Hle. congruence.
  - intros H. destruct (Qle_bool y x) eqn:E; [|done].
    apply Qle_bool_iff in E. exfalso. eapply Qlt_not_le; eauto.
Qed.

Lemma Qltb_ge (x y : Q) : Qltb x y = false <-> (y <= x)%Q.
Proof. unfold Qltb. rewrite negb_false_iff. apply Qle_bool_iff. Qed.

Lemma Qleb_le (x y : Q) : Qleb x y = true <-> (x <= y)%Q.
Proof. apply Qle_bool_iff. Qed.

Lemma Qleb_gt (x y : Q) : Qleb x y = false <-> (y < x)%Q.
Proof.
  unfold Qleb. split.
  - intros H. apply Qnot_le_lt. intros Hle. apply Qle_bool_iff in Hle. congruence.
  - intros H. destruct (Qle_bool x y) eqn:E; [|done].
    apply Qle_bool_iff in E. exfalso. eapply Qlt_not_le; eauto.
Qed.

Lemma py_int_succ (n : Z) : py_int (inject_Z n + 1) = n + 1.
Proof. unfold py_int. simpl. rewrite Z.quot_1_r. lia. Qed.

(** ** TimingKernel *)

Section TimingKernelFacts.
Context (X : Externals).

(** Whenever the two bodies move relative to each other, the solved time
    lies strictly in the future: a root in the past is pushed forward by
    one period more than the number of whole periods it lies back. *)
Lemma forward_time_pos (delta v_rel : Q) :
  (0 < Qabs v_rel)%Q -> (0 < TimingKernel.forward_time delta v_rel)%Q.
Proof.
  intros Hv. unfold TimingKernel.forward_time.
  set (t := (- delta / v_rel)%Q).
  destruct (Qleb t 0) eqn:Ht.
  - apply Qleb_le in Ht.
    set (period := (360 / Qabs v_rel)%Q).
    assert (Hp : (0 < period)%Q).
    { unfold period. apply Qlt_shift_div_l; [done | lra]. }
    unfold floordiv. rewrite py_int_succ.
    pose proof (Qlt_floor (- t / period)) as Hfl.
    set (n := Qfloor (- t / period)) in *.
    assert (Hlt : (- t < inject_Z (n + 1) * period)%Q).
    { apply (Qmult_lt_r _ _ period Hp) in Hfl.
      rewrite (Qmult_comm (- t / period)), Qmult_div_r in Hfl; [exact Hfl|].
      intros E. rewrite E in Hp. by apply Qlt_irrefl in Hp. }
    lra.
  - by apply Qleb_gt in Ht.
Qed.

(** C2.  [when_exact_in_days] is forward-only: for every chart, pair of
    bodies and aspect, a determinate answer is a number of days that is
    not negative. *)
Theorem when_exact_in_days_forward_only
    (planet_a planet_b : Planet) (aspect : Aspect) (chart : HoraryChart)
    (t : Q) :
  TimingKernel.when_exact_in_days X planet_a planet_b aspect chart = Some t ->
  (0 <= t)%Q.
Proof.
  unfold TimingKernel.when_exact_in_days.
  destruct (planets chart !! planet_a) as [pos_a|]; [|done].
  destruct (planets chart !! planet_b) as [pos_b|]; [|done].
  cbv zeta.
  destruct (Qltb (Qabs (TimingKernel.relative_rate pos_a pos_b)) (1 # 1000000))
    eqn:Hv.
  - destruct (Qltb _ (1 # 1000)); [|done].
    intros [= <-]. apply Qle_refl.
  - apply Qltb_ge in Hv.
    assert (Hpos : (0 < Qabs (TimingKernel.relative_rate pos_a pos_b))%Q).
    { eapply Qlt_le_trans; [|exact Hv]. reflexivity. }
    pose proof (forward_time_pos
                  (TimingKernel.delta_to_exact (default 0%Q (longitude pos_a))
                     (default 0%Q (longitude pos_b)) aspect)
                  _ Hpos) as Hft.
    destruct (TimingKernel.enforce_sign_guard X).
    + destruct (_ || _); [done|]. intros [= <-]. by apply Qlt_le_weak.
    + intros [= <-]. by apply Qlt_le_weak.
Qed.

(** The guard as the code applies it.  The exit times are asked at the
    [speed] attribute of each body (0 when it is absent), not at the rate
    the forward time is solved with: a forward time that exceeds an exit
    time so computed makes [when_exact_in_days] indeterminate. *)
Theorem sign_exit_guard_blocks
    (planet_a planet_b : Planet) (aspect : Aspect) (chart : HoraryChart)
    (pos_a pos_b : PlanetPosition) (d : Q) :
  let lon_a := default 0%Q (longitude pos_a) in
  let lon_b := default 0%Q (longitude pos_b) in
  let v_rel := TimingKernel.relative_rate pos_a pos_b in
  let t := TimingKernel.forward_time
             (TimingKernel.delta_to_exact lon_a lon_b aspect) v_rel in
  TimingKernel.enforce_sign_guard X = true ->
  planets chart !! planet_a = Some pos_a ->
  planets chart !! planet_b = Some pos_b ->
  (1 # 1000000 <= Qabs v_rel)%Q ->
  days_to_sign_exit X lon_a (default 0%Q (speed pos_a)) = Some d
  \/ days_to_sign_exit X lon_b (default 0%Q (speed pos_b)) = Some d ->
  (d < t)%Q ->
  TimingKernel.when_exact_in_days X planet_a planet_b aspect chart = None.
Proof.
  intros lon_a lon_b v_rel t Hguard Ha Hb Hv Hexit Hlate.
  unfold TimingKernel.when_exact_in_days. rewrite Ha, Hb. cbv zeta.
  fold lon_a lon_b v_rel.
  apply Qltb_ge in Hv. rewrite Hv, Hguard. fold t.
  assert (Hblk : forall days, days = Some d ->
            TimingKernel.blocked_by_sign_exit t days = true).
  { intros days ->. simpl. by apply Qltb_lt. }
  destruct Hexit as [E|E]; rewrite (Hblk _ E); [done|].
  by rewrite orb_true_r.
Qed.

End TimingKernelFacts.

(** ** De-duplication *)

Section Deduplication.

Local Abbreviation key := event_key.

(** The index search of the duplicate branch, as a recursion on the list. *)
Lemma replace_duplicate_cons (event x : PerfectionEvent)
    (r : list PerfectionEvent) :
  EventDetector.replace_duplicate event (x :: r) =
    if decide (key x = key event) then richer x event :: r
    else x :: EventDetector.replace_duplicate event r.
Proof.
  unfold EventDetector.replace_duplicate, richer. cbn [list_find].
  destruct (decide (key x = key event)) as [E|E].
  - cbn -[Nat.ltb]. by destruct (_ <? _)%nat.
  - destruct (list_find _ r) as [[i y]|]; cbn -[Nat.ltb]; [|done].
    by destruct (_ <? _)%nat.
Qed.

Lemma with_key_cons (k : EventKey) (x : PerfectionEvent)
    (l : list PerfectionEvent) :
  with_key k (x :: l) =
    if decide (key x = k) then x :: with_key k l else with_key k l.
Proof.
  unfold with_key. cbn [List.filter].
  destruct (decide (key x = k)) as [E|E].
  - by rewrite bool_decide_eq_true_2.
  - by rewrite bool_decide_eq_false_2.
Qed.

Lemma with_key_app (k : EventKey) (l1 l2 : list PerfectionEvent) :
  with_key k (l1 ++ l2) = with_key k l1 ++ with_key k l2.
Proof. unfold with_key. apply List.filter_app. Qed.

Lemma with_key_none (k : EventKey) (l : list PerfectionEvent) :
  (forall e, e ∈ l -> key e <> k) -> with_key k l = [].
Proof.
  induction l as [|x l IH]; intros H; [done|].
  rewrite with_key_cons. destruct (decide (key x = k)) as [E|E].
  - exfalso. apply (H x); [left | done].
  - apply IH. intros e He. apply H. by right.
Qed.

Lemma richer_key (x e : PerfectionEvent) :
  key x = key e -> key (richer x e) = key e.
Proof. unfold richer. by destruct (_ <? _)%nat. Qed.

Lemma with_key_replace_other (k : EventKey) (event : PerfectionEvent)
    (u : list PerfectionEvent) :
  k <> key event ->
  with_key k (EventDetector.replace_duplicate event u) = with_key k u.
Proof.
  intros Hk. induction u as [|x r IH]; [done|].
  rewrite replace_duplicate_cons.
  destruct (decide (key x = key event)) as [E|E].
  - rewrite !with_key_cons, (richer_key _ _ E).
    destruct (decide (key event = k)); [congruence|].
    destruct (decide (key x = k)); [congruence|]. done.
  - rewrite !with_key_cons, IH. done.
Qed.

Lemma with_key_replace_same (event x : PerfectionEvent)
    (u : list PerfectionEvent) :
  with_key (key event) u = [x] ->
  with_key (key event) (EventDetector.replace_duplicate event u)
  = [richer x event].
Proof.
  induction u as [|y r IH]; [done|].
  rewrite replace_duplicate_cons, with_key_cons.
  destruct (decide (key y = key event)) as [E|E].
  - intros [= -> Hr]. rewrite with_key_cons, (richer_key _ _ E).
    destruct (decide (key event = key event)); [|done]. by rewrite Hr.
  - intros Hr. rewrite with_key_cons.
    destruct (decide (key y = key event)); [done|]. by apply IH.
Qed.

Lemma dedup_step_slot (st : gset EventKey * list PerfectionEvent)
    (e : PerfectionEvent) (k : EventKey) :
  dedup_inv st ->
  with_key k (EventDetector.dedup_step st e).2
  = option_list (merge_slot k (head (with_key k st.2)) e).
Proof.
  destruct st as [seen u]. intros Hinv. cbn [EventDetector.dedup_step].
  destruct (Hinv k) as [Hseen Hlen]. cbn [fst snd] in *.
  unfold merge_slot.
  destruct (decide (key e ∈ seen)) as [Hin|Hnin]; cbn [snd].
  - destruct (decide (key e = k)) as [<-|Hne].
    + apply Hseen in Hin.
      destruct (with_key (key e) u) as [|x [|x' r']] eqn:Hw;
        [done| |cbn in Hlen; lia].
      cbn. by apply with_key_replace_same.
    + rewrite with_key_replace_other by done.
      destruct (with_key k u) as [|x [|x' r']]; cbn in *; [done|done|lia].
  - rewrite with_key_app, with_key_cons. cbn.
    destruct (decide (key e = k)) as [<-|Hne].
    + destruct (with_key (key e) u) as [|x r] eqn:Hw; [done|].
      exfalso. by apply Hnin, Hseen.
    + rewrite app_nil_r.
      destruct (with_key k u) as [|x [|x' r']]; cbn in *; [done|done|lia].
Qed.

Lemma dedup_step_inv (st : gset EventKey * list PerfectionEvent)
    (e : PerfectionEvent) :
  dedup_inv st -> dedup_inv (EventDetector.dedup_step st e).
Proof.
  intros Hinv k. pose proof (dedup_step_slot st e k Hinv) as Hslot.
  destruct (Hinv k) as [Hseen Hlen]. split.
  - rewrite Hslot. destruct st as [seen u]. cbn [fst snd] in *.
    cbn [EventDetector.dedup_step]. unfold merge_slot.
    destruct (decide (key e ∈ seen)) as [Hin|Hnin]; cbn [fst].
    + rewrite Hseen. destruct (decide (key e = k)) as [<-|Hne].
      * apply Hseen in Hin.
        destruct (with_key (key e) u); cbn; [done|]. split; done.
      * destruct (with_key k u) as [|x [|x' r']]; cbn in *; [done|done|lia].
    + rewrite elem_of_union, elem_of_singleton, Hseen.
      destruct (decide (key e = k)) as [<-|Hne].
      * destruct (with_key (key e) u); cbn; split; auto; done.
      * destruct (with_key k u) as [|x [|x' r']]; cbn in *;
          [|split; auto; done|lia].
        split; [intros [?|?]; congruence | done].
  - rewrite Hslot. unfold merge_slot.
    destruct (decide (key e = k)), (head _); cbn; lia.
Qed.

Lemma dedup_fold_slot (l : list PerfectionEvent)
    (st : gset EventKey * list PerfectionEvent) (k : EventKey) :
  dedup_inv st ->
  with_key k (fold_left EventDetector.dedup_step l st).2
  = option_list (fold_left (merge_slot k) l (head (with_key k st.2))).
Proof.
  revert st. induction l as [|e l IH]; intros st Hinv.
  - cbn. destruct (Hinv k) as [_ Hlen].
    destruct (with_key k st.2) as [|x [|x' r']]; cbn in *; [done|done|lia].
  - cbn [fold_left]. rewrite IH by by apply dedup_step_inv.
    rewrite dedup_step_slot by done.
    by destruct (merge_slot _ _ _).
Qed.

Lemma dedup_inv_init : dedup_inv (∅, []).
Proof. intros k. cbn. split; [|lia]. split; [set_solver | done]. Qed.

(** Per key, de-duplication folds the duplicates into one slot. *)
Lemma deduplicate_slot (l : list PerfectionEvent) (k : EventKey) :
  with_key k (EventDetector._deduplicate_events l)
  = option_list (fold_left (merge_slot k) l None).
Proof.
  unfold EventDetector._deduplicate_events.
  by rewrite dedup_fold_slot by apply dedup_inv_init.
Qed.

Lemma merge_slot_skip (k : EventKey) (l : list PerfectionEvent)
    (slot : option PerfectionEvent) :
  (forall e, e ∈ l -> key e <> k) -> fold_left (merge_slot k) l slot = slot.
Proof.
  revert slot. induction l as [|x l IH]; intros slot H; [done|].
  cbn. unfold merge_slot at 2.
  destruct (decide (key x = k)) as [E|E].
  - exfalso. apply (H x); [left | done].
  - apply IH. intros e He. apply H. by right.
Qed.

Lemma merge_slot_is_Some (k : EventKey) (l : list PerfectionEvent)
    (slot : option PerfectionEvent) :
  is_Some slot -> is_Some (fold_left (merge_slot k) l slot).
Proof.
  revert slot. induction l as [|x l IH]; intros slot H; [done|].
  cbn. apply IH. unfold merge_slot.
  destruct (decide (key x = k)); [|done]. destruct slot; done.
Qed.

(** C8.  When exactly two events of a list share a key and their metadata
    maps differ in size, the de-duplicated list holds exactly one event
    with that key: the one with more metadata entries. *)
Theorem deduplicate_keeps_richer
    (l1 l2 l3 : list PerfectionEvent) (e1 e2 : PerfectionEvent) :
  event_key e1 = event_key e2 ->
  size (metadata e1) <> size (metadata e2) ->
  (forall e, e ∈ l1 ++ l2 ++ l3 -> event_key e <> event_key e1) ->
  with_key (event_key e1)
           (EventDetector._deduplicate_events (l1 ++ e1 :: l2 ++ e2 :: l3))
  = [if (size (metadata e1) <? size (metadata e2))%nat then e2 else e1].
Proof.
  intros Hk Hsz Hother. rewrite deduplicate_slot.
  assert (H1 : forall e, e ∈ l1 -> key e <> key e1)
    by (intros e He; apply Hother; set_solver).
  assert (H2 : forall e, e ∈ l2 -> key e <> key e1)
    by (intros e He; apply Hother; set_solver).
  assert (H3 : forall e, e ∈ l3 -> key e <> key e1)
    by (intros e He; apply Hother; set_solver).
  rewrite fold_left_app, (merge_slot_skip _ l1 None H1). cbn [fold_left].
  rewrite fold_left_app, (merge_slot_skip _ l2 _ H2). cbn [fold_left].
  rewrite (merge_slot_skip _ l3 _ H3).
  unfold merge_slot.
  destruct (decide (key e1 = key e1)); [|done].
  destruct (decide (key e2 = key e1)); [|congruence].
  done.
Qed.

(** C10.  The key renders an absent timing and a timing of zero alike,
    so two events that agree on family, pair, mediator and aspect and
    differ only in that one timing is absent and the other is zero share
    their key, and de-duplication keeps a single event for it. *)
Theorem absent_and_zero_timing_collapse
    (e1 e2 : PerfectionEvent) (t : Q) (l : list PerfectionEvent) :
  event_type e1 = event_type e2 ->
  primary_pair e1 = primary_pair e2 ->
  mediator e1 = mediator e2 ->
  aspect e1 = aspect e2 ->
  exact_in_days e1 = None ->
  exact_in_days e2 = Some t ->
  (t == 0)%Q ->
  e1 ∈ l -> e2 ∈ l ->
  event_key e1 = event_key e2
  /\ length (with_key (event_key e1) (EventDetector._deduplicate_events l)) = 1%nat.
Proof.
  intros Hty Hpair Hmed Hasp Ht1 Ht2 Hz Hin1 Hin2.
  assert (Hk : event_key e1 = event_key e2).
  { unfold event_key. rewrite Hty, Hpair, Hmed, Hasp, Ht1, Ht2. cbn.
    apply Qeq_bool_iff in Hz. by rewrite Hz. }
  split; [done|].
  rewrite deduplicate_slot.
  apply list_elem_of_split in Hin1 as (la & lb & ->).
  rewrite fold_left_app. cbn [fold_left].
  destruct (merge_slot_is_Some (key e1) lb
              (merge_slot (key e1)
                 (fold_left (merge_slot (key e1)) la None) e1)) as [x ->];
    [|done].
  unfold merge_slot. destruct (decide (key e1 = key e1)); [|done].
  by destruct (fold_left _ la None).
Qed.

End Deduplication.

(** ** Collection of light *)

Section Collection.
Context (X : Externals).

Lemma is_valid_collector_slower (chart : HoraryChart)
    (collector sig1 sig2 : Planet) :
  EventDetector._is_valid_collector chart collector sig1 sig2 = Ok true ->
  (abs_rate chart collector < abs_rate chart sig1)%Q
  /\ (abs_rate chart collector < abs_rate chart sig2)%Q.
Proof.
  unfold EventDetector._is_valid_collector, subscript, abs_rate.
  destruct (planets chart !! collector) as [pc|]; [|done].
  destruct (planets chart !! sig1) as [p1|]; [|done].
  destruct (planets chart !! sig2) as [p2|]; [|done].
  cbn. intros [= H]. apply Qltb_lt in H. revert H.
  unfold py_min2.
  destruct (Qltb _ _) eqn:Hm; intros H.
  - apply Qltb_lt in Hm. split; [|done]. eapply Qlt_trans; eauto.
  - apply Qltb_ge in Hm. split; [done|]. eapply Qlt_le_trans; eauto.
Qed.

(** A turn of the collector loop emits a COLLECTION event only for the
    candidate of that turn, and only after the candidate passed the
    speed test. *)
Lemma collection_step_gate (chart : HoraryChart) (querent quesited : Planet)
    (window_days : Z) (collector : Planet) (new : list PerfectionEvent)
    (e : PerfectionEvent) :
  EventDetector.collection_step X chart querent quesited window_days collector
  = Ok new ->
  e ∈ new -> event_type e = COLLECTION ->
  mediator e = Some collector
  /\ EventDetector._is_valid_collector chart collector querent quesited = Ok true.
Proof.
  unfold EventDetector.collection_step.
  destruct (_ || _); [intros [= <-] He; by apply elem_of_nil in He|].
  destruct (EventDetector._is_valid_collector _ _ _ _) as [[|]|] eqn:Hv;
    unfold mbind, result_bind; cbv beta iota;
    [| intros [= <-] He; by apply elem_of_nil in He | done].
  change (negb true) with false. cbv iota.
  destruct (EventDetector._find_applying_aspect X chart querent _ _);
    [|intros [= <-] He; by apply elem_of_nil in He].
  destruct (EventDetector._find_applying_aspect X chart quesited _ _);
    [|intros [= <-] He; by apply elem_of_nil in He].
  destruct (find_first _ _) as [[other other_app]|].
  - intros [= <-] He Hty. apply list_elem_of_singleton in He. by subst e.
  - destruct (EventDetector._find_earliest_application X chart querent _ _);
      [|intros [= <-] He; by apply elem_of_nil in He].
    destruct (EventDetector._find_earliest_application X chart quesited _ _);
      [|intros [= <-] He; by apply elem_of_nil in He].
    destruct (_ && _); [|intros [= <-] He; by apply elem_of_nil in He].
    intros [= <-] He Hty. apply list_elem_of_singleton in He. by subst e.
Qed.

Lemma collection_loop_origin (chart : HoraryChart) (querent quesited : Planet)
    (window_days : Z) (l : list Planet)
    (acc : result (list PerfectionEvent))
    (evs : list PerfectionEvent) (e : PerfectionEvent) :
  fold_left
    (fun acc collector =>
       events ← acc;
       new ← EventDetector.collection_step X chart querent quesited
                                           window_days collector;
       Ok (events ++ new))
    l acc = Ok evs ->
  e ∈ evs ->
  (exists a, acc = Ok a /\ e ∈ a)
  \/ (exists collector new,
        collector ∈ l
        /\ EventDetector.collection_step X chart querent quesited
                                         window_days collector = Ok new
        /\ e ∈ new).
Proof.
  revert acc. induction l as [|c l IH]; intros acc Hfold He.
  - cbn in Hfold. left. eauto.
  - cbn [fold_left] in Hfold.
    destruct (IH _ Hfold He) as [(a & Ha & Hin)|(c' & new & Hc & Hs & Hin)].
    + destruct acc as [a0|]; [|done]. cbn in Ha.
      destruct (EventDetector.collection_step X chart querent quesited
                  window_days c) as [new|] eqn:Hs; [|done].
      cbn in Ha. injection Ha as <-.
      apply elem_of_app in Hin as [Hin|Hin].
      * left. eauto.
      * right. exists c, new. split; [left|done].
    + right. exists c', new. split; [by right|done].
Qed.

(** C5.  A candidate collector whose absolute rate is not strictly less
    than the absolute rates of both significators is named by no
    COLLECTION event, whatever else holds in the chart. *)
Theorem no_collection_by_fast_collector (chart : HoraryChart)
    (querent quesited : Planet) (window_days : Z) (collector : Planet) :
  ~ ((abs_rate chart collector < abs_rate chart querent)%Q
     /\ (abs_rate chart collector < abs_rate chart quesited)%Q) ->
  forall e,
    e ∈ produced (EventDetector._detect_collection_events
                    X chart querent quesited window_days) ->
    ~ (event_type e = COLLECTION /\ mediator e = Some collector).
Proof.
  intros Hfast e He [Hty Hmed]. apply Hfast.
  unfold EventDetector._detect_collection_events in He.
  destruct (decide (querent = quesited)); [by apply elem_of_nil in He|].
  destruct (fold_left _ _ _) as [evs|] eqn:Hfold;
    [|by apply elem_of_nil in He].
  cbn [produced] in He.
  destruct (collection_loop_origin _ _ _ _ _ _ _ _ Hfold He)
    as [(a & [= <-] & Hin)|(c & new & _ & Hs & Hin)];
    [by apply elem_of_nil in Hin|].
  destruct (collection_step_gate _ _ _ _ _ _ _ Hs Hin Hty) as [Hc Hv].
  rewrite Hmed in Hc. injection Hc as <-.
  by apply is_valid_collector_slower.
Qed.

End Collection.

(** ** The identity case *)

Section Identity.
Context (X : Externals).

(** C6.  When one body is both querent and quesited, [detect_all_events]
    returns exactly one DIRECT event, immediate (timing 0), by conjunction
    and favorable; the translation, collection and prohibition searches are
    not entered, so no event of those families is returned. *)
Theorem identity_case_single_direct (chart : HoraryChart) (P : Planet)
    (window_days : Z) :
  exists d evs,
    EventDetector.detect_all_events X chart P P window_days = Ok evs
    /\ of_type DIRECT evs = [d]
    /\ exact_in_days d = Some 0%Q
    /\ aspect d = Some CONJUNCTION
    /\ favorable d = true
    /\ of_type TRANSLATION evs = []
    /\ of_type COLLECTION evs = []
    /\ of_type PROHIBITION evs = [].
Proof.
  exists (EventDetector.identity_event X P P).
  unfold EventDetector.detect_all_events.
  destruct (decide (P = P)) as [_|]; [|done].
  unfold EventDetector._detect_house_placement_events.
  destruct (significators chart) as [sigs|].
  - destruct (decide (sigs = ∅)).
    + destruct P; eexists; (split; [reflexivity|]); vm_compute; done.
    + destruct (EventDetector.in_house _ _), (EventDetector.in_house _ _);
        destruct P; eexists; (split; [reflexivity|]); vm_compute; done.
  - destruct P; eexists; (split; [reflexivity|]); vm_compute; done.
Qed.

End Identity.

(** ** Translation of light *)

Section Translation.
Context (X : Externals).

Local Ltac no_event :=
  let He := fresh "He" in intros He; by apply elem_of_nil in He.

(** A turn of the translator loop emits a TRANSLATION event only for a
    separation leg that precedes the application and is no older than the
    look-back bound. *)
Lemma translation_step_gate (chart : HoraryChart) (querent quesited : Planet)
    (window_days : Z) (translator : Planet) (e : PerfectionEvent) :
  e ∈ EventDetector.translation_step X chart querent quesited window_days
        translator ->
  event_type e = TRANSLATION ->
  exists sep app,
    mediator e = Some translator
    /\ metadata e = {[ "separation"%string := MLeg sep;
                       "application"%string := MLeg app ]}
    /\ (- leg_timing sep <= max_lookback X)%Q
    /\ (leg_timing sep < leg_timing app)%Q.
Proof.
  unfold EventDetector.translation_step.
  destruct (_ || _); [no_event|].
  match goal with
  | |- context [let '(_, _) := ?p in _] => destruct p as [[sep|] [app|]]
  end; try no_event.
  destruct (Qltb (leg_timing sep) (leg_timing app)) eqn:Hseq; [|no_event].
  apply Qltb_lt in Hseq.
  destruct (_ && _); [no_event|].
  destruct (Qgtb _ _) eqn:Hlook; [no_event|].
  apply Qltb_ge in Hlook.
  destruct (EventDetector._find_earliest_application _ _ _ _ _); [|no_event].
  destruct (_ || _); [no_event|].
  destruct (find_first _ _) as [[other other_app]|].
  - intros He Hty. apply list_elem_of_singleton in He. by subst e.
  - intros He Hty. apply list_elem_of_singleton in He. subst e.
    exists sep, app. cbn. done.
Qed.

Lemma translation_fold_origin (chart : HoraryChart) (querent quesited : Planet)
    (window_days : Z) (l : list Planet) (acc : list PerfectionEvent)
    (e : PerfectionEvent) :
  e ∈ fold_left
        (fun events translator =>
           events ++ EventDetector.translation_step X chart querent quesited
                       window_days translator)
        l acc ->
  e ∈ acc
  \/ exists translator,
       translator ∈ l
       /\ e ∈ EventDetector.translation_step X chart querent quesited
               window_days translator.
Proof.
  revert acc. induction l as [|t l IH]; intros acc He; [by left|].
  cbn [fold_left] in He. apply IH in He as [He|(t' & Ht' & He)].
  - apply elem_of_app in He as [He|He]; [by left|].
    right. exists t. split; [left | done].
  - right. exists t'. split; [by right | done].
Qed.

Lemma translation_loop_origin (chart : HoraryChart) (querent quesited : Planet)
    (window_days : Z) (e : PerfectionEvent) :
  e ∈ EventDetector._detect_translation_events X chart querent quesited
        window_days ->
  exists translator,
    e ∈ EventDetector.translation_step X chart querent quesited window_days
          translator.
Proof.
  unfold EventDetector._detect_translation_events.
  destruct (decide (querent = quesited)); [no_event|].
  intros He. apply translation_fold_origin in He as [He|(t & _ & He)].
  - by apply elem_of_nil in He.
  - eauto.
Qed.

(** The degree limits of the configuration are never consulted: neither
    by the timing kernel, nor by the searches, nor by the translator loop. *)
Lemma when_exact_ignores_degree_limits (sep_deg app_deg : option Q) :
  TimingKernel.when_exact_in_days (with_degree_limits X sep_deg app_deg)
  = TimingKernel.when_exact_in_days X.
Proof. reflexivity. Qed.

Lemma find_applying_ignores_degree_limits (sep_deg app_deg : option Q) :
  EventDetector._find_applying_aspect (with_degree_limits X sep_deg app_deg)
  = EventDetector._find_applying_aspect X.
Proof.
  unfold EventDetector._find_applying_aspect.
  by rewrite when_exact_ignores_degree_limits.
Qed.

Lemma find_earliest_ignores_degree_limits (sep_deg app_deg : option Q) :
  EventDetector._find_earliest_application
    (with_degree_limits X sep_deg app_deg)
  = EventDetector._find_earliest_application X.
Proof.
  unfold EventDetector._find_earliest_application.
  by rewrite find_applying_ignores_degree_limits.
Qed.

Lemma translation_step_ignores_degree_limits (sep_deg app_deg : option Q) :
  EventDetector.translation_step (with_degree_limits X sep_deg app_deg)
  = EventDetector.translation_step X.
Proof.
  unfold EventDetector.translation_step.
  rewrite find_applying_ignores_degree_limits,
    find_earliest_ignores_degree_limits.
  reflexivity.
Qed.

Lemma translation_ignores_degree_limits (chart : HoraryChart)
    (querent quesited : Planet) (window_days : Z) (sep_deg app_deg : option Q) :
  EventDetector._detect_translation_events
    (with_degree_limits X sep_deg app_deg) chart querent quesited window_days
  = EventDetector._detect_translation_events X chart querent quesited
      window_days.
Proof.
  unfold EventDetector._detect_translation_events.
  by rewrite translation_step_ignores_degree_limits.
Qed.

(** X20.  The separation leg of a translation is bounded in days, not in
    degrees: every TRANSLATION event rests on a separation leg that
    precedes the application and is at most
    [translation_max_lookback_days] (7 by default) old, and the detection
    is the same whatever degree limits are configured. *)
Theorem translation_bounded_by_lookback (chart : HoraryChart)
    (querent quesited : Planet) (window_days : Z) (e : PerfectionEvent) :
  e ∈ EventDetector._detect_translation_events X chart querent quesited
        window_days ->
  event_type e = TRANSLATION ->
  (exists translator sep app,
     mediator e = Some translator
     /\ metadata e = {[ "separation"%string := MLeg sep;
                        "application"%string := MLeg app ]}
     /\ (- leg_timing sep <= max_lookback X)%Q
     /\ (leg_timing sep < leg_timing app)%Q)
  /\ (forall sep_deg app_deg,
        EventDetector._detect_translation_events
          (with_degree_limits X sep_deg app_deg) chart querent quesited
          window_days
        = EventDetector._detect_translation_events X chart querent quesited
            window_days).
Proof.
  intros He Hty. split.
  - apply translation_loop_origin in He as [translator He].
    destruct (translation_step_gate _ _ _ _ _ _ He Hty) as (sep & app & H).
    eauto.
  - intros. apply translation_ignores_degree_limits.
Qed.

End Translation.

(** ** Worked cases *)

Section Worked.
Import Sample.

(** C2 at work: the Moon, five degrees behind the Sun and twelve degrees a
    day faster, reaches it in five twelfths of a day. *)
Lemma when_exact_in_days_forward_only_witness :
  TimingKernel.when_exact_in_days sample_externals MOON SUN CONJUNCTION
    chart_new_moon = Some (5 # 12)%Q
  /\ (0 <= 5 # 12)%Q.
Proof.
  split; [vm_compute; reflexivity|].
  apply (when_exact_in_days_forward_only sample_externals MOON SUN CONJUNCTION
           chart_new_moon).
  vm_compute. reflexivity.
Defined.

(** The guard at work on positions whose [speed] is their daily motion:
    the conjunction would complete in two days, the Sun leaves its sign in
    one. *)
Lemma sign_exit_guard_blocks_witness :
  TimingKernel.when_exact_in_days sample_externals MOON SUN CONJUNCTION
    chart_sign_exit = None.
Proof.
  apply (sign_exit_guard_blocks sample_externals MOON SUN CONJUNCTION
           chart_sign_exit (at_pos 5 13 1) (at_pos 29 1 1) 1%Q).
  - reflexivity.
  - vm_compute. reflexivity.
  - vm_compute. reflexivity.
  - vm_compute. discriminate.
  - right. vm_compute. reflexivity.
  - vm_compute. reflexivity.
Defined.

(** C5 at work: in [chart_collection] the Moon is faster than Mercury, and
    the collection found there does not name it. *)
Lemma no_collection_by_fast_collector_witness :
  ~ (event_type collection_event = COLLECTION
     /\ mediator collection_event = Some MOON).
Proof.
  apply (no_collection_by_fast_collector sample_externals chart_collection
           MERCURY VENUS 30 MOON).
  - intros [H _]. vm_compute in H. discriminate.
  - vm_compute. left.
Defined.

(** The translation found in [chart_lookback 104] rests on a separation
    leg of four days. *)
Lemma translation_bounded_by_lookback_witness :
  (exists translator sep app,
     mediator lookback_event = Some translator
     /\ metadata lookback_event
        = {[ "separation"%string := MLeg sep; "application"%string := MLeg app ]}
     /\ (- leg_timing sep <= max_lookback sample_externals)%Q
     /\ (leg_timing sep < leg_timing app)%Q)
  /\ (forall sep_deg app_deg,
        EventDetector._detect_translation_events
          (with_degree_limits sample_externals sep_deg app_deg)
          (chart_lookback 104) SATURN JUPITER 30
        = EventDetector._detect_translation_events sample_externals
            (chart_lookback 104) SATURN JUPITER 30).
Proof.
  apply (translation_bounded_by_lookback sample_externals (chart_lookback 104)
           SATURN JUPITER 30 lookback_event).
  - vm_compute. left.
  - vm_compute. reflexivity.
Defined.

(** C8 at work. *)
Lemma deduplicate_keeps_richer_witness :
  with_key (event_key (bare HOUSE_PLACEMENT (Some 0%Q)))
    (EventDetector._deduplicate_events
       ([] ++ bare HOUSE_PLACEMENT (Some 0%Q)
           :: [bare DIRECT (Some 3%Q)] ++ tagged HOUSE_PLACEMENT (Some 0%Q) :: []))
  = [tagged HOUSE_PLACEMENT (Some 0%Q)].
Proof.
  apply (deduplicate_keeps_richer [] [bare DIRECT (Some 3%Q)] []
           (bare HOUSE_PLACEMENT (Some 0%Q)) (tagged HOUSE_PLACEMENT (Some 0%Q))).
  - vm_compute. reflexivity.
  - vm_compute. discriminate.
  - intros e He. apply list_elem_of_singleton in He. subst e.
    vm_compute. discriminate.
Defined.

(** C10 at work. *)
Lemma absent_and_zero_timing_collapse_witness :
  event_key (bare DIRECT None) = event_key (bare DIRECT (Some 0%Q))
  /\ length (with_key (event_key (bare DIRECT None))
               (EventDetector._deduplicate_events
                  [bare DIRECT None; bare DIRECT (Some 0%Q)])) = 1%nat.
Proof.
  apply (absent_and_zero_timing_collapse (bare DIRECT None)
           (bare DIRECT (Some 0%Q)) 0%Q
           [bare DIRECT None; bare DIRECT (Some 0%Q)]);
    try reflexivity.
  - left.
  - right. left.
Defined.

(** C7 at the failing input.  With a limit of 10 degrees configured for
    the separation leg, a Moon that has separated from Mars by 11 degrees
    still translates; the degree limits are never read, so the same
    TRANSLATION event is reported whatever limits are configured. *)
Theorem translation_beyond_degree_limit_accepted :
  max_separation_deg (cfg_translation (config sample_externals)) = Some 10%Q
  /\ (exists sep,
        EventDetector._find_separating_aspect (chart_translation 11) MOON MARS 30
        = Some sep
        /\ (separation_degrees (chart_translation 11) MOON MARS sep == 11)%Q)
  /\ (exists e,
        EventDetector._detect_translation_events
          sample_externals (chart_translation 11) MARS JUPITER 30 = [e]
        /\ event_type e = TRANSLATION /\ mediator e = Some MOON
        /\ forall sep_deg app_deg,
             EventDetector._detect_translation_events
               (with_degree_limits sample_externals sep_deg app_deg)
               (chart_translation 11) MARS JUPITER 30 = [e]).
Proof.
  split; [reflexivity|]. split.
  - eexists. split; [vm_compute; reflexivity|]. vm_compute. reflexivity.
  - eexists. split; [vm_compute; reflexivity|].
    split; [reflexivity|]. split; [reflexivity|].
    intros sep_deg app_deg. rewrite translation_ignores_degree_limits.
    vm_compute. reflexivity.
Qed.

(** C3 at the failing input.  The guard is on, the Moon reaches the Sun in
    two days and the Sun, one degree a day, leaves its sign in one; yet the
    kernel answers two days when the positions carry [daily_motion] and no
    [speed], or a [speed] that differs from it: the exit times are asked
    at the [speed] attribute, the forward time is solved from
    [_get_daily_motion].  With [speed] equal to the daily motion the same
    geometry is blocked. *)
Theorem sign_exit_guard_reads_speed_attribute :
  TimingKernel.enforce_sign_guard sample_externals = true
  /\ (exists d, days_to_sign_exit sample_externals 29 1 = Some d /\ (d == 1)%Q)
  /\ (exists t,
        TimingKernel.when_exact_in_days sample_externals MOON SUN CONJUNCTION
          chart_motion_only = Some t
        /\ (t == 2)%Q)
  /\ (exists t,
        TimingKernel.when_exact_in_days sample_externals MOON SUN CONJUNCTION
          chart_two_rates = Some t
        /\ (t == 2)%Q)
  /\ TimingKernel.when_exact_in_days sample_externals MOON SUN CONJUNCTION
       chart_sign_exit = None.
Proof.
  split; [reflexivity|].
  split; [eexists; split; [vm_compute; reflexivity | reflexivity]|].
  split; [eexists; split; [vm_compute; reflexivity | reflexivity]|].
  split; [eexists; split; [vm_compute; reflexivity | reflexivity]|].
  vm_compute. reflexivity.
Qed.

(** C1 at the failing input.  A timing of zero is falsy, so the chooser
    reads it as [float('inf')]: a prohibition at day 0 does not pre-empt a
    direct perfection at day 3, and a prohibition at day 2 pre-empts a
    direct perfection at day 0. *)
Theorem zero_timing_misleads_chooser :
  PerfectionChooser.select_primary_perfection
    [bare PROHIBITION (Some 0%Q); bare DIRECT (Some 3%Q)]
  = Some (bare DIRECT (Some 3%Q))
  /\ PerfectionChooser.select_primary_perfection
       [bare DIRECT (Some 0%Q); bare PROHIBITION (Some 2%Q)]
     = Some (bare PROHIBITION (Some 2%Q)).
Proof. split; vm_compute; reflexivity. Qed.

(** C4 at the failing input.  The sort key reads a timing of zero as
    [float('inf')]: an immediate house placement is placed after a direct
    perfection three days ahead, an event without timing stays in front of
    an immediate one, and the pipeline itself returns the immediate house
    placement of [chart_collection] last. *)
Theorem zero_timing_sorts_last :
  EventDetector._sort_events_by_priority
    [tagged HOUSE_PLACEMENT (Some 0%Q); bare DIRECT (Some 3%Q)]
  = [bare DIRECT (Some 3%Q); tagged HOUSE_PLACEMENT (Some 0%Q)]
  /\ EventDetector._sort_events_by_priority
       [bare DIRECT None; tagged HOUSE_PLACEMENT (Some 0%Q)]
     = [bare DIRECT None; tagged HOUSE_PLACEMENT (Some 0%Q)]
  /\ map (fun e => (event_type e, exact_in_days e))
         (produced (EventDetector.detect_all_events
                      sample_externals chart_collection MERCURY VENUS 30))
     = [(COLLECTION, Some (100 # 28)%Q); (DIRECT, Some (20 # 3)%Q);
        (HOUSE_PLACEMENT, Some 0%Q)].
Proof. repeat split; vm_compute; reflexivity. Qed.

(** C9 at the failing input.  With the Sun absent from the chart, the
    kernel and the direct, translation, prohibition and denial searches
    answer "nothing", but the collector test subscripts the chart and the
    whole pipeline ends in [KeyError]. *)
Theorem missing_body_raises_key_error :
  planets chart_no_sun !! SUN = None
  /\ TimingKernel.when_exact_in_days sample_externals SUN MOON CONJUNCTION
       chart_no_sun = None
  /\ EventDetector._detect_direct_events sample_externals chart_no_sun
       SUN MOON 30 = Ok []
  /\ EventDetector._detect_translation_events sample_externals chart_no_sun
       SUN MOON 30 = []
  /\ EventDetector._detect_prohibition_events sample_externals chart_no_sun
       SUN MOON 30 None = []
  /\ EventDetector._detect_denial_events sample_externals chart_no_sun
       SUN MOON 30 = Ok []
  /\ EventDetector._is_valid_collector chart_no_sun MERCURY SUN MOON
     = Raise (KeyError SUN)
  /\ EventDetector.detect_all_events sample_externals chart_no_sun SUN MOON 30
     = Raise (KeyError SUN)
  /\ PerfectionCoreAPI.find_perfections sample_externals chart_no_sun
       SUN MOON 30 = Raise (KeyError SUN).
Proof. repeat split; vm_compute; reflexivity. Qed.

End Worked.

(** ** Modular arithmetic of the kernel *)

Lemma pymod_range (x m : Q) :
  (0 < m)%Q -> (0 <= pymod x m)%Q /\ (pymod x m < m)%Q.
Proof.
  intros Hm. unfold pymod.
  pose proof (Qfloor_le (x / m)) as Hlo.
  pose proof (Qlt_floor (x / m)) as Hhi.
  set (n := Qfloor (x / m)) in *.
  assert (Hx : (x == (x / m) * m)%Q).
  { field. intros E. rewrite E in Hm. by apply Qlt_irrefl in Hm. }
  apply (Qmult_le_r _ _ m Hm) in Hlo.
  apply (Qmult_lt_r _ _ m Hm) in Hhi.
  rewrite <- Hx in Hlo, Hhi.
  rewrite inject_Z_plus in Hhi.
  assert (E : ((inject_Z n + inject_Z 1) * m == inject_Z n * m + m)%Q) by ring.
  rewrite E in Hhi. split; lra.
Qed.

(** [x % m] differs from [x] by a whole number of moduli. *)
Lemma pymod_shift (x m : Q) :
  (pymod x m == x - inject_Z (Qfloor (x / m)) * m)%Q.
Proof. reflexivity. Qed.

Lemma norm180_range (x : Q) :
  (- (180) <= TimingKernel._norm180 x)%Q /\ (TimingKernel._norm180 x < 180)%Q.
Proof.
  unfold TimingKernel._norm180.
  destruct (pymod_range (x + 180) 360) as [H1 H2]; [reflexivity|].
  split; lra.
Qed.

Lemma norm180_shift (x : Q) :
  exists k : Z, (TimingKernel._norm180 x == x - 360 * inject_Z k)%Q.
Proof.
  exists (Qfloor ((x + 180) / 360)).
  unfold TimingKernel._norm180. rewrite pymod_shift. ring.
Qed.

Lemma min_by_cases {A K : Type} (ltb : K -> K -> bool) (f : A -> K)
    (best : A) (l : list A) :
  min_by ltb f best l = best \/ min_by ltb f best l ∈ l.
Proof.
  revert best. induction l as [|x l IH]; intros best; [by left|].
  cbn [min_by]. destruct (IH (if ltb (f x) (f best) then x else best)) as [H|H].
  - rewrite H. destruct (ltb _ _); [right; left | by left].
  - right. by right.
Qed.

(** The offset from exactness is the present separation minus one of the
    two mirrored targets, up to whole turns, and lies in [-180, 180). *)
Lemma delta_to_exact_spec (lon_a lon_b : Q) (aspect : Aspect) :
  let delta := TimingKernel.delta_to_exact lon_a lon_b aspect in
  ((- (180) <= delta)%Q /\ (delta < 180)%Q)
  /\ exists (target : Q) (k : Z),
       ((target == degrees aspect)%Q \/ (target == - degrees aspect)%Q)
       /\ (delta == lon_b - lon_a - target - 360 * inject_Z k)%Q.
Proof.
  cbv zeta. unfold TimingKernel.delta_to_exact.
  set (sep_now := (pymod (lon_b - lon_a + 180) 360 - 180)%Q).
  assert (Hsep : exists j : Z, (sep_now == lon_b - lon_a - 360 * inject_Z j)%Q).
  { exists (Qfloor ((lon_b - lon_a + 180) / 360)).
    unfold sep_now. rewrite pymod_shift. ring. }
  destruct Hsep as [j Hj].
  assert (Hcand : forall tgt : Q,
            ((tgt == degrees aspect)%Q \/ (tgt == - degrees aspect)%Q) ->
            exists (target : Q) (k : Z),
              ((target == degrees aspect)%Q \/ (target == - degrees aspect)%Q)
              /\ (TimingKernel._norm180 (sep_now - tgt)
                  == lon_b - lon_a - target - 360 * inject_Z k)%Q).
  { intros tgt Ht. destruct (norm180_shift (sep_now - tgt)) as [k Hk].
    exists tgt, (j + k). split; [done|].
    rewrite Hk, Hj, inject_Z_plus. ring. }
  destruct (TimingKernel.targets (degrees aspect)) as [t0 ts] eqn:Ht.
  assert (Ht0 : ((t0 == degrees aspect)%Q \/ (t0 == - degrees aspect)%Q)
                /\ Forall (fun t => (t == degrees aspect)%Q
                                    \/ (t == - degrees aspect)%Q) ts).
  { unfold TimingKernel.targets in Ht.
    destruct (Qeq_bool (degrees aspect) 0) eqn:E0.
    - injection Ht as <- <-. apply Qeq_bool_iff in E0.
      split; [left; by symmetry | constructor].
    - destruct (Qeq_bool (degrees aspect) 180) eqn:E1.
      + injection Ht as <- <-. apply Qeq_bool_iff in E1.
        split; [left; by symmetry|].
        constructor; [right; by rewrite E1 | constructor].
      + injection Ht as <- <-.
        split; [by left|]. constructor; [by right | constructor]. }
  destruct Ht0 as [Ht0 Hts].
  destruct (min_by_cases Qltb Qabs (TimingKernel._norm180 (sep_now - t0))
              (map (fun t => TimingKernel._norm180 (sep_now - t)) ts))
    as [-> | Hin].
  - split; [apply norm180_range | by apply Hcand].
  - apply list_elem_of_fmap in Hin as (t & -> & Hint).
    split; [apply norm180_range|]. apply Hcand.
    rewrite Forall_forall in Hts. by apply Hts.
Qed.

Lemma Qabs_nonzero_pos (v : Q) : (0 < Qabs v)%Q -> ~ (v == 0)%Q.
Proof. intros H E. rewrite E in H. by apply Qlt_irrefl in H. Qed.

(** The solved time is a root: after that many days the offset from
    exactness has gone through a whole number of turns. *)
Lemma forward_time_root (delta v_rel : Q) :
  (0 < Qabs v_rel)%Q ->
  exists k : Z,
    (delta + v_rel * TimingKernel.forward_time delta v_rel
     == 360 * inject_Z k)%Q.
Proof.
  intros Hv. pose proof (Qabs_nonzero_pos _ Hv) as Hnz.
  unfold TimingKernel.forward_time.
  destruct (Qleb (- delta / v_rel) 0).
  - unfold floordiv. rewrite py_int_succ.
    set (n := Qfloor _ + 1).
    destruct (Qlt_le_dec v_rel 0) as [Hneg|Hpos].
    + exists (- n). rewrite (Qabs_neg v_rel) by by apply Qlt_le_weak.
      rewrite inject_Z_opp. field; repeat split; (done || lra).
    + exists n. rewrite (Qabs_pos v_rel) by done. field; repeat split; (done || lra).
  - exists 0. cbn. field; repeat split; (done || lra).
Qed.



Section KernelGeometry.
Context (X : Externals).

Lemma when_exact_solved (planet_a planet_b : Planet) (aspect : Aspect)
    (chart : HoraryChart) (pos_a pos_b : PlanetPosition) (t : Q) :
  planets chart !! planet_a = Some pos_a ->
  planets chart !! planet_b = Some pos_b ->
  (1 # 1000000 <= Qabs (TimingKernel.relative_rate pos_a pos_b))%Q ->
  TimingKernel.when_exact_in_days X planet_a planet_b aspect chart = Some t ->
  t = TimingKernel.forward_time
        (TimingKernel.delta_to_exact (default 0%Q (longitude pos_a))
           (default 0%Q (longitude pos_b)) aspect)
        (TimingKernel.relative_rate pos_a pos_b).
Proof.
  intros Ha Hb Hv. unfold TimingKernel.when_exact_in_days.
  rewrite Ha, Hb. cbv zeta. apply Qltb_ge in Hv. rewrite Hv.
  destruct (TimingKernel.enforce_sign_guard X).
  - destruct (_ || _); [done|]. by intros [= <-].
  - by intros [= <-].
Qed.

(** X1.  At the time the kernel returns, the two bodies, moved on at their
    daily rates, stand exactly at the aspect: their separation equals the
    aspect's angle or its mirror image, up to whole turns. *)
Theorem when_exact_hits_aspect (planet_a planet_b : Planet) (aspect : Aspect)
    (chart : HoraryChart) (pos_a pos_b : PlanetPosition) (t : Q) :
  planets chart !! planet_a = Some pos_a ->
  planets chart !! planet_b = Some pos_b ->
  (1 # 1000000 <= Qabs (TimingKernel.relative_rate pos_a pos_b))%Q ->
  TimingKernel.when_exact_in_days X planet_a planet_b aspect chart = Some t ->
  exists (target : Q) (k : Z),
    ((target == degrees aspect)%Q \/ (target == - degrees aspect)%Q)
    /\ (lon_at pos_b t - lon_at pos_a t - target == 360 * inject_Z k)%Q.
Proof.
  intros Ha Hb Hv Ht.
  rewrite (when_exact_solved _ _ _ _ _ _ _ Ha Hb Hv Ht). clear Ht.
  assert (Hpos : (0 < Qabs (TimingKernel.relative_rate pos_a pos_b))%Q)
    by (eapply Qlt_le_trans; [|exact Hv]; reflexivity).
  set (lon_a := default 0%Q (longitude pos_a)).
  set (lon_b := default 0%Q (longitude pos_b)).
  destruct (delta_to_exact_spec lon_a lon_b aspect)
    as [_ (target & j & Htarget & Hdelta)].
  destruct (forward_time_root (TimingKernel.delta_to_exact lon_a lon_b aspect)
              _ Hpos) as [k Hk].
  exists target, (k + j). split; [done|].
  unfold lon_at. fold lon_a lon_b.
  rewrite Hdelta in Hk at 1.
  unfold TimingKernel.relative_rate in *.
  rewrite inject_Z_plus. lra.
Qed.


End KernelGeometry.

Section KernelGeometryWorked.
Import Sample.

Lemma when_exact_hits_aspect_witness :
  exists (target : Q) (k : Z),
    ((target == degrees CONJUNCTION)%Q \/ (target == - degrees CONJUNCTION)%Q)
    /\ (lon_at (at_pos 10 1 1) (5 # 12) - lon_at (at_pos 5 13 1) (5 # 12) - target
        == 360 * inject_Z k)%Q.
Proof.
  apply (when_exact_hits_aspect sample_externals MOON SUN CONJUNCTION
           chart_new_moon (at_pos 5 13 1) (at_pos 10 1 1) (5 # 12)).
  - vm_compute. reflexivity.
  - vm_compute. reflexivity.
  - vm_compute. discriminate.
  - vm_compute. reflexivity.
Defined.


End KernelGeometryWorked.

(** ** The aspect searches *)

Section Searches.
Context (X : Externals).

Lemma all_aspects_complete (asp : Aspect) : asp ∈ all_aspects.
Proof. destruct asp; by apply (bool_decide_unpack _). Qed.

Lemma classical_complete (p : Planet) : p ∈ classical.
Proof. destruct p; by apply (bool_decide_unpack _). Qed.

Lemma find_applying_loop (chart : HoraryChart) (planet1 planet2 : Planet)
    (window_days : Z) (l seen : list Aspect) (best : option Leg) :
  applying_best X chart planet1 planet2 window_days seen best ->
  applying_best X chart planet1 planet2 window_days (seen ++ l)
    (fold_left
       (fun best aspect =>
          match TimingKernel.when_exact_in_days X planet1 planet2 aspect chart with
          | Some timing =>
              if truthy (Some timing) && Qltb 0 timing
                 && Qleb timing (inject_Z window_days)
              then
                match best with
                | Some b =>
                    if Qltb timing (leg_timing b)
                    then Some {| leg_aspect := aspect; leg_timing := timing;
                                 leg_kind := Applying; leg_target := planet2 |}
                    else best
                | None =>
                    Some {| leg_aspect := aspect; leg_timing := timing;
                            leg_kind := Applying; leg_target := planet2 |}
                end
              else best
          | None => best
          end)
       l best).
Proof.
  revert seen best. induction l as [|a l IH]; intros seen best Hinv.
  - by rewrite app_nil_r.
  - cbn [fold_left]. replace (seen ++ a :: l) with ((seen ++ [a]) ++ l)
      by (by rewrite <- app_assoc).
    apply IH. clear IH.
    assert (Hskip :
      (forall t, ~ applies_within X chart planet1 planet2 window_days a t) ->
      applying_best X chart planet1 planet2 window_days (seen ++ [a]) best).
    { intros Hno. destruct best as [b|]; cbn in *.
      - destruct Hinv as (H1 & H2 & H3 & H4 & H5). split_and!; try done.
        + apply elem_of_app. by left.
        + intros asp t Hin Hok. apply elem_of_app in Hin as [Hin|Hin].
          * by apply (H5 asp).
          * apply list_elem_of_singleton in Hin. subst. by apply Hno in Hok.
      - intros asp t Hin Hok. apply elem_of_app in Hin as [Hin|Hin].
        + by apply (Hinv asp t).
        + apply list_elem_of_singleton in Hin. subst. by apply Hno in Hok. }
    destruct (TimingKernel.when_exact_in_days X planet1 planet2 a chart)
      as [timing|] eqn:Hw.
    2: { apply Hskip. intros t (Ht & _). congruence. }
    destruct (truthy (Some timing) && Qltb 0 timing
              && Qleb timing (inject_Z window_days)) eqn:Hvalid.
    2: { apply Hskip. intros t (Ht & Hpos & Hle).
         assert (t = timing) by congruence. subst t.
         apply Qltb_lt in Hpos. apply Qleb_le in Hle.
         assert (Htr : truthy (Some timing) = true).
         { cbn. apply negb_true_iff. destruct (Qeq_bool timing 0) eqn:E; [|done].
           apply Qeq_bool_iff in E. apply Qltb_lt in Hpos. rewrite E in Hpos.
           by apply Qlt_irrefl in Hpos. }
         rewrite Htr, Hpos, Hle in Hvalid. done. }
    apply andb_prop in Hvalid as [Hvalid Hle].
    apply andb_prop in Hvalid as [_ Hpos].
    apply Qltb_lt in Hpos. apply Qleb_le in Hle.
    assert (Hok : applies_within X chart planet1 planet2 window_days a timing)
      by done.
    assert (Huniq : forall t,
              applies_within X chart planet1 planet2 window_days a t ->
              t = timing).
    { intros t (Ht & _). congruence. }
    destruct best as [b|]; cbn in Hinv.
    + destruct Hinv as (H1 & H2 & H3 & H4 & H5).
      destruct (Qltb timing (leg_timing b)) eqn:Hlt.
      * apply Qltb_lt in Hlt. cbn. split_and!; try done.
        -- apply elem_of_app. right. by apply list_elem_of_singleton.
        -- intros asp t Hin Hokt. apply elem_of_app in Hin as [Hin|Hin].
           ++ apply Qlt_le_weak. eapply Qlt_le_trans; [exact Hlt|].
              by apply (H5 asp).
           ++ apply list_elem_of_singleton in Hin. subst asp.
              rewrite (Huniq _ Hokt). apply Qle_refl.
      * apply Qltb_ge in Hlt. cbn. split_and!; try done.
        -- apply elem_of_app. by left.
        -- intros asp t Hin Hokt. apply elem_of_app in Hin as [Hin|Hin].
           ++ by apply (H5 asp).
           ++ apply list_elem_of_singleton in Hin. subst asp.
              by rewrite (Huniq _ Hokt).
    + cbn. split_and!; try done.
      * apply elem_of_app. right. by apply list_elem_of_singleton.
      * intros asp t Hin Hokt. apply elem_of_app in Hin as [Hin|Hin].
        -- by apply Hinv in Hokt.
        -- apply list_elem_of_singleton in Hin. subst asp.
           rewrite (Huniq _ Hokt). apply Qle_refl.
Qed.

(** X3.  [_find_applying_aspect] returns the earliest of the five aspects
    that complete strictly in the future and inside the window, with the
    time the kernel gives for it; it returns nothing exactly when no
    aspect does. *)
Theorem find_applying_aspect_earliest (chart : HoraryChart)
    (planet1 planet2 : Planet) (window_days : Z) :
  match EventDetector._find_applying_aspect X chart planet1 planet2
          window_days with
  | Some leg =>
      applies_within X chart planet1 planet2 window_days
        (leg_aspect leg) (leg_timing leg)
      /\ leg_target leg = planet2 /\ leg_kind leg = Applying
      /\ forall asp t,
           applies_within X chart planet1 planet2 window_days asp t ->
           (leg_timing leg <= t)%Q
  | None =>
      forall asp t, ~ applies_within X chart planet1 planet2 window_days asp t
  end.
Proof.
  pose proof (find_applying_loop chart planet1 planet2 window_days
                all_aspects [] None) as H.
  unfold EventDetector._find_applying_aspect.
  rewrite app_nil_l in H.
  destruct (fold_left _ all_aspects None) as [leg|]; cbn in H.
  - destruct H as (H1 & H2 & H3 & H4 & H5).
    + intros asp t Hin. by apply elem_of_nil in Hin.
    + split_and!; try done.
      intros asp t. apply H5, all_aspects_complete.
  - intros asp t. apply H; [|apply all_aspects_complete].
    intros asp' t' Hin. by apply elem_of_nil in Hin.
Qed.

Lemma pymod_shift_r (x m : Q) :
  (x - m * inject_Z (Qfloor (x / m)) == pymod x m)%Q.
Proof. unfold pymod. ring. Qed.

Lemma fold_left_pointwise {A B : Type} (f g : B -> A -> B) (l : list A) (b : B) :
  (forall b a, f b a = g b a) -> fold_left f l b = fold_left g l b.
Proof.
  intros H. revert b. induction l as [|a l IH]; intros b; [done|].
  cbn. by rewrite H, IH.
Qed.

Lemma earliest_fold {A C B : Type} (cand : A -> option C) (time : C -> Q)
    (mk : A -> C -> B) (btime : B -> Q) (l : list A) :
  (forall a c, btime (mk a c) = time c) ->
  match fold_left (earliest_step cand time mk btime) l None with
  | Some b =>
      exists a c,
        a ∈ l /\ cand a = Some c /\ b = mk a c
        /\ forall a' c', a' ∈ l -> cand a' = Some c' -> (time c <= time c')%Q
  | None => forall a, a ∈ l -> cand a = None
  end.
Proof.
  intros Hbt.
  assert (Hgen : forall (l seen : list A) (best : option B),
    match best with
    | Some b =>
        exists a c,
          a ∈ seen /\ cand a = Some c /\ b = mk a c
          /\ forall a' c', a' ∈ seen -> cand a' = Some c' -> (time c <= time c')%Q
    | None => forall a, a ∈ seen -> cand a = None
    end ->
    match fold_left (earliest_step cand time mk btime) l best with
    | Some b =>
        exists a c,
          a ∈ seen ++ l /\ cand a = Some c /\ b = mk a c
          /\ forall a' c', a' ∈ seen ++ l -> cand a' = Some c' ->
                            (time c <= time c')%Q
    | None => forall a, a ∈ seen ++ l -> cand a = None
    end).
  { clear l. induction l as [|x l IH]; intros seen best Hinv.
    - cbn [fold_left]. by rewrite app_nil_r.
    - cbn [fold_left].
      replace (seen ++ x :: l) with ((seen ++ [x]) ++ l)
        by (by rewrite <- app_assoc).
      apply IH. clear IH. unfold earliest_step.
      destruct (cand x) as [c|] eqn:Hc.
      + destruct best as [b|].
        * destruct Hinv as (a0 & c0 & Hin0 & Hc0 & -> & Hmin).
          rewrite Hbt. destruct (Qltb (time c) (time c0)) eqn:Hlt.
          -- apply Qltb_lt in Hlt. exists x, c. split_and!; try done.
             ++ apply elem_of_app. right. by apply list_elem_of_singleton.
             ++ intros a' c' Hin Hc'. apply elem_of_app in Hin as [Hin|Hin].
                ** apply Qlt_le_weak. eapply Qlt_le_trans; [exact Hlt|].
                   by apply (Hmin a').
                ** apply list_elem_of_singleton in Hin. subst a'.
                   assert (c' = c) by congruence. subst. apply Qle_refl.
          -- apply Qltb_ge in Hlt. exists a0, c0. split_and!; try done.
             ++ apply elem_of_app. by left.
             ++ intros a' c' Hin Hc'. apply elem_of_app in Hin as [Hin|Hin].
                ** by apply (Hmin a').
                ** apply list_elem_of_singleton in Hin. subst a'.
                   assert (c' = c) by congruence. by subst.
        * exists x, c. split_and!; try done.
          -- apply elem_of_app. right. by apply list_elem_of_singleton.
          -- intros a' c' Hin Hc'. apply elem_of_app in Hin as [Hin|Hin].
             ++ rewrite (Hinv a' Hin) in Hc'. done.
             ++ apply list_elem_of_singleton in Hin. subst a'.
                assert (c' = c) by congruence. subst. apply Qle_refl.
      + destruct best as [b|].
        * destruct Hinv as (a0 & c0 & Hin0 & Hc0 & -> & Hmin).
          exists a0, c0. split_and!; try done.
          -- apply elem_of_app. by left.
          -- intros a' c' Hin Hc'. apply elem_of_app in Hin as [Hin|Hin].
             ++ by apply (Hmin a').
             ++ apply list_elem_of_singleton in Hin. subst a'. congruence.
        * intros a Hin. apply elem_of_app in Hin as [Hin|Hin].
          -- by apply Hinv.
          -- apply list_elem_of_singleton in Hin. by subst a. }
  specialize (Hgen l [] None). rewrite app_nil_l in Hgen. apply Hgen.
  intros a Hin. by apply elem_of_nil in Hin.
Qed.

(** X4.  [_find_earliest_application] returns the earliest applying aspect
    of the planet to any classical body other than itself and the excluded
    ones, and nothing exactly when it applies to none of them. *)
Theorem find_earliest_application_earliest (chart : HoraryChart)
    (planet : Planet) (window_days : Z) (exclude : gset Planet) :
  match EventDetector._find_earliest_application X chart planet window_days
          exclude with
  | Some leg =>
      leg_target leg <> planet /\ (leg_target leg ∉ exclude)
      /\ leg_kind leg = NextApplication
      /\ (exists cand,
            EventDetector._find_applying_aspect X chart planet (leg_target leg)
              window_days = Some cand
            /\ leg_aspect cand = leg_aspect leg
            /\ leg_timing cand = leg_timing leg)
      /\ forall other cand,
           other <> planet -> other ∉ exclude ->
           EventDetector._find_applying_aspect X chart planet other window_days
           = Some cand ->
           (leg_timing leg <= leg_timing cand)%Q
  | None =>
      forall other,
        other <> planet -> other ∉ exclude ->
        EventDetector._find_applying_aspect X chart planet other window_days
        = None
  end.
Proof.
  set (cand := fun other : Planet =>
         if decide (other = planet) then None
         else if decide (other ∈ exclude) then None
         else EventDetector._find_applying_aspect X chart planet other
                window_days).
  set (mk := fun (other : Planet) (c : Leg) =>
         {| leg_aspect := leg_aspect c; leg_timing := leg_timing c;
            leg_kind := NextApplication; leg_target := other |}).
  assert (Hstep :
    EventDetector._find_earliest_application X chart planet window_days exclude
    = fold_left (earliest_step cand leg_timing mk leg_timing) classical None).
  { unfold EventDetector._find_earliest_application.
    apply fold_left_pointwise. intros best other.
    unfold earliest_step, cand, mk.
    destruct (decide (other = planet)); [done|].
    destruct (decide (other ∈ exclude)); [done|]. done. }
  rewrite Hstep.
  pose proof (earliest_fold cand leg_timing mk leg_timing classical
                (fun _ _ => eq_refl)) as H.
  destruct (fold_left _ classical None) as [leg|].
  - destruct H as (other & c & _ & Hc & -> & Hmin). unfold cand in Hc.
    destruct (decide (other = planet)); [done|].
    destruct (decide (other ∈ exclude)); [done|].
    cbn. split_and!; try done; [by exists c|].
    intros other' c' Hne Hex Hc'.
    apply (Hmin other' c'); [apply classical_complete|].
    unfold cand. destruct (decide (other' = planet)); [done|].
    by destruct (decide (other' ∈ exclude)).
  - intros other Hne Hex.
    specialize (H other (classical_complete other)). unfold cand in H.
    destruct (decide (other = planet)); [done|].
    by destruct (decide (other ∈ exclude)).
Qed.

(** X5.  [_current_direct_route] returns the earliest of the five aspects
    between the significators that completes inside the window, and names
    the body with the larger absolute rate the applier (the querent on a
    tie); it returns nothing exactly when no aspect completes inside the
    window. *)
Theorem current_direct_route_earliest (chart : HoraryChart)
    (querent quesited : Planet) (window_days : Z) :
  match TimingKernel._current_direct_route X chart querent quesited
          window_days with
  | Some r =>
      TimingKernel.when_exact_in_days X querent quesited (route_aspect r) chart
      = Some (route_timing r)
      /\ (route_timing r <= inject_Z window_days)%Q
      /\ (forall asp t,
            TimingKernel.when_exact_in_days X querent quesited asp chart
            = Some t ->
            (t <= inject_Z window_days)%Q -> (route_timing r <= t)%Q)
      /\ ((route_applier r = querent /\ route_receiver r = quesited
           /\ (abs_rate chart quesited <= abs_rate chart querent)%Q)
          \/ (route_applier r = quesited /\ route_receiver r = querent
              /\ (abs_rate chart querent < abs_rate chart quesited)%Q))
  | None =>
      forall asp t,
        TimingKernel.when_exact_in_days X querent quesited asp chart = Some t ->
        (inject_Z window_days < t)%Q
  end.
Proof.
  set (cand := fun asp : Aspect =>
         match TimingKernel.when_exact_in_days X querent quesited asp chart with
         | Some t => if Qgtb t (inject_Z window_days) then None else Some t
         | None => None
         end).
  set (sp_q := Qabs (TimingKernel._get_daily_motion (planets chart !! querent))).
  set (sp_e := Qabs (TimingKernel._get_daily_motion (planets chart !! quesited))).
  set (mk := fun (asp : Aspect) (t : Q) =>
         let '(applier, receiver) :=
           if Qgeb sp_q sp_e then (querent, quesited) else (quesited, querent) in
         {| route_aspect := asp; route_timing := t;
            route_applier := applier; route_receiver := receiver |}).
  assert (Hmk : forall asp t, route_timing (mk asp t) = t).
  { intros asp t. unfold mk. by destruct (Qgeb sp_q sp_e). }
  assert (Hstep :
    TimingKernel._current_direct_route X chart querent quesited window_days
    = fold_left (earliest_step cand id mk route_timing) all_aspects None).
  { unfold TimingKernel._current_direct_route.
    apply fold_left_pointwise. intros best asp.
    unfold earliest_step, cand.
    destruct (TimingKernel.when_exact_in_days X querent quesited asp chart)
      as [t|]; [|done].
    destruct (Qgtb t (inject_Z window_days)); [done|].
    fold sp_q sp_e. unfold mk, id.
    destruct (Qgeb sp_q sp_e); cbn; by destruct best. }
  rewrite Hstep.
  pose proof (earliest_fold cand id mk route_timing all_aspects Hmk) as H.
  destruct (fold_left _ all_aspects None) as [r|].
  - destruct H as (asp & t & _ & Hc & -> & Hmin). unfold cand in Hc.
    destruct (TimingKernel.when_exact_in_days X querent quesited asp chart)
      as [t0|] eqn:Hw; [|done].
    destruct (Qgtb t0 (inject_Z window_days)) eqn:Hgt; [done|].
    injection Hc as ->. apply Qltb_ge in Hgt.
    rewrite Hmk. split_and!.
    + unfold mk. by destruct (Qgeb sp_q sp_e).
    + done.
    + intros asp' t' Hw' Hle'.
      apply (Hmin asp' t'); [apply all_aspects_complete|].
      unfold cand. rewrite Hw'.
      destruct (Qgtb t' (inject_Z window_days)) eqn:Hgt'; [|done].
      apply Qltb_lt in Hgt'. exfalso. eapply Qlt_not_le; eauto.
    + unfold mk. destruct (Qgeb sp_q sp_e) eqn:Hsp.
      * left. split_and!; try done. by apply Qle_bool_iff in Hsp.
      * right. split_and!; try done. by apply Qleb_gt in Hsp.
  - intros asp t Hw.
    specialize (H asp (all_aspects_complete asp)). unfold cand in H.
    rewrite Hw in H.
    destruct (Qgtb t (inject_Z window_days)) eqn:Hgt; [|done].
    by apply Qltb_lt in Hgt.
Qed.

Lemma targets_mirror (asp : Aspect) (t0 : Q) (ts : list Q) (t : Q) :
  TimingKernel.targets (degrees asp) = (t0, ts) ->
  t ∈ t0 :: ts ->
  (t == degrees asp)%Q \/ (t == - degrees asp)%Q.
Proof.
  intros Ht Hin. destruct asp; vm_compute in Ht; injection Ht as <- <-;
    repeat (apply elem_of_cons in Hin as [->|Hin]);
    try (by apply elem_of_nil in Hin);
    try (by left); by right.
Qed.

Lemma fold_left_invariant {A B : Type} (P : B -> Prop) (f : B -> A -> B)
    (l : list A) (b : B) :
  P b -> (forall b a, a ∈ l -> P b -> P (f b a)) -> P (fold_left f l b).
Proof.
  revert b. induction l as [|x l IH]; intros b Hb Hf; [done|].
  cbn. apply IH.
  - apply Hf; [left | done].
  - intros b' a Hin. apply Hf. by right.
Qed.

(** X6.  A separating leg found by [_find_separating_aspect] lies in the
    past, no further back than the window, and is genuine: moved back by
    that many days at their daily rates, the two bodies stood exactly at
    the leg's aspect (its angle or the mirror image, up to whole turns). *)
Theorem find_separating_aspect_genuine (chart : HoraryChart)
    (planet1 planet2 : Planet) (window_days : Z)
    (pos1 pos2 : PlanetPosition) (leg : Leg) :
  planets chart !! planet1 = Some pos1 ->
  planets chart !! planet2 = Some pos2 ->
  EventDetector._find_separating_aspect chart planet1 planet2 window_days
  = Some leg ->
  leg_target leg = planet2 /\ leg_kind leg = Separating
  /\ (- inject_Z window_days <= leg_timing leg)%Q /\ (leg_timing leg < 0)%Q
  /\ exists (target : Q) (k : Z),
       ((target == degrees (leg_aspect leg))%Q
        \/ (target == - degrees (leg_aspect leg))%Q)
       /\ (lon_at pos2 (leg_timing leg) - lon_at pos1 (leg_timing leg) - target
           == 360 * inject_Z k)%Q.
Proof.
  intros H1 H2. unfold EventDetector._find_separating_aspect.
  rewrite H1, H2.
  set (lon1 := default 0%Q (longitude pos1)).
  set (lon2 := default 0%Q (longitude pos2)).
  set (delta := pymod (lon2 - lon1) 360).
  set (v_rel := (EventDetector._get_daily_motion (Some pos2)
                 - EventDetector._get_daily_motion (Some pos1))%Q).
  destruct (Qltb (Qabs v_rel) (1 # 1000000)) eqn:Hv; [done|].
  apply Qltb_ge in Hv.
  assert (Hnz : ~ (v_rel == 0)%Q).
  { intros E. rewrite E in Hv. vm_compute in Hv. by apply Hv. }
  set (good := fun best : option Leg =>
    match best with
    | None => True
    | Some leg =>
        leg_target leg = planet2 /\ leg_kind leg = Separating
        /\ (- inject_Z window_days <= leg_timing leg)%Q
        /\ (leg_timing leg < 0)%Q
        /\ exists (target : Q) (k : Z),
             ((target == degrees (leg_aspect leg))%Q
              \/ (target == - degrees (leg_aspect leg))%Q)
             /\ (lon_at pos2 (leg_timing leg) - lon_at pos1 (leg_timing leg)
                 - target == 360 * inject_Z k)%Q
    end).
  intros Hres.
  match type of Hres with
  | fold_left ?f ?l ?b = _ =>
      assert (Hgood : good (fold_left f l b))
  end.
  2: { rewrite Hres in Hgood. exact Hgood. }
  clear Hres. apply fold_left_invariant; [done|].
  intros best asp _ Hbest.
  destruct (TimingKernel.targets (degrees asp)) as [t0 ts] eqn:Ht.
  apply fold_left_invariant; [done|].
  intros best' target Hin Hbest'.
  pose proof (targets_mirror asp t0 ts target Ht Hin) as Hmirror.
  set (dt := if Qgtb v_rel 0
             then (pymod (delta - target) 360 / v_rel)%Q
             else (pymod (target - delta) 360 / - v_rel)%Q).
  destruct (Qltb 0 dt && Qleb dt (inject_Z window_days)) eqn:Hok; [|done].
  apply andb_prop in Hok as [Hpos Hle].
  apply Qltb_lt in Hpos. apply Qleb_le in Hle.
  assert (Hcand : good (Some {| leg_aspect := asp; leg_timing := (- dt)%Q;
                                leg_kind := Separating;
                                leg_target := planet2 |})).
  { cbn. split_and!; try done; try lra.
    assert (Hgeo : exists j : Z,
              (v_rel * dt == delta - target - 360 * inject_Z j)%Q).
    { unfold dt. destruct (Qgtb v_rel 0) eqn:Hsign.
      - exists (Qfloor ((delta - target) / 360)).
        rewrite <- pymod_shift_r. field. done.
      - exists (- Qfloor ((target - delta) / 360)).
        rewrite inject_Z_opp.
        assert (E : (v_rel * (pymod (target - delta) 360 / - v_rel)
                     == - pymod (target - delta) 360)%Q) by (field; done).
        rewrite E, pymod_shift. ring. }
    destruct Hgeo as [j Hj].
    exists target, (Qfloor ((lon2 - lon1) / 360) + j). split; [done|].
    unfold lon_at. fold lon1 lon2.
    change (TimingKernel._get_daily_motion (Some pos2)
            * - dt)%Q with (EventDetector._get_daily_motion (Some pos2) * - dt)%Q.
    change (TimingKernel._get_daily_motion (Some pos1)
            * - dt)%Q with (EventDetector._get_daily_motion (Some pos1) * - dt)%Q.
    assert (Hd : (delta == lon2 - lon1
                            - inject_Z (Qfloor ((lon2 - lon1) / 360)) * 360)%Q)
      by apply pymod_shift.
    unfold v_rel in Hj. rewrite inject_Z_plus.
    set (m2 := EventDetector._get_daily_motion (Some pos2)) in *.
    set (m1 := EventDetector._get_daily_motion (Some pos1)) in *.
    assert (E : (lon2 + m2 * - dt - (lon1 + m1 * - dt) - target
                 == lon2 - lon1 - (m2 - m1) * dt - target)%Q) by ring.
    rewrite E, Hj, Hd. ring. }
  destruct best' as [b|]; [|exact Hcand].
  destruct (Qltb dt (- leg_timing b)); [exact Hcand | exact Hbest'].
Qed.

End Searches.

Section SearchesWorked.
Import Sample.

Lemma find_separating_aspect_genuine_witness :
  let leg := {| leg_aspect := CONJUNCTION; leg_timing := (-11 # 11)%Q;
                leg_kind := Separating; leg_target := MARS |} in
  leg_target leg = MARS /\ leg_kind leg = Separating
  /\ (- inject_Z 30 <= leg_timing leg)%Q /\ (leg_timing leg < 0)%Q
  /\ exists (target : Q) (k : Z),
       ((target == degrees (leg_aspect leg))%Q
        \/ (target == - degrees (leg_aspect leg))%Q)
       /\ (lon_at (at_pos 100 1 4) (leg_timing leg)
           - lon_at (at_pos (100 + 11) 12 4) (leg_timing leg) - target
           == 360 * inject_Z k)%Q.
Proof.
  apply (find_separating_aspect_genuine (chart_translation 11) MOON MARS 30
           (at_pos (100 + 11) 12 4) (at_pos 100 1 4)).
  - vm_compute. reflexivity.
  - vm_compute. reflexivity.
  - vm_compute. reflexivity.
Defined.

End SearchesWorked.

(** ** De-duplication as a whole *)

Section DeduplicationWhole.

Local Abbreviation key := event_key.

Lemma dedup_fold_inv (l : list PerfectionEvent)
    (st : gset EventKey * list PerfectionEvent) :
  dedup_inv st -> dedup_inv (fold_left EventDetector.dedup_step l st).
Proof.
  revert st. induction l as [|e l IH]; intros st Hinv; [done|].
  cbn [fold_left]. by apply IH, dedup_step_inv.
Qed.

Lemma with_key_elem (k : EventKey) (l : list PerfectionEvent)
    (e : PerfectionEvent) :
  e ∈ with_key k l <-> e ∈ l /\ key e = k.
Proof.
  unfold with_key. rewrite !list_elem_of_In, filter_In.
  by rewrite bool_decide_eq_true.
Qed.

Lemma unique_keys_NoDup (u : list PerfectionEvent) :
  (forall k, (length (with_key k u) <= 1)%nat) -> NoDup (map key u).
Proof.
  induction u as [|x u IH]; intros H; [constructor|].
  cbn. constructor.
  - intros Hin. apply list_elem_of_fmap in Hin as (y & Hk & Hy).
    specialize (H (key x)). rewrite with_key_cons in H.
    destruct (decide (key x = key x)); [|done]. cbn in H.
    assert (Hy' : y ∈ with_key (key x) u) by (apply with_key_elem; done).
    destruct (with_key (key x) u); [by apply elem_of_nil in Hy'|].
    cbn in H. lia.
  - apply IH. intros k. specialize (H k). rewrite with_key_cons in H.
    destruct (decide (key x = k)); cbn in H; lia.
Qed.

Lemma merge_slot_fold_origin (k : EventKey) (l : list PerfectionEvent)
    (slot : option PerfectionEvent) (x : PerfectionEvent) :
  fold_left (merge_slot k) l slot = Some x ->
  slot = Some x \/ (x ∈ l /\ key x = k).
Proof.
  revert slot. induction l as [|e l IH]; intros slot H; [by left|].
  cbn [fold_left] in H. apply IH in H as [H|[H1 H2]].
  - unfold merge_slot in H. destruct (decide (key e = k)) as [E|E]; [|by left].
    destruct slot as [cur|].
    + injection H as H. unfold richer in H.
      destruct (_ <? _)%nat; subst; [right; split; [left | done] | by left].
    + injection H as ->. right. split; [left | done].
  - right. split; [by right | done].
Qed.

Lemma merge_slot_fold_richest (k : EventKey) (l : list PerfectionEvent)
    (slot : option PerfectionEvent) (e : PerfectionEvent) :
  (e ∈ l /\ key e = k) \/ slot = Some e ->
  exists x,
    fold_left (merge_slot k) l slot = Some x
    /\ (size (metadata e) <= size (metadata x))%nat.
Proof.
  revert slot e. induction l as [|y l IH]; intros slot e H.
  - destruct H as [[H _]| ->]; [by apply elem_of_nil in H|]. eauto.
  - cbn [fold_left]. destruct H as [[Hin Hk]| ->].
    + apply elem_of_cons in Hin as [-> |Hin].
      * unfold merge_slot at 2. destruct (decide (key y = k)); [|done].
        destruct slot as [cur|].
        -- destruct (IH (Some (richer cur y)) (richer cur y)) as (x & Hx & Hle);
             [by right|].
           exists x. split; [done|]. etrans; [|exact Hle].
           unfold richer. destruct (_ <? _)%nat eqn:E; [done|].
           apply Nat.ltb_ge in E. done.
        -- apply IH. by right.
      * apply IH. by left.
    + unfold merge_slot at 2. destruct (decide (key y = k)).
      * destruct (IH (Some (richer e y)) (richer e y)) as (x & Hx & Hle);
          [by right|].
        exists x. split; [done|]. etrans; [|exact Hle].
        unfold richer. destruct (_ <? _)%nat eqn:E; [|done].
        apply Nat.ltb_lt in E. lia.
      * apply IH. by right.
Qed.

Lemma deduplicate_NoDup_keys (l : list PerfectionEvent) :
  NoDup (map event_key (EventDetector._deduplicate_events l)).
Proof.
  apply unique_keys_NoDup. intros k.
  pose proof (dedup_fold_inv l (∅, []) dedup_inv_init k) as [_ H]. exact H.
Qed.

Lemma deduplicate_elem (l : list PerfectionEvent) (e : PerfectionEvent) :
  e ∈ EventDetector._deduplicate_events l -> e ∈ l.
Proof.
  intros He.
  assert (Hw : e ∈ with_key (key e) (EventDetector._deduplicate_events l))
    by (by apply with_key_elem).
  rewrite deduplicate_slot in Hw.
  destruct (fold_left _ l None) as [x|] eqn:Hf;
    [|by apply elem_of_nil in Hw].
  apply list_elem_of_singleton in Hw. subst x.
  apply merge_slot_fold_origin in Hf as [Hf|[Hf _]]; done.
Qed.

Lemma deduplicate_keeps_key (l : list PerfectionEvent) (e : PerfectionEvent) :
  e ∈ l ->
  exists x,
    x ∈ EventDetector._deduplicate_events l
    /\ event_key x = event_key e
    /\ (size (metadata e) <= size (metadata x))%nat.
Proof.
  intros He.
  destruct (merge_slot_fold_richest (key e) l None e) as (x & Hx & Hle);
    [by left|].
  exists x.
  assert (Hw : x ∈ with_key (key e) (EventDetector._deduplicate_events l)).
  { rewrite deduplicate_slot, Hx. by left. }
  apply with_key_elem in Hw as [Hin Hk]. done.
Qed.

(** X7.  [_deduplicate_events] returns events of its input, no two of them
    with the same key, and keeps, for every event of the input, an event
    of the same key that carries at least as many metadata entries. *)
Theorem deduplicate_selects_richest (l : list PerfectionEvent) :
  NoDup (map event_key (EventDetector._deduplicate_events l))
  /\ (forall e, e ∈ EventDetector._deduplicate_events l -> e ∈ l)
  /\ (forall e, e ∈ l ->
        exists x,
          x ∈ EventDetector._deduplicate_events l
          /\ event_key x = event_key e
          /\ (size (metadata e) <= size (metadata x))%nat).
Proof.
  split_and!.
  - apply deduplicate_NoDup_keys.
  - intros e. apply deduplicate_elem.
  - intros e. apply deduplicate_keeps_key.
Qed.

Lemma replace_duplicate_absent (event : PerfectionEvent)
    (u : list PerfectionEvent) :
  (forall x, x ∈ u -> key x <> key event) ->
  EventDetector.replace_duplicate event u = u.
Proof.
  induction u as [|y u IH]; intros H; [done|].
  rewrite replace_duplicate_cons.
  destruct (decide (key y = key event)) as [E|E].
  - exfalso. apply (H y); [left | done].
  - f_equal. apply IH. intros x Hx. apply H. by right.
Qed.

Lemma dedup_fold_distinct (l : list PerfectionEvent)
    (seen : gset EventKey) (u : list PerfectionEvent) :
  NoDup (map key l) ->
  (forall e, e ∈ l -> key e ∉ seen) ->
  (fold_left EventDetector.dedup_step l (seen, u)).2 = u ++ l.
Proof.
  revert seen u. induction l as [|e l IH]; intros seen u Hnd Hfresh.
  - cbn. by rewrite app_nil_r.
  - cbn [fold_left EventDetector.dedup_step].
    destruct (decide (key e ∈ seen)) as [Hin|Hnin].
    + exfalso. apply (Hfresh e); [left | done].
    + cbn in Hnd. apply NoDup_cons in Hnd as [Hne Hnd].
      rewrite IH; [by rewrite <- app_assoc | done |].
      intros x Hx. rewrite elem_of_union, elem_of_singleton.
      intros [Hk|Hs].
      * apply Hne. rewrite <- Hk. apply list_elem_of_fmap. eauto.
      * apply (Hfresh x); [by right | done].
Qed.

(** A list without duplicate keys passes through unchanged. *)
Lemma deduplicate_distinct (l : list PerfectionEvent) :
  NoDup (map event_key l) -> EventDetector._deduplicate_events l = l.
Proof.
  intros Hnd. unfold EventDetector._deduplicate_events.
  rewrite dedup_fold_distinct; [done | done |].
  intros e _. apply not_elem_of_empty.
Qed.

(** X8.  De-duplicating twice changes nothing more. *)
Theorem deduplicate_idempotent (l : list PerfectionEvent) :
  EventDetector._deduplicate_events (EventDetector._deduplicate_events l)
  = EventDetector._deduplicate_events l.
Proof. apply deduplicate_distinct, deduplicate_NoDup_keys. Qed.

End DeduplicationWhole.

(** ** Sorting by priority *)

Section Sorting.

Lemma Qinf_ltb_lt (a b : Qinf) : Qinf_ltb a b = true <-> Qinf_lt a b.
Proof.
  destruct a as [x|], b as [y|]; cbn; try (by rewrite Qltb_lt); split; done.
Qed.

Lemma Qinf_eqb_eq (a b : Qinf) : Qinf_eqb a b = true <-> Qinf_eq a b.
Proof.
  destruct a as [x|], b as [y|]; cbn; try (by rewrite Qeq_bool_iff); split; done.
Qed.

Lemma sort_key_ltb_spec (a b : Qinf * Z * nat) :
  EventDetector.sort_key_ltb a b = true <-> key_lt a b.
Proof.
  destruct a as [[t1 p1] c1], b as [[t2 p2] c2].
  unfold EventDetector.sort_key_ltb, key_lt.
  rewrite orb_true_iff, andb_true_iff, orb_true_iff, andb_true_iff.
  by rewrite Qinf_ltb_lt, Qinf_eqb_eq, Z.ltb_lt, Z.eqb_eq, Nat.ltb_lt.
Qed.

Lemma sort_key_ltb_false (a b : Qinf * Z * nat) :
  EventDetector.sort_key_ltb a b = false <-> ~ key_lt a b.
Proof.
  rewrite <- sort_key_ltb_spec. by destruct (EventDetector.sort_key_ltb a b).
Qed.

Local Ltac q_cases x y z :=
  destruct (Q_dec x y) as [[?|?]|?], (Q_dec y z) as [[?|?]|?],
           (Q_dec x z) as [[?|?]|?];
  try (exfalso; lra); try (intuition (first [lra | lia])).

(** From [~ (A \/ (E /\ B))] with [E] at hand, keep [~ B]. *)
Local Ltac drop_timing H :=
  match type of H with
  | ~ (_ \/ (_ /\ ?B)) =>
      let H' := fresh in
      assert (H' : ~ B) by (intros ?; apply H; right; split; [lra | done]);
      clear H
  end.

Lemma key_lt_irrefl (a : Qinf * Z * nat) : ~ key_lt a a.
Proof.
  destruct a as [[[x|] p] c]; cbn; [|intuition lia].
  intros [H|[_ H]]; [by apply Qlt_irrefl in H | lia].
Qed.

(** "Not smaller" is transitive, and "smaller" passes through it. *)
Lemma key_ge_trans (a b c : Qinf * Z * nat) :
  ~ key_lt b a -> ~ key_lt c b -> ~ key_lt c a.
Proof.
  destruct a as [[[x|] p] m], b as [[[y|] q] n], c as [[[z|] r] o]; cbn;
    try (intuition lia).
  q_cases x y z.
  intros H1 H2 [H3|[_ H3]]; [lra|]. drop_timing H1. drop_timing H2. lia.
Qed.

Lemma key_lt_ge_trans (a b c : Qinf * Z * nat) :
  key_lt a b -> ~ key_lt c b -> key_lt a c.
Proof.
  destruct a as [[[x|] p] m], b as [[[y|] q] n], c as [[[z|] r] o]; cbn;
    try (intuition lia).
  q_cases x y z.
  intros [H1|[_ H1]] H2; [lra|]. drop_timing H2. right. split; [done|]. lia.
Qed.

Lemma key_lt_asym (a b : Qinf * Z * nat) : key_lt a b -> ~ key_lt b a.
Proof.
  destruct a as [[[x|] p] m], b as [[[y|] q] n]; cbn; try (intuition lia).
  destruct (Q_dec x y) as [[?|?]|?]; intuition (first [lra | lia]).
Qed.

Lemma key_not_after_trans (x y z : PerfectionEvent) :
  key_not_after x y -> key_not_after y z -> key_not_after x z.
Proof.
  unfold key_not_after. rewrite !sort_key_ltb_false.
  intros H1 H2. by apply (key_ge_trans _ (EventDetector.sort_key y)).
Qed.

Lemma insert_by_key_perm (x : PerfectionEvent) (l : list PerfectionEvent) :
  Permutation (EventDetector.insert_by_key x l) (x :: l).
Proof.
  induction l as [|y l IH]; [done|]. cbn [EventDetector.insert_by_key].
  destruct (EventDetector.sort_key_ltb (EventDetector.sort_key y)
                                       (EventDetector.sort_key x)); [|done].
  rewrite IH. apply perm_swap.
Qed.

Lemma insert_by_key_sorted (x : PerfectionEvent) (l : list PerfectionEvent) :
  StronglySorted key_not_after l ->
  StronglySorted key_not_after (EventDetector.insert_by_key x l).
Proof.
  induction l as [|y l IH]; intros Hs.
  - repeat constructor.
  - apply StronglySorted_inv in Hs as [Hs Hy].
    cbn [EventDetector.insert_by_key].
    destruct (EventDetector.sort_key_ltb (EventDetector.sort_key y)
                                         (EventDetector.sort_key x)) eqn:Hlt.
    + constructor; [by apply IH|].
      rewrite (insert_by_key_perm x l). constructor; [|done].
      unfold key_not_after. apply sort_key_ltb_false.
      apply key_lt_asym. by apply sort_key_ltb_spec.
    + constructor; [by constructor|].
      constructor; [exact Hlt|].
      eapply Forall_impl; [exact Hy|]. intros z Hz.
      by apply (key_not_after_trans x y z).
Qed.

(** X9.  [_sort_events_by_priority] rearranges its input, losing and adding
    nothing, so that no event is followed by one with a strictly smaller
    key (timing with zero and absent read as infinity, then family
    priority, then number of challenges). *)
Theorem sort_events_sorted_permutation (l : list PerfectionEvent) :
  Permutation (EventDetector._sort_events_by_priority l) l
  /\ StronglySorted key_not_after (EventDetector._sort_events_by_priority l).
Proof.
  unfold EventDetector._sort_events_by_priority.
  induction l as [|x l [IHp IHs]]; cbn [foldr].
  - split; constructor.
  - split.
    + rewrite insert_by_key_perm. by constructor.
    + by apply insert_by_key_sorted.
Qed.

End Sorting.

(** ** De-confliction *)

Section Deconfliction.

Lemma existsb_false {A : Type} (f : A -> bool) (l : list A) :
  existsb f l = false <-> forall x, In x l -> f x = false.
Proof.
  split.
  - intros H x Hx. destruct (f x) eqn:E; [|done].
    assert (existsb f l = true) by (apply existsb_exists; eauto). congruence.
  - intros H. destruct (existsb f l) eqn:E; [|done].
    apply existsb_exists in E as (x & Hx & Hfx). rewrite (H x Hx) in Hfx. done.
Qed.

Lemma filter_sublist {A : Type} (f : A -> bool) (l : list A) :
  sublist (List.filter f l) l.
Proof.
  induction l as [|x l IH]; cbn; [constructor|].
  destruct (f x); by constructor.
Qed.

(** X10.  [_deconflict_same_time] keeps the events in their order and
    drops exactly the prohibition, abscission, refranation and frustration
    events whose timing lies within [eps] of the timing of a positive event
    of the list; every other event stays. *)
Theorem deconflict_drops_coinciding_denials (l : list PerfectionEvent)
    (eps : Q) :
  sublist (EventDetector._deconflict_same_time l eps) l
  /\ forall e,
       e ∈ EventDetector._deconflict_same_time l eps
       <-> e ∈ l
           /\ (EventDetector.is_blocking e = true ->
               forall t p tp,
                 exact_in_days e = Some t ->
                 p ∈ l -> is_positive p = true -> exact_in_days p = Some tp ->
                 (eps < Qabs (tp - t))%Q).
Proof.
  split; [apply filter_sublist|].
  intros e. unfold EventDetector._deconflict_same_time.
  rewrite !list_elem_of_In, filter_In.
  split; intros [Hin H]; (split; [done|]).
  - intros Hb t p tp Ht Hp Hpos Htp.
    rewrite Hb, Ht in H. cbn in H. apply negb_true_iff in H.
    rewrite existsb_false in H.
    specialize (H p). apply Qleb_gt. rewrite <- H.
    + by rewrite Htp.
    + apply filter_In. rewrite <- list_elem_of_In, Hpos, Htp. done.
  - destruct (EventDetector.is_blocking e) eqn:Hb; [|done]. cbn.
    destruct (exact_in_days e) as [t|] eqn:Ht; [|done].
    apply negb_true_iff, existsb_false. intros p Hp.
    apply filter_In in Hp as [Hp Hpp]. apply andb_prop in Hpp as [Hpos Hsome].
    destruct (exact_in_days p) as [tp|] eqn:Htp; [|done]. cbn.
    apply Qleb_gt. apply (H eq_refl t p tp); try done.
    by apply list_elem_of_In.
Qed.

End Deconfliction.

(** ** The chooser *)

Section Chooser.

Lemma py_min_elem {A K : Type} (ltb : K -> K -> bool) (f : A -> K)
    (l : list A) (x : A) :
  py_min ltb f l = Some x -> x ∈ l.
Proof.
  destruct l as [|y l]; [done|]. cbn. intros [= <-].
  destruct (min_by_cases ltb f y l) as [-> | H]; [left | by right].
Qed.

Lemma py_min_none {A K : Type} (ltb : K -> K -> bool) (f : A -> K)
    (l : list A) :
  py_min ltb f l = None -> l = [].
Proof. by destruct l. Qed.

Lemma filter_elem (f : PerfectionEvent -> bool) (l : list PerfectionEvent)
    (x : PerfectionEvent) :
  x ∈ List.filter f l <-> x ∈ l /\ f x = true.
Proof. by rewrite !list_elem_of_In, filter_In. Qed.

Lemma filter_nil_none (f : PerfectionEvent -> bool)
    (l : list PerfectionEvent) (x : PerfectionEvent) :
  List.filter f l = [] -> x ∈ l -> f x = false.
Proof.
  intros H Hx. destruct (f x) eqn:E; [|done].
  assert (x ∈ List.filter f l) by (by apply filter_elem).
  rewrite H in *. by apply elem_of_nil in H0.
Qed.

(** X11.  [select_primary_perfection] answers nothing only for the empty
    list; otherwise it returns an event of the list, and families rank:
    when a positive event exists the answer is a positive or a prohibition,
    a denial is returned only when there is neither, and any other event
    only when there is no positive, prohibition or denial at all. *)
Theorem select_primary_ranks_families (l : list PerfectionEvent) :
  match PerfectionChooser.select_primary_perfection l with
  | None => l = []
  | Some r =>
      r ∈ l
      /\ (is_positive r = true \/ PerfectionChooser.is_prohibition r = true
          \/ (PerfectionChooser.is_denial r = true
              /\ forall e, e ∈ l ->
                   is_positive e = false
                   /\ PerfectionChooser.is_prohibition e = false)
          \/ (forall e, e ∈ l ->
                is_positive e = false
                /\ PerfectionChooser.is_prohibition e = false
                /\ PerfectionChooser.is_denial e = false))
  end.
Proof.
  unfold PerfectionChooser.select_primary_perfection.
  destruct l as [|e0 l0]; [done|]. set (l := e0 :: l0).
  cbv zeta. unfold PerfectionChooser.earliest.
  destruct (py_min _ _ (List.filter PerfectionChooser.is_prohibition l))
    as [proh|] eqn:Hproh.
  - apply py_min_elem, filter_elem in Hproh as [Hproh_in Hproh_ty].
    destruct (py_min _ _ (List.filter is_positive l)) as [pos|] eqn:Hpos.
    + apply py_min_elem, filter_elem in Hpos as [Hpos_in Hpos_ty].
      destruct (Qinf_ltb _ _); split; auto.
    + split; auto.
  - apply py_min_none in Hproh.
    destruct (py_min _ _ (List.filter is_positive l)) as [pos|] eqn:Hpos.
    + apply py_min_elem, filter_elem in Hpos as [Hpos_in Hpos_ty].
      split; auto.
    + apply py_min_none in Hpos.
      destruct (py_min _ _ (List.filter PerfectionChooser.is_denial l))
        as [den|] eqn:Hden.
      * apply py_min_elem, filter_elem in Hden as [Hden_in Hden_ty].
        split; [done|]. right. right. left. split; [done|].
        intros e He. split; by eapply filter_nil_none.
      * apply py_min_none in Hden.
        destruct (py_min _ _ l) as [r|] eqn:Hr; [|done].
        apply py_min_elem in Hr. split; [done|]. right. right. right.
        intros e He. split_and!; by eapply filter_nil_none.
Qed.

Lemma min_by_minimal {A K : Type} (ltb : K -> K -> bool) (f : A -> K)
    (best : A) (l : list A) :
  (forall a, ltb a a = false) ->
  (forall a b, ltb a b = true -> ltb b a = false) ->
  (forall a b c, ltb b a = false -> ltb c b = false -> ltb c a = false) ->
  forall y, y ∈ best :: l -> ltb (f y) (f (min_by ltb f best l)) = false.
Proof.
  intros Hirr Hasym Htrans.
  assert (Hgen : forall (l seen : list A) (best : A),
            (forall y, y ∈ seen -> ltb (f y) (f best) = false) ->
            forall y, y ∈ seen ++ l ->
                      ltb (f y) (f (min_by ltb f best l)) = false).
  { clear l best. induction l as [|x l IH]; intros seen best Hseen y Hy.
    - rewrite app_nil_r in Hy. by apply Hseen.
    - cbn [min_by].
      replace (seen ++ x :: l) with ((seen ++ [x]) ++ l) in Hy
        by (by rewrite <- app_assoc).
      apply (IH (seen ++ [x])); [|done].
      intros z Hz. apply elem_of_app in Hz as [Hz|Hz].
      + destruct (ltb (f x) (f best)) eqn:Hlt; [|by apply Hseen].
        apply (Htrans _ (f best)); [by apply Hasym | by apply Hseen].
      + apply list_elem_of_singleton in Hz. subst z.
        destruct (ltb (f x) (f best)) eqn:Hlt; [apply Hirr | done]. }
  intros y Hy. apply (Hgen l [best] best); [|done].
  intros z Hz. apply list_elem_of_singleton in Hz. subst z. apply Hirr.
Qed.

Lemma Qinf_lt_irrefl (a : Qinf) : ~ Qinf_lt a a.
Proof. destruct a as [x|]; cbn; [apply Qlt_irrefl | tauto]. Qed.

Lemma Qinf_lt_asym (a b : Qinf) : Qinf_lt a b -> ~ Qinf_lt b a.
Proof. destruct a as [x|], b as [y|]; cbn; intros; try done; lra. Qed.

Lemma Qinf_ge_trans (a b c : Qinf) :
  ~ Qinf_lt b a -> ~ Qinf_lt c b -> ~ Qinf_lt c a.
Proof.
  destruct a as [x|], b as [y|], c as [z|]; cbn; intros; try done; try tauto;
    lra.
Qed.

Lemma Qinf_lt_ge_trans (a b c : Qinf) :
  Qinf_lt a b -> ~ Qinf_lt c b -> Qinf_lt a c.
Proof.
  destruct a as [x|], b as [y|], c as [z|]; cbn; intros; try done; try tauto;
    lra.
Qed.

Lemma Qinf_ltb_false (a b : Qinf) : Qinf_ltb a b = false <-> ~ Qinf_lt a b.
Proof. rewrite <- Qinf_ltb_lt. by destruct (Qinf_ltb a b). Qed.

Lemma Qeq_bool_false (x y : Q) : ~ (x == y)%Q -> Qeq_bool x y = false.
Proof.
  intros H. destruct (Qeq_bool x y) eqn:E; [|done].
  by apply Qeq_bool_iff in E.
Qed.

(** On events whose timing is not zero the chooser's key orders by timing,
    an absent timing last. *)
Lemma earliest_key_by_timing (a b : PerfectionEvent) :
  nonzero_timing a -> nonzero_timing b ->
  PerfectionChooser.earliest_key_ltb (PerfectionChooser.earliest_key a)
                                     (PerfectionChooser.earliest_key b)
  = Qinf_ltb (timing_inf a) (timing_inf b).
Proof.
  unfold nonzero_timing, PerfectionChooser.earliest_key, timing_inf.
  unfold PerfectionChooser.earliest_key_ltb, or_inf.
  intros Ha Hb.
  destruct (exact_in_days a) as [x|], (exact_in_days b) as [y|].
  - rewrite (Qeq_bool_false x 0), (Qeq_bool_false y 0);
      [done | by apply Hb | by apply Ha].
  - rewrite (Qeq_bool_false x 0); [done | by apply Ha].
  - by destruct (Qeq_bool y 0).
  - done.
Qed.

Lemma or_inf_timing (e : PerfectionEvent) :
  nonzero_timing e -> or_inf (exact_in_days e) = timing_inf e.
Proof.
  unfold nonzero_timing, timing_inf, or_inf. intros H.
  destruct (exact_in_days e) as [x|]; [|done].
  rewrite (Qeq_bool_false x 0); [done | by apply H].
Qed.

Lemma earliest_key_ltb_irrefl (a : bool * Qinf) :
  PerfectionChooser.earliest_key_ltb a a = false.
Proof.
  destruct a as [[|] t]; cbn; apply Qinf_ltb_false, Qinf_lt_irrefl.
Qed.

Lemma earliest_key_ltb_asym (a b : bool * Qinf) :
  PerfectionChooser.earliest_key_ltb a b = true ->
  PerfectionChooser.earliest_key_ltb b a = false.
Proof.
  destruct a as [[|] s], b as [[|] t]; cbn; try done;
    rewrite Qinf_ltb_lt, Qinf_ltb_false; apply Qinf_lt_asym.
Qed.

Lemma earliest_key_ge_trans (a b c : bool * Qinf) :
  PerfectionChooser.earliest_key_ltb b a = false ->
  PerfectionChooser.earliest_key_ltb c b = false ->
  PerfectionChooser.earliest_key_ltb c a = false.
Proof.
  destruct a as [[|] s], b as [[|] t], c as [[|] u]; cbn; try done;
    rewrite !Qinf_ltb_false; apply Qinf_ge_trans.
Qed.

Lemma earliest_minimal (l : list PerfectionEvent) (x : PerfectionEvent) :
  (forall e, e ∈ l -> nonzero_timing e) ->
  PerfectionChooser.earliest l = Some x ->
  x ∈ l /\ forall y, y ∈ l -> ~ Qinf_lt (timing_inf y) (timing_inf x).
Proof.
  intros Hnz Hx. pose proof (py_min_elem _ _ _ _ Hx) as Hin. split; [done|].
  intros y Hy. apply Qinf_ltb_false.
  rewrite <- earliest_key_by_timing by by apply Hnz.
  unfold PerfectionChooser.earliest in Hx.
  destruct l as [|e0 l0]; [done|]. cbn in Hx. injection Hx as <-.
  apply (min_by_minimal PerfectionChooser.earliest_key_ltb
           PerfectionChooser.earliest_key e0 l0);
    [apply earliest_key_ltb_irrefl | apply earliest_key_ltb_asym
     | apply earliest_key_ge_trans | done].
Qed.

Lemma Qinf_ge_lt_trans (a b c : Qinf) :
  ~ Qinf_lt b a -> Qinf_lt b c -> Qinf_lt a c.
Proof.
  destruct a as [x|], b as [y|], c as [z|]; cbn; intros; try done; try tauto;
    lra.
Qed.

Lemma positive_not_prohibition (e : PerfectionEvent) :
  is_positive e = true -> PerfectionChooser.is_prohibition e = true -> False.
Proof.
  unfold is_positive, PerfectionChooser.is_prohibition.
  destruct (event_type e); vm_compute; intros; discriminate.
Qed.

(** X12.  On lists in which no timing is zero the chooser is
    chronological: it returns a prohibition exactly when some prohibition
    is strictly earlier than every positive event (an absent timing
    counting as never), and the prohibition or positive event it returns
    is an earliest one of its kind. *)
Theorem select_primary_chronological (l : list PerfectionEvent)
    (r : PerfectionEvent) :
  (forall e, e ∈ l -> nonzero_timing e) ->
  PerfectionChooser.select_primary_perfection l = Some r ->
  (PerfectionChooser.is_prohibition r = true
   <-> exists proh,
         proh ∈ l /\ PerfectionChooser.is_prohibition proh = true
         /\ forall pos, pos ∈ l -> is_positive pos = true ->
                        Qinf_lt (timing_inf proh) (timing_inf pos))
  /\ (PerfectionChooser.is_prohibition r = true ->
      forall e, e ∈ l -> PerfectionChooser.is_prohibition e = true ->
                ~ Qinf_lt (timing_inf e) (timing_inf r))
  /\ (is_positive r = true ->
      forall e, e ∈ l -> is_positive e = true ->
                ~ Qinf_lt (timing_inf e) (timing_inf r)).
Proof.
  intros Hnz. unfold PerfectionChooser.select_primary_perfection.
  destruct l as [|e0 l0]; [done|]. set (l := e0 :: l0) in *. cbv zeta.
  assert (HnzP : forall e, e ∈ List.filter PerfectionChooser.is_prohibition l ->
                           nonzero_timing e)
    by (intros e He; apply filter_elem in He as [He _]; by apply Hnz).
  assert (HnzS : forall e, e ∈ List.filter is_positive l -> nonzero_timing e)
    by (intros e He; apply filter_elem in He as [He _]; by apply Hnz).
  destruct (PerfectionChooser.earliest
              (List.filter PerfectionChooser.is_prohibition l))
    as [proh|] eqn:HP;
  destruct (PerfectionChooser.earliest (List.filter is_positive l))
    as [pos|] eqn:HS.
  - apply earliest_minimal in HP as [HPin HPmin]; [|done].
    apply earliest_minimal in HS as [HSin HSmin]; [|done].
    apply filter_elem in HPin as [HPin HPty].
    apply filter_elem in HSin as [HSin HSty].
    rewrite !or_inf_timing by by apply Hnz.
    destruct (Qinf_ltb (timing_inf proh) (timing_inf pos)) eqn:Hpre;
      intros [= <-].
    + apply Qinf_ltb_lt in Hpre. split_and!.
      * split; [|done]. intros _. exists proh. split_and!; try done.
        intros pos' Hin' Hty'.
        apply (Qinf_lt_ge_trans _ (timing_inf pos)); [done|].
        apply HSmin. by apply filter_elem.
      * intros _ e He Hty. apply HPmin. by apply filter_elem.
      * intros Hty. by destruct (positive_not_prohibition proh).
    + apply Qinf_ltb_false in Hpre. split_and!.
      * split; [intros Hty; by destruct (positive_not_prohibition pos)|].
        intros (proh' & Hin' & Hty' & Hlt). exfalso. apply Hpre.
        apply (Qinf_ge_lt_trans _ (timing_inf proh')).
        -- apply HPmin. by apply filter_elem.
        -- by apply Hlt.
      * intros Hty. by destruct (positive_not_prohibition pos).
      * intros _ e He Hty. apply HSmin. by apply filter_elem.
  - apply earliest_minimal in HP as [HPin HPmin]; [|done].
    apply filter_elem in HPin as [HPin HPty].
    apply py_min_none in HS. intros [= <-]. split_and!.
    + split; [|done]. intros _. exists proh. split_and!; try done.
      intros pos' Hin' Hty'.
      rewrite (filter_nil_none _ _ _ HS Hin') in Hty'. done.
    + intros _ e He Hty. apply HPmin. by apply filter_elem.
    + intros Hty. by destruct (positive_not_prohibition proh).
  - apply earliest_minimal in HS as [HSin HSmin]; [|done].
    apply filter_elem in HSin as [HSin HSty].
    apply py_min_none in HP. intros [= <-]. split_and!.
    + split; [intros Hty; by destruct (positive_not_prohibition pos)|].
      intros (proh' & Hin' & Hty' & _).
      rewrite (filter_nil_none _ _ _ HP Hin') in Hty'. done.
    + intros Hty. by destruct (positive_not_prohibition pos).
    + intros _ e He Hty. apply HSmin. by apply filter_elem.
  - apply py_min_none in HP. apply py_min_none in HS. intros Hr.
    assert (Hin : r ∈ l).
    { destruct (PerfectionChooser.earliest
                  (List.filter PerfectionChooser.is_denial l)) as [d|] eqn:HD.
      - injection Hr as <-.
        by apply py_min_elem, filter_elem in HD as [HD _].
      - by apply py_min_elem in Hr. }
    pose proof (filter_nil_none _ _ _ HP Hin) as HrP.
    pose proof (filter_nil_none _ _ _ HS Hin) as HrS.
    rewrite HrP, HrS. split_and!; try done.
    split; [done|]. intros (proh' & Hin' & Hty' & _).
    rewrite (filter_nil_none _ _ _ HP Hin') in Hty'. done.
Qed.

Lemma find_first_origin {A B : Type} (f : A -> option B) (l : list A) (b : B) :
  find_first f l = Some b -> exists x, x ∈ l /\ f x = Some b.
Proof.
  induction l as [|x l IH]; [done|]. cbn.
  destruct (f x) as [b'|] eqn:E.
  - intros [= <-]. exists x. split; [left | done].
  - intros H. destruct (IH H) as (y & Hy & Hfy). exists y. split; [by right | done].
Qed.

(** X13.  A secondary perfection is an event of the list other than the
    primary, whose timing (absent read as 0) differs from the primary's by
    more than [EPS], and which is of another family or more than three days
    away. *)
Theorem select_secondary_differs (l : list PerfectionEvent)
    (primary s : PerfectionEvent) :
  PerfectionChooserSecondary.select_secondary_perfection l primary = Some s ->
  let gap := Qabs (or_zero (exact_in_days s) - or_zero (exact_in_days primary)) in
  s ∈ l /\ EventEq.event_eqb s primary = false
  /\ (EPS < gap)%Q
  /\ (event_type s <> event_type primary \/ (3 < gap)%Q).
Proof.
  unfold PerfectionChooserSecondary.select_secondary_perfection.
  intros H. apply find_first_origin in H as (x & Hx & Hfx).
  apply filter_elem in Hx as [Hx Hne]. apply negb_true_iff in Hne.
  destruct (Qleb _ EPS) eqn:Hgap; [done|]. apply Qleb_gt in Hgap.
  destruct (_ || _) eqn:Hdiff; [|done]. injection Hfx as ->.
  cbv zeta. split_and!; try done.
  apply orb_prop in Hdiff as [Hty|Hfar].
  - left. apply negb_true_iff, bool_decide_eq_false in Hty. done.
  - right. by apply Qltb_lt in Hfar.
Qed.

End Chooser.

Section ChooserWorked.
Import Sample.

Lemma select_primary_chronological_witness :
  let l := [bare PROHIBITION (Some 2%Q); bare DIRECT (Some 3%Q)] in
  let r := bare PROHIBITION (Some 2%Q) in
  (PerfectionChooser.is_prohibition r = true
   <-> exists proh,
         proh ∈ l /\ PerfectionChooser.is_prohibition proh = true
         /\ forall pos, pos ∈ l -> is_positive pos = true ->
                        Qinf_lt (timing_inf proh) (timing_inf pos))
  /\ (PerfectionChooser.is_prohibition r = true ->
      forall e, e ∈ l -> PerfectionChooser.is_prohibition e = true ->
                ~ Qinf_lt (timing_inf e) (timing_inf r))
  /\ (is_positive r = true ->
      forall e, e ∈ l -> is_positive e = true ->
                ~ Qinf_lt (timing_inf e) (timing_inf r)).
Proof.
  apply (select_primary_chronological
           [bare PROHIBITION (Some 2%Q); bare DIRECT (Some 3%Q)]
           (bare PROHIBITION (Some 2%Q))).
  - intros e He t Ht E.
    apply elem_of_cons in He as [-> | He];
      [|apply list_elem_of_singleton in He; subst e];
      injection Ht as <-; vm_compute in E; discriminate.
  - vm_compute. reflexivity.
Defined.

Lemma select_secondary_differs_witness :
  let gap := Qabs (or_zero (exact_in_days (bare DIRECT (Some 3%Q)))
                   - or_zero (exact_in_days (bare PROHIBITION (Some 2%Q)))) in
  bare DIRECT (Some 3%Q)
    ∈ [bare PROHIBITION (Some 2%Q); bare DIRECT (Some 3%Q)]
  /\ EventEq.event_eqb (bare DIRECT (Some 3%Q)) (bare PROHIBITION (Some 2%Q))
     = false
  /\ (EPS < gap)%Q
  /\ (event_type (bare DIRECT (Some 3%Q))
      <> event_type (bare PROHIBITION (Some 2%Q)) \/ (3 < gap)%Q).
Proof.
  apply (select_secondary_differs
           [bare PROHIBITION (Some 2%Q); bare DIRECT (Some 3%Q)]
           (bare PROHIBITION (Some 2%Q)) (bare DIRECT (Some 3%Q))).
  vm_compute. reflexivity.
Defined.

End ChooserWorked.

(** ** When the pipeline raises *)

Section PipelineErrors.
Context (X : Externals).

Lemma subscript_complete (chart : HoraryChart) (p : Planet) :
  complete_chart chart -> exists pos, subscript chart p = Ok pos.
Proof.
  intros H. destruct (H p) as (pos & Hp & _). exists pos.
  unfold subscript. by rewrite Hp.
Qed.

Lemma is_valid_collector_complete (chart : HoraryChart)
    (collector sig1 sig2 : Planet) :
  complete_chart chart ->
  exists b, EventDetector._is_valid_collector chart collector sig1 sig2 = Ok b.
Proof.
  intros H. unfold EventDetector._is_valid_collector.
  destruct (subscript_complete chart collector H) as [pc ->].
  destruct (subscript_complete chart sig1 H) as [p1 ->].
  destruct (subscript_complete chart sig2 H) as [p2 ->].
  eexists. reflexivity.
Qed.

Lemma direct_events_complete (chart : HoraryChart) (querent quesited : Planet)
    (window_days : Z) :
  complete_chart chart ->
  exists evs,
    EventDetector._detect_direct_events X chart querent quesited window_days
    = Ok evs.
Proof.
  intros H. unfold EventDetector._detect_direct_events.
  destruct (py_min _ _ _) as [[aspect timing]|]; [|by eexists].
  assert (Hc : exists b,
             (if decide (aspect = CONJUNCTION)
              then EventDetector._is_combustion_conjunction chart querent quesited
              else Ok false) = Ok b).
  { destruct (decide (aspect = CONJUNCTION)); [|by eexists].
    unfold EventDetector._is_combustion_conjunction.
    destruct (negb _); [by eexists|].
    destruct (H (if decide (querent = SUN) then quesited else querent))
      as (pos & Hp & _ & _ & Hsol).
    unfold subscript. rewrite Hp. unfold mbind, result_bind.
    destruct (solar_condition pos) as [[c|]|]; [by eexists | done | by eexists]. }
  destruct Hc as [b ->]. unfold mbind at 1, result_bind at 1. cbv beta iota.
  destruct b; [by eexists|].
  unfold EventDetector._assess_direct_aspect_quality.
  destruct (subscript_complete chart querent H) as [pq ->].
  destruct (subscript_complete chart quesited H) as [pe ->].
  unfold mbind, result_bind. cbv beta iota.
  destruct (String.eqb _ "identity"); [by eexists|].
  destruct (if str_in _ _ then _ else _) as [ch qt]. by eexists.
Qed.

Lemma collection_events_complete (chart : HoraryChart)
    (querent quesited : Planet) (window_days : Z) :
  complete_chart chart ->
  exists evs,
    EventDetector._detect_collection_events X chart querent quesited window_days
    = Ok evs.
Proof.
  intros H. unfold EventDetector._detect_collection_events.
  destruct (decide (querent = quesited)); [by eexists|].
  assert (Hstep : forall c, exists new,
            EventDetector.collection_step X chart querent quesited window_days c
            = Ok new).
  { intros c. unfold EventDetector.collection_step.
    destruct (_ || _); [by eexists|].
    destruct (is_valid_collector_complete chart c querent quesited H) as [b ->].
    unfold mbind, result_bind. cbv beta iota.
    destruct (negb b); [by eexists|].
    destruct (EventDetector._find_applying_aspect X chart querent c _);
      [|by eexists].
    destruct (EventDetector._find_applying_aspect X chart quesited c _);
      [|by eexists].
    destruct (find_first _ _) as [[o oa]|]; [by eexists|].
    destruct (EventDetector._find_earliest_application X chart querent _ _);
      [|by eexists].
    destruct (EventDetector._find_earliest_application X chart quesited _ _);
      [|by eexists].
    destruct (_ && _); by eexists. }
  generalize (@nil PerfectionEvent) as acc. generalize classical as l.
  induction l as [|c l IH]; intros acc; [by eexists|].
  cbn [fold_left]. destruct (Hstep c) as [new ->].
  unfold mbind at 2 3, result_bind at 2 3. cbv beta iota. apply IH.
Qed.

Lemma denial_events_complete (chart : HoraryChart)
    (querent quesited : Planet) (window_days : Z) :
  complete_chart chart ->
  exists evs,
    EventDetector._detect_denial_events X chart querent quesited window_days
    = Ok evs.
Proof.
  intros H. unfold EventDetector._detect_denial_events.
  match goal with
  | |- context [fold_left ?f all_aspects (Ok [])] => set (F := f)
  end.
  assert (Hstep : forall acc a, exists acc', F (Ok acc) a = Ok acc').
  { intros acc a. unfold F. unfold mbind at 1, result_bind at 1.
    cbv beta iota.
    destruct (TimingKernel.when_exact_in_days X querent quesited a chart)
      as [t|]; [|by eexists].
    destruct (truthy (Some t)); [|by eexists].
    destruct (subscript_complete chart querent H) as [pq Hpq].
    destruct (subscript_complete chart quesited H) as [pe Hpe].
    rewrite Hpq, Hpe. unfold mbind, result_bind. by eexists. }
  assert (Hloop : forall l acc, exists evs, fold_left F l (Ok acc) = Ok evs).
  { induction l as [|a l IH]; intros acc; [by eexists|].
    cbn [fold_left]. destruct (Hstep acc a) as [acc' ->]. apply IH. }
  destruct (Hloop all_aspects []) as [evs ->].
  unfold mbind, result_bind. by eexists.
Qed.

(** X14.  On a chart that places all seven bodies, each with a longitude
    and a speed and none with a [solar_condition] that holds [None], the
    pipeline never raises: [detect_all_events] and [find_perfections]
    return a result for every pair and window. *)
Theorem pipeline_completes_on_complete_chart (chart : HoraryChart)
    (querent quesited : Planet) (window_days : Z) :
  complete_chart chart ->
  (exists evs,
     EventDetector.detect_all_events X chart querent quesited window_days
     = Ok evs)
  /\ (exists r,
        PerfectionCoreAPI.find_perfections X chart querent quesited window_days
        = Ok r).
Proof.
  intros H.
  assert (Hd : exists evs,
     EventDetector.detect_all_events X chart querent quesited window_days
     = Ok evs).
  { unfold EventDetector.detect_all_events.
    destruct (decide (querent = quesited)); [by eexists|].
    destruct (direct_events_complete chart querent quesited window_days H)
      as [d ->].
    unfold mbind at 1, result_bind at 1. cbv beta iota zeta.
    destruct (collection_events_complete chart querent quesited window_days H)
      as [c ->].
    unfold mbind at 1, result_bind at 1. cbv beta iota zeta.
    destruct (denial_events_complete chart querent quesited window_days H)
      as [dn ->].
    unfold mbind, result_bind. by eexists. }
  split; [done|]. destruct Hd as [evs Hd].
  unfold PerfectionCoreAPI.find_perfections,
    PerfectionCoreAPI.print_positions, PerfectionCoreAPI.position_line.
  destruct (H querent) as (pq & -> & [lq ->] & [sq ->] & _).
  destruct (H quesited) as (pe & -> & [le ->] & [se ->] & _).
  rewrite Hd. unfold mbind, result_bind. by eexists.
Qed.

Lemma when_exact_missing (planet_a planet_b : Planet) (aspect : Aspect)
    (chart : HoraryChart) :
  planets chart !! planet_a = None \/ planets chart !! planet_b = None ->
  TimingKernel.when_exact_in_days X planet_a planet_b aspect chart = None.
Proof.
  unfold TimingKernel.when_exact_in_days. intros [-> | ->]; [done|].
  by destruct (planets chart !! planet_a).
Qed.

Lemma direct_events_missing (chart : HoraryChart) (querent quesited : Planet)
    (window_days : Z) :
  planets chart !! querent = None \/ planets chart !! quesited = None ->
  EventDetector._detect_direct_events X chart querent quesited window_days
  = Ok [].
Proof.
  intros H. unfold EventDetector._detect_direct_events, all_aspects.
  cbn [fold_left]. by rewrite !when_exact_missing.
Qed.

Lemma third_body (querent quesited : Planet) :
  exists c, c ∈ classical /\ c <> querent /\ c <> quesited.
Proof.
  destruct querent, quesited;
    first [ exists SUN; split; [apply classical_complete | done]
          | exists MOON; split; [apply classical_complete | done]
          | exists MERCURY; split; [apply classical_complete | done] ].
Qed.

Lemma collection_loop_raises (chart : HoraryChart) (querent quesited : Planet)
    (window_days : Z) (l : list Planet) (acc : list PerfectionEvent) :
  planets chart !! querent = None \/ planets chart !! quesited = None ->
  (exists c, c ∈ l /\ c <> querent /\ c <> quesited) ->
  exists p,
    fold_left
      (fun acc collector =>
         events ← acc;
         new ← EventDetector.collection_step X chart querent quesited
                                             window_days collector;
         Ok (events ++ new))
      l (Ok acc) = Raise (KeyError p).
Proof.
  intros Hmiss. revert acc. induction l as [|c l IH]; intros acc (c0 & Hin & Hq & He).
  - by apply elem_of_nil in Hin.
  - cbn [fold_left]. unfold mbind at 2, result_bind at 2. cbv beta iota.
    unfold EventDetector.collection_step at 2.
    destruct (bool_decide (c = querent) || bool_decide (c = quesited)) eqn:Hskip.
    + unfold mbind at 2, result_bind at 2. cbv beta iota.
      apply IH. exists c0. split_and!; try done.
      apply elem_of_cons in Hin as [-> | Hin]; [|done].
      apply orb_prop in Hskip as [Hs|Hs]; apply bool_decide_eq_true in Hs;
        congruence.
    + assert (Hraise : exists p,
                EventDetector._is_valid_collector chart c querent quesited
                = Raise (KeyError p)).
      { unfold EventDetector._is_valid_collector, subscript.
        destruct (planets chart !! c); [|by eexists].
        destruct (planets chart !! querent); [|by eexists].
        destruct (planets chart !! quesited); [|by eexists].
        by destruct Hmiss. }
      destruct Hraise as [p ->].
      unfold mbind at 2 3, result_bind at 2 3. cbv beta iota.
      exists p. clear. induction l as [|x l IHl]; [done|].
      cbn [fold_left]. unfold mbind at 2, result_bind at 2. cbv beta iota.
      exact IHl.
Qed.

(** X15.  When the two significators differ and the chart lacks one of
    them, [detect_all_events] and [find_perfections] end in [KeyError]:
    the collector test subscripts the chart for a third body and both
    significators. *)
Theorem pipeline_raises_on_missing_significator (chart : HoraryChart)
    (querent quesited : Planet) (window_days : Z) :
  querent <> quesited ->
  planets chart !! querent = None \/ planets chart !! quesited = None ->
  exists p,
    EventDetector.detect_all_events X chart querent quesited window_days
    = Raise (KeyError p)
    /\ PerfectionCoreAPI.find_perfections X chart querent quesited window_days
       = Raise (KeyError p).
Proof.
  intros Hne Hmiss.
  assert (Hd : exists p,
    EventDetector.detect_all_events X chart querent quesited window_days
    = Raise (KeyError p)).
  { unfold EventDetector.detect_all_events.
    destruct (decide (querent = quesited)); [done|].
    rewrite direct_events_missing by done.
    unfold mbind at 1, result_bind at 1. cbv beta iota zeta.
    unfold EventDetector._detect_collection_events.
    destruct (decide (querent = quesited)); [done|].
    destruct (collection_loop_raises chart querent quesited window_days
                classical [] Hmiss (third_body querent quesited)) as [p ->].
    unfold mbind, result_bind. by exists p. }
  destruct Hd as [p Hd]. exists p. split; [done|].
  unfold PerfectionCoreAPI.find_perfections,
    PerfectionCoreAPI.print_positions.
  rewrite Hd.
  by destruct Hmiss as [-> | ->]; [|destruct (planets chart !! querent)].
Qed.

End PipelineErrors.

Section PipelineErrorsWorked.
Import Sample.

Lemma chart_collection_complete : complete_chart chart_collection.
Proof.
  intros []; eexists;
    (split; [vm_compute; reflexivity|]);
    (split; [by eexists|]); (split; [by eexists | discriminate]).
Defined.

Lemma pipeline_completes_on_complete_chart_witness :
  (exists evs,
     EventDetector.detect_all_events sample_externals chart_collection
       MERCURY VENUS 30 = Ok evs)
  /\ (exists r,
        PerfectionCoreAPI.find_perfections sample_externals chart_collection
          MERCURY VENUS 30 = Ok r).
Proof.
  apply (pipeline_completes_on_complete_chart sample_externals chart_collection
           MERCURY VENUS 30).
  apply chart_collection_complete.
Defined.

Lemma pipeline_raises_on_missing_significator_witness :
  exists p,
    EventDetector.detect_all_events sample_externals chart_no_sun SUN MOON 30
    = Raise (KeyError p)
    /\ PerfectionCoreAPI.find_perfections sample_externals chart_no_sun
         SUN MOON 30 = Raise (KeyError p).
Proof.
  apply (pipeline_raises_on_missing_significator sample_externals chart_no_sun
           SUN MOON 30).
  - discriminate.
  - left. vm_compute. reflexivity.
Defined.

End PipelineErrorsWorked.

(** ** What the detected events have in common *)

Section WellFormed.
Context (X : Externals).

Local Ltac no_event :=
  let He := fresh "He" in intros He; by apply elem_of_nil in He.

(** Evaluate the family tests on an event whose family is known. *)
Local Ltac family_tests :=
  unfold is_adverse, is_third_body; cbn [event_type];
  repeat match goal with
  | |- context [bool_decide (?ty ∈ ?l)] =>
      let b := eval vm_compute in (bool_decide (ty ∈ l)) in
      change (bool_decide (ty ∈ l)) with b
  end.

Lemma when_exact_nonneg (planet_a planet_b : Planet) (aspect : Aspect)
    (chart : HoraryChart) (t : Q) :
  TimingKernel.when_exact_in_days X planet_a planet_b aspect chart = Some t ->
  (0 <= t)%Q.
Proof.
  unfold TimingKernel.when_exact_in_days.
  destruct (planets chart !! planet_a) as [pos_a|]; [|done].
  destruct (planets chart !! planet_b) as [pos_b|]; [|done].
  cbv zeta.
  destruct (Qltb (Qabs (TimingKernel.relative_rate pos_a pos_b)) (1 # 1000000))
    eqn:Hv.
  - destruct (Qltb _ (1 # 1000)); [|done].
    intros [= <-]. apply Qle_refl.
  - apply Qltb_ge in Hv.
    assert (Hpos : (0 < Qabs (TimingKernel.relative_rate pos_a pos_b))%Q).
    { eapply Qlt_le_trans; [|exact Hv]. reflexivity. }
    pose proof (forward_time_pos
                  (TimingKernel.delta_to_exact (default 0%Q (longitude pos_a))
                     (default 0%Q (longitude pos_b)) aspect)
                  _ Hpos) as Hft.
    destruct (TimingKernel.enforce_sign_guard X).
    + destruct (_ || _); [done|]. intros [= <-]. by apply Qlt_le_weak.
    + intros [= <-]. by apply Qlt_le_weak.
Qed.

Lemma applying_timing_pos (chart : HoraryChart) (planet1 planet2 : Planet)
    (window_days : Z) (leg : Leg) :
  EventDetector._find_applying_aspect X chart planet1 planet2 window_days
  = Some leg ->
  (0 < leg_timing leg)%Q.
Proof.
  pose proof (find_applying_loop X chart planet1 planet2 window_days
                all_aspects [] None) as H.
  unfold EventDetector._find_applying_aspect. intros E.
  rewrite E in H. cbn in H.
  destruct H as ((_ & Hpos & _) & _); [|done].
  intros asp t Hin. by apply elem_of_nil in Hin.
Qed.

Lemma earliest_application_sound (chart : HoraryChart) (planet : Planet)
    (window_days : Z) (exclude : gset Planet) (leg : Leg) :
  EventDetector._find_earliest_application X chart planet window_days exclude
  = Some leg ->
  leg_target leg <> planet /\ (0 < leg_timing leg)%Q.
Proof.
  unfold EventDetector._find_earliest_application.
  apply (fold_left_invariant
           (fun best : option Leg => best = Some leg ->
              leg_target leg <> planet /\ (0 < leg_timing leg)%Q)); [done|].
  intros best other _ IH.
  destruct (decide (other = planet)); [done|].
  destruct (decide (other ∈ exclude)); [done|].
  destruct (EventDetector._find_applying_aspect X chart planet other
              window_days) as [cand|] eqn:Hc; [|done].
  apply applying_timing_pos in Hc.
  destruct best as [b|].
  - destruct (Qltb _ _); [|done]. by intros [= <-].
  - by intros [= <-].
Qed.

Lemma direct_route_pair (chart : HoraryChart) (querent quesited : Planet)
    (window_days : Z) (r : Route) :
  TimingKernel._current_direct_route X chart querent quesited window_days
  = Some r ->
  (route_applier r = querent /\ route_receiver r = quesited)
  \/ (route_applier r = quesited /\ route_receiver r = querent).
Proof.
  unfold TimingKernel._current_direct_route.
  apply (fold_left_invariant
           (fun best : option Route => best = Some r ->
              (route_applier r = querent /\ route_receiver r = quesited)
              \/ (route_applier r = quesited /\ route_receiver r = querent)));
    [done|].
  intros best asp _ IH.
  destruct (TimingKernel.when_exact_in_days X querent quesited asp chart)
    as [t|]; [|done].
  destruct (Qgtb t (inject_Z window_days)); [done|].
  cbv zeta.
  destruct (Qgeb _ _).
  - destruct best as [b|].
    + cbn [route_timing]. destruct (Qltb _ _); [|done].
      intros [= <-]. by left.
    + intros [= <-]. by left.
  - destruct best as [b|].
    + cbn [route_timing]. destruct (Qltb _ _); [|done].
      intros [= <-]. by right.
    + intros [= <-]. by right.
Qed.

Lemma house_placement_well_formed (chart : HoraryChart)
    (querent quesited : Planet) (e : PerfectionEvent) :
  e ∈ EventDetector._detect_house_placement_events X chart querent quesited ->
  well_formed querent quesited e /\ event_type e = HOUSE_PLACEMENT.
Proof.
  unfold EventDetector._detect_house_placement_events.
  destruct (significators chart) as [sigs|]; [|no_event].
  destruct (decide (sigs = ∅)); [no_event|].
  assert (Hev : forall r p,
            well_formed querent quesited
              (EventDetector.house_placement_event querent quesited r p)
            /\ event_type (EventDetector.house_placement_event querent
                             quesited r p) = HOUSE_PLACEMENT).
  { intros r p. split; [|done]. unfold well_formed. split_and!; try done.
    exists 0%Q. split; [done | apply Qle_refl]. }
  intros He. apply elem_of_app in He as [He|He];
    destruct (EventDetector.in_house _ _);
    try (by apply elem_of_nil in He);
    apply list_elem_of_singleton in He; subst e; apply Hev.
Qed.

Lemma direct_events_well_formed (chart : HoraryChart)
    (querent quesited : Planet) (window_days : Z)
    (evs : list PerfectionEvent) (e : PerfectionEvent) :
  EventDetector._detect_direct_events X chart querent quesited window_days
  = Ok evs ->
  e ∈ evs ->
  well_formed querent quesited e
  /\ event_type e ∈ [DIRECT; DIRECT_PENALIZED; COMBUSTION_VETO].
Proof.
  unfold EventDetector._detect_direct_events.
  match goal with
  | |- context [py_min Qltb snd ?c] => set (candidates := c)
  end.
  assert (Hcand : forall a t, (a, t) ∈ candidates ->
            TimingKernel.when_exact_in_days X querent quesited a chart = Some t).
  { unfold candidates.
    apply (fold_left_invariant
             (fun c : list (Aspect * Q) => forall a t, (a, t) ∈ c ->
                TimingKernel.when_exact_in_days X querent quesited a chart
                = Some t)).
    - intros a t Hin. by apply elem_of_nil in Hin.
    - intros c a _ Hc.
      destruct (TimingKernel.when_exact_in_days X querent quesited a chart)
        as [t|] eqn:Hw; [|done].
      destruct (Qgtb t (inject_Z window_days)); [done|].
      intros a' t' Hin. apply elem_of_app in Hin as [Hin|Hin]; [by apply Hc|].
      apply list_elem_of_singleton in Hin. by injection Hin as -> ->. }
  destruct (py_min Qltb snd candidates) as [[aspect timing]|] eqn:Hmin.
  2: { intros [= <-] He. by apply elem_of_nil in He. }
  apply py_min_elem, Hcand in Hmin.
  pose proof (when_exact_nonneg _ _ _ _ _ Hmin) as Hpos.
  destruct (if decide (aspect = CONJUNCTION) then _ else _) as [combust|];
    [|done].
  unfold mbind at 1, result_bind at 1. cbv beta iota.
  destruct combust.
  - intros [= <-] He. apply list_elem_of_singleton in He. subst e.
    split; [|by apply (bool_decide_unpack _)].
    unfold well_formed. family_tests. split_and!; try done.
    exists timing. done.
  - destruct (EventDetector._assess_direct_aspect_quality _ _ _ _ _)
      as [[[fav ch] qt]|]; [|done].
    unfold mbind, result_bind. cbv beta iota zeta.
    intros [= <-] He. apply list_elem_of_singleton in He. subst e.
    destruct ch.
    + split; [|by apply (bool_decide_unpack _)].
      unfold well_formed. family_tests. split_and!; try done.
      exists timing. done.
    + split; [|by apply (bool_decide_unpack _)].
      unfold well_formed. family_tests. split_and!; try done.
      exists timing. done.
Qed.

Lemma translation_step_well_formed (chart : HoraryChart)
    (querent quesited : Planet) (window_days : Z) (translator : Planet)
    (e : PerfectionEvent) :
  e ∈ EventDetector.translation_step X chart querent quesited window_days
        translator ->
  well_formed querent quesited e /\ event_type e ∈ [TRANSLATION; ABSCISSION].
Proof.
  unfold EventDetector.translation_step.
  destruct (bool_decide (translator = querent)
            || bool_decide (translator = quesited)) eqn:Hg; [no_event|].
  apply orb_false_iff in Hg as [Hq Hqe].
  apply bool_decide_eq_false in Hq, Hqe.
  match goal with
  | |- context [let '(_, _) := ?p in _] =>
      assert (Hp : forall app, p.2 = Some app -> (0 < leg_timing app)%Q);
      [|destruct p as [[sep|] [app|]]]
  end; try no_event.
  { intros app.
    destruct (EventDetector._find_separating_aspect chart translator querent
                window_days);
      destruct (EventDetector._find_applying_aspect X chart translator quesited
                  window_days) eqn:E1;
      cbn [snd]; intros E2;
      first [ rewrite E2 in E1; by apply applying_timing_pos in E1
            | by apply applying_timing_pos in E2 ]. }
  specialize (Hp app eq_refl).
  destruct (Qltb (leg_timing sep) (leg_timing app)); [|no_event].
  destruct (_ && _); [no_event|].
  destruct (Qgtb _ _); [no_event|].
  destruct (EventDetector._find_earliest_application _ _ _ _ _); [|no_event].
  destruct (_ || _); [no_event|].
  destruct (find_first _ _) as [[other other_app]|] eqn:Hff.
  - apply find_first_origin in Hff as (o & _ & Ho).
    destruct (bool_decide (o = translator) || bool_decide (o = querent)
              || bool_decide (o = quesited)) eqn:Hog; [done|].
    apply orb_false_iff in Hog as [Hog Ho3].
    apply orb_false_iff in Hog as [Ho1 Ho2].
    apply bool_decide_eq_false in Ho1, Ho2, Ho3.
    destruct (EventDetector._find_applying_aspect X chart o _ _) as [oa|];
      [|done].
    destruct (Qltb 0 (leg_timing oa)) eqn:Hpos; [|done].
    apply Qltb_lt in Hpos.
    destruct (Qltb (leg_timing oa) _); [|done]. cbn [andb] in Ho.
    injection Ho as -> ->.
    intros He. apply list_elem_of_singleton in He. subst e.
    split; [|by apply (bool_decide_unpack _)].
    unfold well_formed. family_tests. split_and!; try done.
    + exists (leg_timing other_app). split; [done | by apply Qlt_le_weak].
    + intros _. by exists other.
  - intros He. apply list_elem_of_singleton in He. subst e.
    split; [|by apply (bool_decide_unpack _)].
    unfold well_formed. family_tests. split_and!; try done.
    + exists (leg_timing app). split; [done | by apply Qlt_le_weak].
    + intros _. by exists translator.
Qed.

Lemma collection_step_well_formed (chart : HoraryChart)
    (querent quesited : Planet) (window_days : Z) (collector : Planet)
    (new : list PerfectionEvent) (e : PerfectionEvent) :
  EventDetector.collection_step X chart querent quesited window_days collector
  = Ok new ->
  e ∈ new ->
  well_formed querent quesited e /\ event_type e ∈ [COLLECTION; ABSCISSION].
Proof.
  unfold EventDetector.collection_step.
  destruct (bool_decide (collector = querent)
            || bool_decide (collector = quesited)) eqn:Hg;
    [intros [= <-] He; by apply elem_of_nil in He|].
  apply orb_false_iff in Hg as [Hq Hqe].
  apply bool_decide_eq_false in Hq, Hqe.
  destruct (EventDetector._is_valid_collector _ _ _ _) as [[|]|];
    unfold mbind, result_bind; cbv beta iota;
    [| intros [= <-] He; by apply elem_of_nil in He | done].
  change (negb true) with false. cbv iota.
  destruct (EventDetector._find_applying_aspect X chart querent _ _)
    as [qa|] eqn:Hqa; [|intros [= <-] He; by apply elem_of_nil in He].
  destruct (EventDetector._find_applying_aspect X chart quesited _ _)
    as [qe|] eqn:Hqe'; [|intros [= <-] He; by apply elem_of_nil in He].
  apply applying_timing_pos in Hqa, Hqe'.
  destruct (find_first _ _) as [[other other_app]|] eqn:Hff.
  - apply find_first_origin in Hff as (o & _ & Ho).
    destruct (bool_decide (o = collector) || bool_decide (o = querent)
              || bool_decide (o = quesited)) eqn:Hog; [done|].
    apply orb_false_iff in Hog as [Hog Ho3].
    apply orb_false_iff in Hog as [Ho1 Ho2].
    apply bool_decide_eq_false in Ho1, Ho2, Ho3.
    destruct (EventDetector._find_applying_aspect X chart o _ _) as [oa|];
      [|done].
    destruct (Qltb 0 (leg_timing oa)) eqn:Hpos; [|done].
    apply Qltb_lt in Hpos.
    destruct (Qltb (leg_timing oa) _); [|done]. cbn [andb] in Ho.
    injection Ho as -> ->.
    intros [= <-] He. apply list_elem_of_singleton in He. subst e.
    split; [|by apply (bool_decide_unpack _)].
    unfold well_formed. family_tests. split_and!; try done.
    + exists (leg_timing other_app). split; [done | by apply Qlt_le_weak].
    + intros _. by exists other.
  - destruct (EventDetector._find_earliest_application X chart querent _ _);
      [|intros [= <-] He; by apply elem_of_nil in He].
    destruct (EventDetector._find_earliest_application X chart quesited _ _);
      [|intros [= <-] He; by apply elem_of_nil in He].
    destruct (_ && _); [|intros [= <-] He; by apply elem_of_nil in He].
    intros [= <-] He. apply list_elem_of_singleton in He. subst e.
    split; [|by apply (bool_decide_unpack _)].
    unfold well_formed. family_tests. split_and!; try done.
    + eexists. split; [done|].
      unfold py_max2.
      destruct (Qltb _ _); by apply Qlt_le_weak.
    + intros _. by exists collector.
Qed.

Lemma prohibition_events_well_formed (chart : HoraryChart)
    (querent quesited : Planet) (window_days : Z)
    (earliest_positive_time : option Q) (e : PerfectionEvent) :
  e ∈ EventDetector._detect_prohibition_events X chart querent quesited
        window_days earliest_positive_time ->
  well_formed querent quesited e /\ event_type e = PROHIBITION.
Proof.
  unfold EventDetector._detect_prohibition_events. cbv zeta.
  match goal with
  | |- context [match ?r with Some _ => _ | None => [] end] =>
      destruct r as [[[applier receiver] t_direct]|]
  end; [|no_event].
  revert e.
  apply (fold_left_invariant
           (fun events : list PerfectionEvent => forall e, e ∈ events ->
              well_formed querent quesited e /\ event_type e = PROHIBITION)).
  { intros e He. by apply elem_of_nil in He. }
  intros events p _ IH.
  destruct (bool_decide (p = querent) || bool_decide (p = quesited)) eqn:Hg;
    [done|].
  apply orb_false_iff in Hg as [Hq Hqe].
  apply bool_decide_eq_false in Hq, Hqe.
  destruct (EventDetector._find_applying_aspect X chart p receiver window_days)
    as [app|]; [|done].
  destruct (Qltb 0 (leg_timing app)) eqn:Hpos; [|done].
  apply Qltb_lt in Hpos.
  destruct (Qltb (leg_timing app) _); [|done]. cbn [andb negb].
  destruct (Qleb _ _); [done|].
  match goal with
  | |- context [if ?c then events else _] => destruct c
  end; [done|].
  intros e He. apply elem_of_app in He as [He|He]; [by apply IH|].
  apply list_elem_of_singleton in He. subst e. split; [|done].
  unfold well_formed. family_tests. split_and!; try done.
  - exists (leg_timing app). split; [done | by apply Qlt_le_weak].
  - intros _. by exists p.
Qed.

Lemma abscission_events_well_formed (chart : HoraryChart)
    (querent quesited : Planet) (window_days : Z) (e : PerfectionEvent) :
  e ∈ EventDetector._detect_abscission_events X chart querent quesited
        window_days ->
  well_formed querent quesited e /\ event_type e = ABSCISSION.
Proof.
  unfold EventDetector._detect_abscission_events.
  destruct (EventDetector._current_direct_route X chart querent quesited
              window_days) as [route|]; [|no_event].
  cbv zeta. revert e.
  apply (fold_left_invariant
           (fun events : list PerfectionEvent => forall e, e ∈ events ->
              well_formed querent quesited e /\ event_type e = ABSCISSION)).
  { intros e He. by apply elem_of_nil in He. }
  intros events p _ IH.
  destruct (bool_decide (p = querent) || bool_decide (p = quesited)) eqn:Hg;
    [done|].
  apply orb_false_iff in Hg as [Hq Hqe].
  apply bool_decide_eq_false in Hq, Hqe.
  destruct (EventDetector._find_applying_aspect X chart p _ window_days)
    as [app|]; [|done].
  destruct (Qltb 0 (leg_timing app)) eqn:Hpos; [|done].
  apply Qltb_lt in Hpos.
  destruct (Qltb (leg_timing app) _); [|done]. cbn [andb negb].
  destruct (Qleb _ _); [done|].
  match goal with
  | |- context [if ?c then events else _] => destruct c
  end; [done|].
  intros e He. apply elem_of_app in He as [He|He]; [by apply IH|].
  apply list_elem_of_singleton in He. subst e. split; [|done].
  unfold well_formed. family_tests. split_and!; try done.
  - exists (leg_timing app). split; [done | by apply Qlt_le_weak].
  - intros _. by exists p.
Qed.

Lemma frustration_events_well_formed (chart : HoraryChart)
    (querent quesited : Planet) (window_days : Z) (e : PerfectionEvent) :
  e ∈ EventDetector._detect_frustration_events X chart querent quesited
        window_days ->
  well_formed querent quesited e /\ event_type e = FRUSTRATION.
Proof.
  unfold EventDetector._detect_frustration_events.
  destruct (EventDetector._current_direct_route X chart querent quesited
              window_days) as [route|] eqn:Hr; [|no_event].
  apply direct_route_pair in Hr.
  cbv zeta.
  destruct (EventDetector._find_earliest_application X chart _ window_days ∅)
    as [nxt|] eqn:Hn; [|no_event].
  apply earliest_application_sound in Hn as [Hne Hpos].
  destruct (bool_decide (leg_target nxt = route_receiver route)) eqn:Hrec;
    [no_event|].
  apply bool_decide_eq_false in Hrec. cbn [orb].
  destruct (Qgeb _ _); [no_event|].
  match goal with
  | |- context [if ?c then [] else _] => destruct c
  end; [no_event|].
  intros He. apply list_elem_of_singleton in He. subst e. split; [|done].
  unfold well_formed. family_tests. split_and!; try done.
  - exists (leg_timing nxt). split; [done | by apply Qlt_le_weak].
  - intros _. exists (leg_target nxt). split; [done|].
    destruct Hr as [[Ha Hb]|[Ha Hb]]; rewrite Ha in Hne; rewrite Hb in Hrec;
      done.
Qed.

Lemma refranation_event_well_formed (chart : HoraryChart)
    (querent quesited refraning : Planet) (asp : Aspect) (t : Q) :
  TimingKernel.when_exact_in_days X querent quesited asp chart = Some t ->
  well_formed querent quesited
    (EventDetector.refranation_event X querent quesited refraning asp t).
Proof.
  intros Ht. apply when_exact_nonneg in Ht.
  unfold well_formed, EventDetector.refranation_event. family_tests.
  split_and!; try done. by exists t.
Qed.

Lemma denial_events_well_formed (chart : HoraryChart)
    (querent quesited : Planet) (window_days : Z)
    (evs : list PerfectionEvent) :
  EventDetector._detect_denial_events X chart querent quesited window_days
  = Ok evs ->
  Forall (fun e => well_formed querent quesited e
                   /\ event_type e ∈ [REFRANATION; ABSCISSION; FRUSTRATION])
         evs.
Proof.
  unfold EventDetector._detect_denial_events.
  match goal with
  | |- context [fold_left ?f all_aspects (Ok [])] => set (F := f)
  end.
  set (P := fun e => well_formed querent quesited e
                     /\ event_type e ∈ [REFRANATION; ABSCISSION; FRUSTRATION]).
  assert (Hstep : forall acc a acc',
            Forall P acc -> F (Ok acc) a = Ok acc' -> Forall P acc').
  { intros acc a acc' Hacc. unfold F. unfold mbind at 1, result_bind at 1.
    cbv beta iota.
    destruct (TimingKernel.when_exact_in_days X querent quesited a chart)
      as [t|] eqn:Ht; [|by intros [= <-]].
    destruct (truthy (Some t)); [|by intros [= <-]].
    destruct (subscript chart querent) as [pq|]; [|done].
    destruct (subscript chart quesited) as [pe|]; [|done].
    unfold mbind, result_bind. cbv beta iota zeta.
    intros [= <-].
    assert (H1 : forall r,
              P (EventDetector.refranation_event X querent quesited r a t)).
    { intros r. split; [by apply (refranation_event_well_formed chart)|].
      by apply (bool_decide_unpack _). }
    destruct (_ && _), (_ && _); rewrite ?Forall_app, ?Forall_singleton;
      done. }
  assert (Hraise : forall l x, fold_left F l (Raise x) = Raise x).
  { induction l as [|a l IH]; intros x; [done|]. cbn [fold_left].
    unfold F at 2. unfold mbind at 1, result_bind at 1. apply IH. }
  assert (Hloop : forall l acc evs,
            Forall P acc -> fold_left F l (Ok acc) = Ok evs -> Forall P evs).
  { induction l as [|a l IH]; intros acc evs' Hacc.
    - by intros [= <-].
    - cbn [fold_left]. destruct (F (Ok acc) a) as [acc'|x] eqn:Hs.
      + apply IH. by apply (Hstep acc a).
      + by rewrite Hraise. }
  destruct (fold_left F all_aspects (Ok [])) as [refr|] eqn:Hf; [|done].
  unfold mbind, result_bind. intros [= <-].
  rewrite !Forall_app. split_and!.
  - by apply (Hloop all_aspects []).
  - apply Forall_forall. intros e He.
    apply abscission_events_well_formed in He as [He Hty].
    split; [done|]. rewrite Hty. by apply (bool_decide_unpack _).
  - apply Forall_forall. intros e He.
    apply frustration_events_well_formed in He as [He Hty].
    split; [done|]. rewrite Hty. by apply (bool_decide_unpack _).
Qed.

Lemma sort_events_perm (l : list PerfectionEvent) :
  Permutation (EventDetector._sort_events_by_priority l) l.
Proof.
  unfold EventDetector._sort_events_by_priority.
  induction l as [|x l IH]; cbn [foldr]; [done|].
  rewrite insert_by_key_perm. by constructor.
Qed.

(** What [detect_all_events] does after the detectors ran keeps a
    property of all events and leaves no two events with the same key. *)
Lemma pipeline_tail (P : PerfectionEvent -> Prop) (eps : Q)
    (l : list PerfectionEvent) :
  Forall P l ->
  NoDup (map event_key (EventDetector._sort_events_by_priority
                          (EventDetector._deconflict_same_time
                             (EventDetector._deduplicate_events l) eps)))
  /\ Forall P (EventDetector._sort_events_by_priority
                 (EventDetector._deconflict_same_time
                    (EventDetector._deduplicate_events l) eps)).
Proof.
  intros Hl. rewrite sort_events_perm.
  unfold EventDetector._deconflict_same_time. split.
  - eapply sublist_NoDup; [apply (deduplicate_NoDup_keys l)|].
    apply (fmap_sublist event_key _ _ (filter_sublist _ _)).
  - apply Forall_forall. intros e He.
    apply filter_elem in He as [He _]. apply deduplicate_elem in He.
    by apply (proj1 (Forall_forall _ _) Hl).
Qed.

(** X16.  Every event [detect_all_events] returns is about the queried
    pair, carries a determinate timing that is not negative, is
    unfavourable when it is a prohibition, abscission, refranation,
    frustration or combustion veto, and names a mediator other than both
    significators when it is a translation, collection, prohibition,
    abscission or frustration; no two returned events share a key. *)
Theorem detected_events_well_formed (chart : HoraryChart)
    (querent quesited : Planet) (window_days : Z)
    (evs : list PerfectionEvent) :
  EventDetector.detect_all_events X chart querent quesited window_days
  = Ok evs ->
  NoDup (map event_key evs)
  /\ Forall (well_formed querent quesited) evs.
Proof.
  unfold EventDetector.detect_all_events.
  assert (Hhouse : Forall (well_formed querent quesited)
            (EventDetector._detect_house_placement_events X chart querent
               quesited)).
  { apply Forall_forall. intros e He.
    by apply house_placement_well_formed in He as [He _]. }
  destruct (decide (querent = quesited)) as [Heq|Hne].
  - cbv zeta. intros [= <-].
    pose proof (pipeline_tail (well_formed querent quesited) 0
                  (EventDetector._detect_house_placement_events X chart
                     querent quesited
                   ++ [EventDetector.identity_event X querent quesited]))
      as Ht.
    rewrite sort_events_perm in Ht |- *. split.
    + apply deduplicate_NoDup_keys.
    + apply Forall_forall. intros e He. apply deduplicate_elem in He.
      apply elem_of_app in He as [He|He].
      * by apply (proj1 (Forall_forall _ _) Hhouse).
      * apply list_elem_of_singleton in He. subst e.
        unfold well_formed, EventDetector.identity_event. family_tests.
        split_and!; try done. exists 0%Q. split; [done | apply Qle_refl].
  - destruct (EventDetector._detect_direct_events X chart querent quesited
                window_days) as [d|] eqn:Hd; [|done].
    unfold mbind at 1, result_bind at 1. cbv beta iota zeta.
    destruct (EventDetector._detect_collection_events X chart querent quesited
                window_days) as [c|] eqn:Hc; [|done].
    unfold mbind at 1, result_bind at 1. cbv beta iota zeta.
    destruct (EventDetector._detect_denial_events X chart querent quesited
                window_days) as [dn|] eqn:Hdn; [|done].
    unfold mbind, result_bind. cbv beta iota zeta.
    intros [= <-]. apply pipeline_tail.
    rewrite !Forall_app. split_and!.
    + apply Forall_forall. intros e He.
      by destruct (direct_events_well_formed chart querent quesited
                     window_days d e Hd He).
    + exact Hhouse.
    + apply Forall_forall. intros e He.
      apply translation_loop_origin in He as [tr He].
      by apply translation_step_well_formed in He as [He _].
    + apply Forall_forall. intros e He.
      unfold EventDetector._detect_collection_events in Hc.
      destruct (decide (querent = quesited)); [done|].
      destruct (collection_loop_origin X chart querent quesited window_days
                  classical (Ok []) c e Hc He)
        as [(a & [= <-] & Hin)|(col & new & _ & Hs & Hin)].
      * by apply elem_of_nil in Hin.
      * by destruct (collection_step_well_formed chart querent quesited
                       window_days col new e Hs Hin).
    + apply Forall_forall. intros e He.
      by apply prohibition_events_well_formed in He as [He _].
    + eapply Forall_impl;
        [by apply (denial_events_well_formed chart querent quesited
                     window_days)|].
      by intros e [He _].
Qed.

End WellFormed.

Section WellFormedWorked.
Import Sample.

Lemma detected_events_well_formed_witness :
  let evs := produced (EventDetector.detect_all_events sample_externals
                         chart_collection MERCURY VENUS 30) in
  length evs = 3%nat
  /\ NoDup (map event_key evs)
  /\ Forall (well_formed MERCURY VENUS) evs.
Proof.
  split; [vm_compute; reflexivity|].
  apply (detected_events_well_formed sample_externals chart_collection
           MERCURY VENUS 30).
  vm_compute. reflexivity.
Defined.

End WellFormedWorked.

(** ** Prohibitions and the positive routes *)

Section Preemption.
Context (X : Externals).

Lemma Qmin_minimal (l : list Q) (x : Q) :
  x ∈ l -> exists m, py_min Qltb id l = Some m /\ (m <= x)%Q.
Proof.
  destruct l as [|y l]; [intros H; by apply elem_of_nil in H|].
  intros Hx. eexists. split; [reflexivity|].
  apply Qltb_ge.
  apply (min_by_minimal Qltb id y l); [| | |done].
  - intros a. apply Qltb_ge, Qle_refl.
  - intros a b H. apply Qltb_lt in H. apply Qltb_ge. by apply Qlt_le_weak.
  - intros a b c H1 H2. apply Qltb_ge in H1, H2. apply Qltb_ge.
    by apply (Qle_trans _ b).
Qed.

Lemma earliest_positive_minimal (l : list PerfectionEvent)
    (pos : PerfectionEvent) (t : Q) :
  pos ∈ l -> is_positive pos = true -> exact_in_days pos = Some t ->
  exists m,
    py_min Qltb id
      (omap (fun e => if is_positive e then exact_in_days e else None) l)
    = Some m
    /\ (m <= t)%Q.
Proof.
  intros Hin Hpos Ht. apply Qmin_minimal.
  apply list_elem_of_omap. exists pos. split; [done|]. by rewrite Hpos.
Qed.

(** A prohibition perfects more than [EPS] before the earliest positive
    route handed to the search. *)
Lemma prohibition_events_preempt (chart : HoraryChart)
    (querent quesited : Planet) (window_days : Z)
    (earliest_positive_time : option Q) (e : PerfectionEvent) :
  e ∈ EventDetector._detect_prohibition_events X chart querent quesited
        window_days earliest_positive_time ->
  exists tp,
    exact_in_days e = Some tp /\ (0 < tp)%Q
    /\ forall m, earliest_positive_time = Some m -> (tp < m - EPS)%Q.
Proof.
  unfold EventDetector._detect_prohibition_events. cbv zeta.
  match goal with
  | |- context [match ?r with Some _ => _ | None => [] end] =>
      destruct r as [[[applier receiver] t_direct]|]
  end; [|intros He; by apply elem_of_nil in He].
  match goal with
  | |- context [Qltb _ (?th - EPS)] => set (threshold := th)
  end.
  assert (Hth : forall m, earliest_positive_time = Some m ->
                          (threshold <= m)%Q).
  { intros m ->. unfold threshold.
    destruct (Qltb m t_direct) eqn:E; [apply Qle_refl | by apply Qltb_ge]. }
  clearbody threshold. revert e.
  apply (fold_left_invariant
           (fun events : list PerfectionEvent => forall e, e ∈ events ->
              exists tp,
                exact_in_days e = Some tp /\ (0 < tp)%Q
                /\ forall m, earliest_positive_time = Some m ->
                             (tp < m - EPS)%Q)).
  { intros e He. by apply elem_of_nil in He. }
  intros events p _ IH.
  destruct (_ || _); [done|].
  destruct (EventDetector._find_applying_aspect X chart p receiver window_days)
    as [app|]; [|done].
  destruct (Qltb 0 (leg_timing app)) eqn:Hpos; [|done].
  apply Qltb_lt in Hpos.
  destruct (Qltb (leg_timing app) (threshold - EPS)) eqn:Hbefore; [|done].
  apply Qltb_lt in Hbefore. cbn [andb negb].
  destruct (Qleb _ _); [done|].
  match goal with
  | |- context [if ?c then events else _] => destruct c
  end; [done|].
  intros e He. apply elem_of_app in He as [He|He]; [by apply IH|].
  apply list_elem_of_singleton in He. subst e.
  exists (leg_timing app). split_and!; [done | done |].
  intros m Hm. specialize (Hth m Hm). unfold EPS in *. lra.
Qed.

Lemma not_prohibition_family (ty : EventType) :
  ty ∈ [DIRECT; DIRECT_PENALIZED; COMBUSTION_VETO; HOUSE_PLACEMENT;
        TRANSLATION; COLLECTION; ABSCISSION; REFRANATION; FRUSTRATION] ->
  ty <> PROHIBITION.
Proof. intros H ->. revert H. by apply (bool_decide_unpack _). Qed.

Lemma not_positive_family (e : PerfectionEvent) :
  event_type e ∈ [PROHIBITION; REFRANATION; ABSCISSION; FRUSTRATION] ->
  is_positive e = false.
Proof.
  unfold is_positive. intros H.
  destruct (event_type e); first [done | exfalso; revert H;
                                         by apply (bool_decide_unpack _)].
Qed.

(** Every prohibition of a detection perfects, at a determinate time, more
    than [EPS] before every positive event of the same detection. *)
Lemma detected_prohibition_gap (chart : HoraryChart)
    (querent quesited : Planet) (window_days : Z)
    (evs : list PerfectionEvent) (proh pos : PerfectionEvent) :
  EventDetector.detect_all_events X chart querent quesited window_days
  = Ok evs ->
  proh ∈ evs -> pos ∈ evs ->
  event_type proh = PROHIBITION -> is_positive pos = true ->
  exists tp t,
    exact_in_days proh = Some tp /\ exact_in_days pos = Some t
    /\ (0 < tp)%Q /\ (tp < t - EPS)%Q.
Proof.
  unfold EventDetector.detect_all_events.
  destruct (decide (querent = quesited)) as [Heq|Hne].
  - cbv zeta. intros [= <-] Hproh _ Hty _. exfalso.
    rewrite sort_events_perm in Hproh. apply deduplicate_elem in Hproh.
    apply elem_of_app in Hproh as [H|H].
    + apply house_placement_well_formed in H as [_ H]. congruence.
    + apply list_elem_of_singleton in H. by subst proh.
  - destruct (EventDetector._detect_direct_events X chart querent quesited
                window_days) as [d|] eqn:Hd; [|done].
    unfold mbind at 1, result_bind at 1. cbv beta iota zeta.
    destruct (EventDetector._detect_collection_events X chart querent quesited
                window_days) as [c|] eqn:Hc; [|done].
    unfold mbind at 1, result_bind at 1. cbv beta iota zeta.
    destruct (EventDetector._detect_denial_events X chart querent quesited
                window_days) as [dn|] eqn:Hdn; [|done].
    unfold mbind, result_bind. cbv beta iota zeta.
    set (pre := ((d ++ EventDetector._detect_house_placement_events X chart
                         querent quesited)
                 ++ EventDetector._detect_translation_events X chart querent
                      quesited window_days) ++ c).
    set (ept := py_min Qltb id _).
    set (prohs := EventDetector._detect_prohibition_events X chart querent
                    quesited window_days ept).
    assert (Hpre : forall e, e ∈ pre ->
              well_formed querent quesited e
              /\ event_type e ∈ [DIRECT; DIRECT_PENALIZED; COMBUSTION_VETO;
                                 HOUSE_PLACEMENT; TRANSLATION; COLLECTION;
                                 ABSCISSION; REFRANATION; FRUSTRATION]).
    { intros e He. unfold pre in He. rewrite !elem_of_app in He.
      destruct He as [[[He|He]|He]|He].
      - destruct (direct_events_well_formed X chart querent quesited
                    window_days d e Hd He) as [Hw Hty].
        split; [done|]. revert Hty. rewrite !elem_of_cons. tauto.
      - apply house_placement_well_formed in He as [Hw ->].
        split; [done | by apply (bool_decide_unpack _)].
      - apply translation_loop_origin in He as [tr He].
        apply translation_step_well_formed in He as [Hw Hty].
        split; [done|]. revert Hty. rewrite !elem_of_cons. tauto.
      - unfold EventDetector._detect_collection_events in Hc.
        destruct (decide (querent = quesited)); [done|].
        destruct (collection_loop_origin X chart querent quesited window_days
                    classical (Ok []) c e Hc He)
          as [(a & [= <-] & Hin)|(col & new & _ & Hs & Hin)];
          [by apply elem_of_nil in Hin|].
        destruct (collection_step_well_formed X chart querent quesited
                    window_days col new e Hs Hin) as [Hw Hty].
        split; [done|]. revert Hty. rewrite !elem_of_cons. tauto. }
    assert (Hden : forall e, e ∈ dn ->
              event_type e ∈ [REFRANATION; ABSCISSION; FRUSTRATION]).
    { intros e He.
      pose proof (denial_events_well_formed X chart querent quesited
                    window_days dn Hdn) as H.
      by apply (proj1 (Forall_forall _ _) H) in He as [_ He]. }
    intros [= <-] Hproh Hpos Hty Hp.
    rewrite sort_events_perm in Hproh, Hpos.
    apply filter_elem in Hproh as [Hproh _], Hpos as [Hpos _].
    apply deduplicate_elem in Hproh, Hpos.
    rewrite !elem_of_app in Hproh, Hpos.
    assert (Hproh' : proh ∈ prohs).
    { destruct Hproh as [[H|H]|H]; [|done|].
      - apply Hpre in H as [_ H]. by apply not_prohibition_family in H.
      - apply Hden in H. exfalso. rewrite Hty in H. revert H.
        by apply (bool_decide_unpack _). }
    assert (Hpos' : pos ∈ pre).
    { destruct Hpos as [[H|H]|H]; [done| |].
      - apply prohibition_events_well_formed in H as [_ H].
        rewrite (not_positive_family pos) in Hp; [done|].
        rewrite H. by apply (bool_decide_unpack _).
      - apply Hden in H. rewrite (not_positive_family pos) in Hp; [done|].
        revert H. rewrite !elem_of_cons. tauto. }
    destruct (Hpre pos Hpos') as [(_ & (t & Ht & _) & _) _].
    destruct (earliest_positive_minimal pre pos t Hpos' Hp Ht)
      as (m & Hm & Hle).
    apply prohibition_events_preempt in Hproh' as (tp & Htp & Htp0 & Hgap).
    specialize (Hgap m Hm).
    exists tp, t. split_and!; try done. unfold EPS in *. lra.
Qed.

(** X17.  In the answer of [find_perfections] every prohibition perfects
    more than [EPS] before every positive event, and whenever the events
    hold a prohibition the primary perfection is a prohibition. *)
Theorem reported_prohibition_preempts (chart : HoraryChart)
    (querent quesited : Planet) (window_days : Z) (r : Perfections) :
  PerfectionCoreAPI.find_perfections X chart querent quesited window_days
  = Ok r ->
  (forall proh pos,
     proh ∈ events r -> pos ∈ events r ->
     event_type proh = PROHIBITION -> is_positive pos = true ->
     exists tp t,
       exact_in_days proh = Some tp /\ exact_in_days pos = Some t
       /\ (0 < tp)%Q /\ (tp < t - EPS)%Q)
  /\ ((exists e, e ∈ events r /\ event_type e = PROHIBITION) ->
      exists p,
        primary r = Some p /\ p ∈ events r /\ event_type p = PROHIBITION).
Proof.
  unfold PerfectionCoreAPI.find_perfections.
  destruct (PerfectionCoreAPI.print_positions chart querent quesited)
    as [[]|]; [|done].
  unfold mbind at 1, result_bind at 1. cbv beta iota.
  destruct (EventDetector.detect_all_events X chart querent quesited
              window_days) as [evs|] eqn:Hd; [|done].
  unfold mbind, result_bind. cbv beta iota zeta. intros [= <-].
  cbn [events primary].
  assert (Hgap : forall proh pos,
            proh ∈ evs -> pos ∈ evs ->
            event_type proh = PROHIBITION -> is_positive pos = true ->
            exists tp t,
              exact_in_days proh = Some tp /\ exact_in_days pos = Some t
              /\ (0 < tp)%Q /\ (tp < t - EPS)%Q).
  { intros proh pos.
    apply (detected_prohibition_gap chart querent quesited window_days evs
             proh pos Hd). }
  split; [exact Hgap|].
  intros (e & He & Hty).
  unfold PerfectionChooser.select_primary_perfection.
  destruct evs as [|e0 l0]; [by apply elem_of_nil in He|].
  set (l := e0 :: l0) in *. cbv zeta. unfold PerfectionChooser.earliest.
  destruct (py_min _ _ (List.filter PerfectionChooser.is_prohibition l))
    as [proh|] eqn:Hproh.
  2: { apply py_min_none in Hproh.
       apply (filter_nil_none _ _ e) in Hproh; [|done].
       unfold PerfectionChooser.is_prohibition in Hproh.
       by rewrite Hty, bool_decide_eq_false in Hproh. }
  apply py_min_elem, filter_elem in Hproh as [Hproh_in Hproh_ty].
  apply bool_decide_eq_true in Hproh_ty.
  destruct (py_min _ _ (List.filter is_positive l)) as [pos|] eqn:Hpos.
  - apply py_min_elem, filter_elem in Hpos as [Hpos_in Hpos_ty].
    destruct (Hgap proh pos Hproh_in Hpos_in Hproh_ty Hpos_ty)
      as (tp & t & -> & -> & Htp & Hlt).
    unfold or_inf.
    rewrite (Qeq_bool_false tp 0) by lra.
    rewrite (Qeq_bool_false t 0) by (unfold EPS in Hlt; lra).
    cbn [Qinf_ltb].
    assert (E : Qltb tp t = true)
      by (apply Qltb_lt; unfold EPS in Hlt; lra).
    rewrite E. by exists proh.
  - by exists proh.
Qed.

End Preemption.

Section PreemptionWorked.
Import Sample.

Lemma reported_prohibition_preempts_witness :
  exists r p,
    PerfectionCoreAPI.find_perfections sample_externals chart_prohibition
      MARS SATURN 30 = Ok r
    /\ primary r = Some p /\ p ∈ events r /\ event_type p = PROHIBITION.
Proof.
  destruct (PerfectionCoreAPI.find_perfections sample_externals
              chart_prohibition MARS SATURN 30) as [r|] eqn:Hr;
    [|vm_compute in Hr; discriminate].
  destruct (reported_prohibition_preempts sample_externals chart_prohibition
              MARS SATURN 30 r Hr) as [_ H].
  destruct H as (p & Hp & Hin & Hty).
  - vm_compute in Hr. injection Hr as <-.
    eexists. split; [cbn [events]; left | reflexivity].
  - exists r, p. split; [reflexivity|].
    split; [exact Hp|]. split; [exact Hin | exact Hty].
Defined.

End PreemptionWorked.

(** ** The direct perfection *)

Section Direct.
Context (X : Externals).

(** The families of the direct event exclude one another. *)
Local Ltac family_iff :=
  let H := fresh in
  let H1 := fresh in
  let H2 := fresh in
  split;
  [ intros H; first [discriminate H | split; done]
  | intros [H1 H2]; first [done | tauto | discriminate | congruence] ].

Lemma direct_candidates_spec (chart : HoraryChart) (querent quesited : Planet)
    (window_days : Z) (l : list Aspect) (acc : list (Aspect * Q))
    (a : Aspect) (t : Q) :
  (a, t) ∈ fold_left
             (fun candidates aspect =>
                match TimingKernel.when_exact_in_days X querent quesited
                        aspect chart with
                | None => candidates
                | Some timing =>
                    if Qgtb timing (inject_Z window_days) then candidates
                    else candidates ++ [(aspect, timing)]
                end)
             l acc
  <-> (a, t) ∈ acc
      \/ (a ∈ l
          /\ TimingKernel.when_exact_in_days X querent quesited a chart
             = Some t
          /\ (t <= inject_Z window_days)%Q).
Proof.
  revert acc. induction l as [|x l IH]; intros acc; cbn [fold_left].
  - split; [by left|]. intros [H|(H & _)]; [done | by apply elem_of_nil in H].
  - rewrite IH. clear IH. rewrite elem_of_cons.
    destruct (TimingKernel.when_exact_in_days X querent quesited x chart)
      as [tx|] eqn:Hx.
    + destruct (Qgtb tx (inject_Z window_days)) eqn:Hw.
      * apply Qltb_lt in Hw. split; [tauto|].
        intros [H|([-> |H] & Ht & Hle)]; [tauto | | tauto].
        exfalso. rewrite Hx in Ht. injection Ht as ->. lra.
      * apply Qltb_ge in Hw. rewrite elem_of_app, list_elem_of_singleton.
        split.
        -- intros [[H|H]|H]; [tauto | | tauto].
           injection H as -> ->. right. tauto.
        -- intros [H|([-> |H] & Ht & Hle)]; [tauto | | tauto].
           rewrite Hx in Ht. injection Ht as ->. tauto.
    + split; [tauto|].
      intros [H|([-> |H] & Ht & Hle)]; [tauto | congruence | tauto].
Qed.

Lemma is_combustion_conjunction_spec (chart : HoraryChart)
    (querent quesited : Planet) (b : bool) :
  EventDetector._is_combustion_conjunction chart querent quesited = Ok b ->
  b = true <-> combust_by_sun chart querent quesited.
Proof.
  unfold EventDetector._is_combustion_conjunction, combust_by_sun.
  destruct (bool_decide (SUN = querent) || bool_decide (SUN = quesited))
    eqn:Hsun; cbn [negb].
  - pose proof (proj1 (orb_true_iff _ _) Hsun) as Hs.
    rewrite !bool_decide_eq_true in Hs.
    unfold subscript.
    destruct (planets chart !! _) as [pos|]; [|done].
    unfold mbind, result_bind.
    assert (Hsun' : querent = SUN \/ quesited = SUN)
      by (destruct Hs as [Hs|Hs]; [by left | by right]).
    destruct (solar_condition pos) as [[c|]|] eqn:Hc; [|done|].
    + intros [= <-]. rewrite bool_decide_eq_true. split.
      * intros ->. split; [done|]. by exists pos.
      * intros (_ & pos' & [= <-] & H). congruence.
    + intros [= <-]. split; [done|].
      intros (_ & pos' & [= <-] & H). congruence.
  - pose proof (proj1 (orb_false_iff _ _) Hsun) as Hs.
    rewrite !bool_decide_eq_false in Hs.
    intros [= <-]. split; [done|]. destruct Hs as [H1 H2].
    intros ([H|H] & _); congruence.
Qed.

(** X18.  [_detect_direct_events] reports at most one event.  It reports
    nothing exactly when every timed aspect between the two bodies lies
    beyond the window; otherwise its event carries the aspect that the
    kernel times first (a time of zero included), and it is a combustion
    veto exactly when that aspect is a conjunction with the Sun in which
    the other body is combust, a plain direct perfection exactly when it
    is no veto and carries no challenge. *)
Theorem direct_event_is_earliest (chart : HoraryChart)
    (querent quesited : Planet) (window_days : Z)
    (evs : list PerfectionEvent) :
  EventDetector._detect_direct_events X chart querent quesited window_days
  = Ok evs ->
  (evs = []
   /\ forall a t,
        TimingKernel.when_exact_in_days X querent quesited a chart = Some t ->
        (inject_Z window_days < t)%Q)
  \/ exists ev a t,
       evs = [ev]
       /\ aspect ev = Some a /\ exact_in_days ev = Some t
       /\ TimingKernel.when_exact_in_days X querent quesited a chart = Some t
       /\ (t <= inject_Z window_days)%Q
       /\ (forall a' t',
             TimingKernel.when_exact_in_days X querent quesited a' chart
             = Some t' ->
             (t <= t')%Q)
       /\ (event_type ev = COMBUSTION_VETO
           <-> a = CONJUNCTION /\ combust_by_sun chart querent quesited)
       /\ (event_type ev = DIRECT
           <-> event_type ev <> COMBUSTION_VETO /\ challenges ev = [])
       /\ (event_type ev = DIRECT_PENALIZED
           <-> event_type ev <> COMBUSTION_VETO /\ challenges ev <> []).
Proof.
  unfold EventDetector._detect_direct_events.
  match goal with
  | |- context [py_min Qltb snd ?c] => set (candidates := c)
  end.
  assert (Hcand : forall a t,
            (a, t) ∈ candidates
            <-> TimingKernel.when_exact_in_days X querent quesited a chart
                = Some t
                /\ (t <= inject_Z window_days)%Q).
  { intros a t. unfold candidates. rewrite direct_candidates_spec. split.
    - intros [H|(_ & H)]; [by apply elem_of_nil in H | done].
    - intros H. right. split; [apply all_aspects_complete | done]. }
  destruct (py_min Qltb snd candidates) as [[asp timing]|] eqn:Hmin.
  2: { intros [= <-]. left. split; [done|]. intros a t Ht.
       apply py_min_none in Hmin.
       destruct (Qlt_le_dec (inject_Z window_days) t) as [H|H]; [done|].
       assert (Hin : (a, t) ∈ candidates) by (by apply Hcand).
       rewrite Hmin in Hin. by apply elem_of_nil in Hin. }
  assert (Hleast : forall a' t',
            TimingKernel.when_exact_in_days X querent quesited a' chart
            = Some t' ->
            (timing <= t')%Q).
  { pose proof (py_min_elem _ _ _ _ Hmin) as Hin. apply Hcand in Hin as [_ Hw].
    intros a' t' Ht'.
    destruct (Qlt_le_dec (inject_Z window_days) t') as [H|H]; [lra|].
    assert (Hin' : (a', t') ∈ candidates) by (by apply Hcand).
    destruct candidates as [|c0 cs]; [done|]. cbn in Hmin.
    injection Hmin as Hmin.
    pose proof (min_by_minimal Qltb snd c0 cs) as Hm.
    rewrite Hmin in Hm. apply Qltb_ge.
    apply (Hm (fun a => proj2 (Qltb_ge a a) (Qle_refl a))) with (y := (a', t'));
      [| |done].
    - intros x y Hxy. apply Qltb_lt in Hxy. apply Qltb_ge.
      by apply Qlt_le_weak.
    - intros x y z H1 H2. apply Qltb_ge in H1, H2. apply Qltb_ge.
      by apply (Qle_trans _ y). }
  apply py_min_elem, Hcand in Hmin as [Hexact Hwin].
  destruct (decide (asp = CONJUNCTION)) as [Hconj|Hconj].
  - destruct (EventDetector._is_combustion_conjunction chart querent quesited)
      as [combust|] eqn:Hc; [|done].
    apply is_combustion_conjunction_spec in Hc.
    unfold mbind at 1, result_bind at 1. cbv beta iota.
    destruct combust.
    + intros [= <-]. right. eexists _, asp, timing.
      split; [reflexivity|]. cbn [aspect exact_in_days event_type challenges].
      split_and!; try done.
      * split; [intros _; split; [done | by apply Hc] | done].
      * split; [done | by intros [? _]].
      * split; [done | by intros [? _]].
    + destruct (EventDetector._assess_direct_aspect_quality _ _ _ _ _)
        as [[[fav ch] qt]|]; [|done].
      unfold mbind, result_bind. cbv beta iota zeta.
      intros [= <-]. right. eexists _, asp, timing.
      split; [reflexivity|]. cbn [aspect exact_in_days event_type challenges].
      assert (Hno : ~ combust_by_sun chart querent quesited).
      { intros H. apply Hc in H. done. }
      destruct ch; split_and!; try done; family_iff.
  - unfold mbind at 1, result_bind at 1. cbv beta iota.
    destruct (EventDetector._assess_direct_aspect_quality _ _ _ _ _)
      as [[[fav ch] qt]|]; [|done].
    unfold mbind, result_bind. cbv beta iota zeta.
    intros [= <-]. right. eexists _, asp, timing.
    split; [reflexivity|]. cbn [aspect exact_in_days event_type challenges].
    destruct ch; split_and!; try done; family_iff.
Qed.

End Direct.

Section DirectWorked.
Import Sample.

Lemma direct_event_is_earliest_witness :
  exists ev t,
    produced (EventDetector._detect_direct_events sample_externals
                chart_collection MERCURY VENUS 30) = [ev]
    /\ exact_in_days ev = Some t
    /\ forall a' t',
         TimingKernel.when_exact_in_days sample_externals MERCURY VENUS a'
           chart_collection = Some t' ->
         (t <= t')%Q.
Proof.
  assert (Hr : EventDetector._detect_direct_events sample_externals
                 chart_collection MERCURY VENUS 30
               = Ok (produced (EventDetector._detect_direct_events
                                 sample_externals chart_collection
                                 MERCURY VENUS 30))).
  { vm_compute. reflexivity. }
  destruct (direct_event_is_earliest sample_externals chart_collection
              MERCURY VENUS 30 _ Hr)
    as [[H _]|(ev & a & t & H1 & _ & H3 & _ & _ & H6 & _)].
  - vm_compute in H. discriminate.
  - exists ev, t. split; [exact H1|]. split; [exact H3 | exact H6].
Defined.

End DirectWorked.

(** ** One body for both parties *)

Section IdentityAnswer.
Context (X : Externals).

Lemma find_first_none {A B : Type} (f : A -> option B) (l : list A) :
  (forall x, x ∈ l -> f x = None) -> find_first f l = None.
Proof.
  induction l as [|x l IH]; intros H; [done|]. cbn.
  rewrite (H x) by left. apply IH. intros y Hy. apply H. by right.
Qed.

(** Events that all happen at once leave no secondary perfection. *)
Lemma no_secondary_at_once (l : list PerfectionEvent) (p : PerfectionEvent)
    (t : Q) :
  exact_in_days p = Some t ->
  (forall e, e ∈ l -> exact_in_days e = Some t) ->
  PerfectionChooserSecondary.select_secondary_perfection l p = None.
Proof.
  intros Hp Hl. unfold PerfectionChooserSecondary.select_secondary_perfection.
  apply find_first_none. intros e He. apply filter_elem in He as [He _].
  rewrite (Hl e He), Hp. cbn [or_zero].
  assert (E : Qleb (Qabs (t - t)) EPS = true).
  { apply Qleb_le. assert (E0 : (t - t == 0)%Q) by ring. rewrite E0. done. }
  by rewrite E.
Qed.

Lemma house_placement_at_once (chart : HoraryChart)
    (querent quesited : Planet) (e : PerfectionEvent) :
  e ∈ EventDetector._detect_house_placement_events X chart querent quesited ->
  event_type e = HOUSE_PLACEMENT /\ exact_in_days e = Some 0%Q.
Proof.
  unfold EventDetector._detect_house_placement_events.
  destruct (significators chart) as [sigs|];
    [|intros He; by apply elem_of_nil in He].
  destruct (decide (sigs = ∅)); [intros He; by apply elem_of_nil in He|].
  intros He. apply elem_of_app in He as [He|He];
    destruct (EventDetector.in_house _ _);
    try (by apply elem_of_nil in He);
    apply list_elem_of_singleton in He; by subst e.
Qed.

(** What the chooser makes of the events of the identity case. *)
Lemma identity_selection (chart : HoraryChart) (P : Planet) :
  let d := EventDetector.identity_event X P P in
  let evs :=
    EventDetector._sort_events_by_priority
      (EventDetector._deduplicate_events
         (EventDetector._detect_house_placement_events X chart P P ++ [d])) in
  PerfectionChooser.select_primary_perfection evs = Some d
  /\ PerfectionChooserSecondary.select_secondary_perfection evs d = None.
Proof.
  intros d evs.
  set (house := EventDetector._detect_house_placement_events X chart P P)
    in *.
  assert (Horigin : forall e, e ∈ evs ->
            e = d
            \/ (event_type e = HOUSE_PLACEMENT
                /\ exact_in_days e = Some 0%Q)).
  { intros e He. unfold evs in He. rewrite sort_events_perm in He.
    apply deduplicate_elem, elem_of_app in He as [He|He].
    - right. by apply (house_placement_at_once chart P P).
    - left. by apply list_elem_of_singleton in He. }
  assert (Hd : d ∈ evs).
  { destruct (deduplicate_keeps_key (house ++ [d]) d) as (x & Hx & Hk & _).
    { apply elem_of_app. right. by left. }
    assert (Hx' : x ∈ evs) by (unfold evs; by rewrite sort_events_perm).
    destruct (Horigin x Hx') as [-> |[Hty _]]; [done|].
    exfalso. apply (f_equal key_type) in Hk. cbn in Hk. congruence. }
  split.
  - unfold PerfectionChooser.select_primary_perfection.
    destruct evs as [|e0 l0] eqn:Hevs; [by apply elem_of_nil in Hd|].
    rewrite <- Hevs in *. clear Hevs e0 l0. cbv zeta.
    unfold PerfectionChooser.earliest.
    assert (Hnoproh : List.filter PerfectionChooser.is_prohibition evs = []).
    { destruct (List.filter PerfectionChooser.is_prohibition evs)
        as [|x xs] eqn:Hf; [done|]. exfalso.
      assert (Hx : x ∈ List.filter PerfectionChooser.is_prohibition evs)
        by (rewrite Hf; left).
      apply filter_elem in Hx as [Hx Hty].
      apply bool_decide_eq_true in Hty.
      destruct (Horigin x Hx) as [-> |[H _]]; [done | congruence]. }
    rewrite Hnoproh. cbn [py_min].
    destruct (py_min _ _ (List.filter is_positive evs)) as [pos|] eqn:Hpos.
    + apply py_min_elem, filter_elem in Hpos as [Hin Hty].
      destruct (Horigin pos Hin) as [-> |[H _]]; [done|].
      unfold is_positive in Hty. rewrite H in Hty. done.
    + apply py_min_none in Hpos.
      by apply (filter_nil_none _ _ d) in Hpos.
  - apply (no_secondary_at_once evs d 0); [done|].
    intros e He. by destruct (Horigin e He) as [-> |[_ H]].
Qed.

(** X19.  When one body is both querent and quesited, [find_perfections]
    answers with the same-ruler DIRECT event as primary perfection
    (immediate, by conjunction, favorable, with the configured same-ruler
    confidence, 80 when the configuration has none) and with no secondary
    perfection; it raises [ValueError] instead, from its debug output,
    exactly when the chart places the body without a longitude or without
    a speed. *)
Theorem identity_case_answer (chart : HoraryChart) (P : Planet)
    (window_days : Z) :
  let answered :=
    exists r d,
      PerfectionCoreAPI.find_perfections X chart P P window_days = Ok r
      /\ primary r = Some d
      /\ event_type d = DIRECT /\ mediator d = None
      /\ aspect d = Some CONJUNCTION /\ exact_in_days d = Some 0%Q
      /\ favorable d = true
      /\ confidence d
         = Some (default 80
                   (same_ruler (conf_perfection (cfg_confidence (config X)))))
      /\ secondary r = None in
  match planets chart !! P with
  | Some pos =>
      match longitude pos, speed pos with
      | Some _, Some _ => answered
      | _, _ =>
          PerfectionCoreAPI.find_perfections X chart P P window_days
          = Raise ValueError
      end
  | None => answered
  end.
Proof.
  intros answered.
  destruct (identity_selection chart P) as [Hprim Hsec].
  assert (Hans : PerfectionCoreAPI.print_positions chart P P = Ok () ->
                 answered).
  { intros Hprint.
    exists {| events :=
                EventDetector._sort_events_by_priority
                  (EventDetector._deduplicate_events
                     (EventDetector._detect_house_placement_events X chart P P
                      ++ [EventDetector.identity_event X P P]));
              primary := Some (EventDetector.identity_event X P P);
              secondary := None |}, (EventDetector.identity_event X P P).
    split; [|by split_and!].
    unfold PerfectionCoreAPI.find_perfections. rewrite Hprint.
    unfold mbind at 1, result_bind at 1. cbv beta iota.
    unfold EventDetector.detect_all_events.
    destruct (decide (P = P)) as [_|]; [|done].
    cbv zeta. unfold mbind, result_bind. cbv beta iota.
    by rewrite Hprim, Hsec. }
  unfold PerfectionCoreAPI.find_perfections in *.
  unfold PerfectionCoreAPI.print_positions, PerfectionCoreAPI.position_line
    in *.
  destruct (planets chart !! P) as [pos|]; [|by apply Hans].
  destruct (longitude pos), (speed pos); [by apply Hans | done..].
Qed.

End IdentityAnswer.
